(** * usb-vhci-hcd: the transfer/port state machine of the virtual USB host
    controller, embedded from [usb-vhci-hcd.c].

    The driver is modelled sequentially: every entry point runs with
    [vhc->lock] held for its whole body, so one call is one state
    transformer.  (The lock is dropped around the hand-back of an urb to
    the USB core; a completion handler is taken not to call back into the
    driver before the call at hand returns.)  The build modelled is the one
    without
    [OLD_GIVEBACK_MECH] (the completion status lives in
    [vhci_urb_priv.status] and is written with [atomic_cmpxchg]).

    Calls that leave the driver (giving an urb back to the USB core, waking
    the work-event wait queue, asking for a root-hub poll, handing the
    controller back on removal) are recorded, in order, in a trace kept next
    to the controller state.

    The driver's debug printing leaves the state alone and is not part of
    the state transformers.  One debug routine follows the pointers of an urb:
    [dump_urb], called at every give-back.  It is modelled as a function of
    the debug level ([debug_output], 0 when the module is loaded and written
    only through the driver's sysfs attribute, which is not among the
    modelled calls) and of the urb that the give-back records in the
    trace. *)

From Stdlib Require Import ZArith List Bool Lia.
From stdpp Require Import base option list.
Import ListNotations.
Local Open Scope Z_scope.

(** ** Constants of the kernel headers *)

(** Error numbers (asm-generic/errno.h). *)
Definition ENOENT := 2.
Definition EINTR := 4.
Definition ENOMEM := 12.
Definition EFAULT := 14.
Definition EINVAL := 22.
Definition EPIPE := 32.
Definition ENODATA := 61.
Definition EPROTO := 71.
Definition ENOBUFS := 105.
Definition ESHUTDOWN := 108.
Definition ETIMEDOUT := 110.
Definition EINPROGRESS := 115.
Definition ECANCELED := 125.
Definition ERESTARTSYS := 512.

(** Hub class requests ([typeReq] of [hub_control], from the core's hcd.h). *)
Definition ClearHubFeature := 0x2001.
Definition ClearPortFeature := 0x2301.
Definition GetHubDescriptor := 0xa006.
Definition GetHubStatus := 0xa000.
Definition GetPortStatus := 0xa300.
Definition SetHubFeature := 0x2003.
Definition SetPortFeature := 0x2303.

(** Hub and port features (ch11.h). *)
Definition C_HUB_LOCAL_POWER := 0.
Definition C_HUB_OVER_CURRENT := 1.
Definition USB_PORT_FEAT_CONNECTION := 0.
Definition USB_PORT_FEAT_ENABLE := 1.
Definition USB_PORT_FEAT_SUSPEND := 2.
Definition USB_PORT_FEAT_OVER_CURRENT := 3.
Definition USB_PORT_FEAT_RESET := 4.
Definition USB_PORT_FEAT_POWER := 8.
Definition USB_PORT_FEAT_LOWSPEED := 9.
Definition USB_PORT_FEAT_HIGHSPEED := 10.
Definition USB_PORT_FEAT_C_CONNECTION := 16.
Definition USB_PORT_FEAT_C_ENABLE := 17.
Definition USB_PORT_FEAT_C_SUSPEND := 18.
Definition USB_PORT_FEAT_C_OVER_CURRENT := 19.
Definition USB_PORT_FEAT_C_RESET := 20.
Definition USB_PORT_FEAT_TEST := 21.
Definition USB_PORT_FEAT_INDICATOR := 22.

(** Port status and change bits (ch11.h). *)
Definition USB_PORT_STAT_CONNECTION := 0x0001.
Definition USB_PORT_STAT_ENABLE := 0x0002.
Definition USB_PORT_STAT_SUSPEND := 0x0004.
Definition USB_PORT_STAT_OVERCURRENT := 0x0008.
Definition USB_PORT_STAT_RESET := 0x0010.
Definition USB_PORT_STAT_POWER := 0x0100.
Definition USB_PORT_STAT_LOW_SPEED := 0x0200.
Definition USB_PORT_STAT_HIGH_SPEED := 0x0400.
Definition USB_PORT_STAT_C_CONNECTION := 0x0001.
Definition USB_PORT_STAT_C_ENABLE := 0x0002.
Definition USB_PORT_STAT_C_SUSPEND := 0x0004.
Definition USB_PORT_STAT_C_OVERCURRENT := 0x0008.
Definition USB_PORT_STAT_C_RESET := 0x0010.

(** Modelled from the spec: the driver's own header usb-vhci.h is not part of
    the sources at hand.  The spec names a single driver-private port flag,
    "resuming in progress"; it is taken to be bit 0 of [port_flags].  No
    result below depends on which bit it is. *)
Definition USB_VHCI_PORT_STAT_FLAG_RESUMING := 0x01.

(** Pipe encoding (linux/usb.h). *)
Definition PIPE_ISOCHRONOUS := 0.
Definition PIPE_INTERRUPT := 1.
Definition PIPE_CONTROL := 2.
Definition PIPE_BULK := 3.
Definition USB_DIR_IN := 0x80.
Definition URB_SHORT_NOT_OK := 0x0001.
Definition URB_ISO_ASAP := 0x0002.
Definition URB_ZERO_PACKET := 0x0040.

Definition usb_pipetype (pipe : Z) : Z := Z.land (Z.shiftr pipe 30) 3.
Definition usb_pipein (pipe : Z) : Z := Z.land pipe USB_DIR_IN.
Definition usb_pipedevice (pipe : Z) : Z := Z.land (Z.shiftr pipe 8) 0x7f.
Definition usb_pipeendpoint (pipe : Z) : Z := Z.land (Z.shiftr pipe 15) 0xf.
Definition usb_pipeint (pipe : Z) : bool := usb_pipetype pipe =? PIPE_INTERRUPT.
Definition usb_pipecontrol (pipe : Z) : bool := usb_pipetype pipe =? PIPE_CONTROL.
Definition usb_pipeisoc (pipe : Z) : bool := usb_pipetype pipe =? PIPE_ISOCHRONOUS.

(** ** Fixed-width stores *)

Definition u8 (z : Z) : Z := Z.land z (Z.ones 8).
Definition u16 (z : Z) : Z := Z.land z (Z.ones 16).
Definition u32 (z : Z) : Z := Z.land z (Z.ones 32).

(** C truth value of an integer expression, and the NULL test of a
    pointer. *)
Definition nz (z : Z) : bool := negb (z =? 0).

Definition is_null {A : Type} (p : option A) : bool :=
  match p with None => true | Some _ => false end.

(** ** Data model *)

(** [struct usb_ctrlrequest], with the little-endian words already decoded. *)
Record usb_ctrlrequest := mk_ctrlrequest {
  bRequestType : Z;
  bRequest : Z;
  wValue : Z;
  wIndex : Z;
  wLength : Z
}.

(** [struct usb_iso_packet_descriptor]. *)
Record usb_iso_packet_descriptor := mk_iso_desc {
  iso_offset : Z;
  iso_length : Z;
  iso_actual_length : Z;
  iso_status : Z
}.

(** The part of [struct urb] the driver reads or writes.  [urb_handle] is the
    address of the urb: the driver compares urbs by pointer and hands that
    pointer to user space as the handle.  [None] stands for a NULL pointer
    in [transfer_buffer] and [setup_packet]. *)
Record urb := mk_urb {
  urb_handle : Z;
  pipe : Z;
  transfer_flags : Z;
  transfer_buffer : option (list Z);
  transfer_buffer_length : Z;
  actual_length : Z;
  setup_packet : option usb_ctrlrequest;
  number_of_packets : Z;
  interval : Z;
  error_count : Z;
  iso_frame_desc : list usb_iso_packet_descriptor
}.

(** [struct vhci_urb_priv]; the list linkage is the position in one of the
    four queues below. *)
Record vhci_urb_priv := mk_urbp {
  urbp_urb : urb;
  urbp_status : Z
}.

Inductive vhci_rh_state := VHCI_RH_RESET | VHCI_RH_SUSPENDED | VHCI_RH_RUNNING.

Record vhci_port := mk_port {
  port_status : Z;
  port_change : Z;
  port_flags : Z
}.

(** [struct vhci]. *)
Record vhci := mk_vhci {
  rh_state : vhci_rh_state;
  ports : list vhci_port;
  port_count : Z;
  port_sched_offset : Z;
  port_update : Z;
  frame_num : Z;
  urbp_list_inbox : list vhci_urb_priv;
  urbp_list_fetched : list vhci_urb_priv;
  urbp_list_cancel : list vhci_urb_priv;
  urbp_list_canceling : list vhci_urb_priv
}.

(** What the driver does to the rest of the kernel. *)
Inductive event :=
| usb_hcd_giveback_urb (u : urb) (status : Z)
| wake_up_interruptible
| usb_hcd_poll_rh_status
| usb_remove_hcd
| usb_put_hcd.

(** [struct usb_hcd] as far as the driver looks at it: the
    [HCD_FLAG_HW_ACCESSIBLE] bit of [hcd->flags], the private area holding
    the [struct vhci], and the trace of outgoing calls (oldest first). *)
Record usb_hcd := mk_hcd {
  hw_accessible : bool;
  hcd_priv : vhci;
  trace : list event
}.

Definition hcd_to_vhci (hcd : usb_hcd) : vhci := hcd_priv hcd.

Definition with_vhci (f : vhci -> vhci) (hcd : usb_hcd) : usb_hcd :=
  mk_hcd (hw_accessible hcd) (f (hcd_priv hcd)) (trace hcd).

Definition emit (e : event) (hcd : usb_hcd) : usb_hcd :=
  mk_hcd (hw_accessible hcd) (hcd_priv hcd) (trace hcd ++ [e]).

Definition set_ports (ps : list vhci_port) (v : vhci) : vhci :=
  mk_vhci (rh_state v) ps (port_count v) (port_sched_offset v) (port_update v)
    (frame_num v) (urbp_list_inbox v) (urbp_list_fetched v)
    (urbp_list_cancel v) (urbp_list_canceling v).

Definition set_port_sched_offset (o : Z) (v : vhci) : vhci :=
  mk_vhci (rh_state v) (ports v) (port_count v) o (port_update v)
    (frame_num v) (urbp_list_inbox v) (urbp_list_fetched v)
    (urbp_list_cancel v) (urbp_list_canceling v).

Definition set_port_update (u : Z) (v : vhci) : vhci :=
  mk_vhci (rh_state v) (ports v) (port_count v) (port_sched_offset v) u
    (frame_num v) (urbp_list_inbox v) (urbp_list_fetched v)
    (urbp_list_cancel v) (urbp_list_canceling v).

(** The four queues an urb can be linked into. *)
Inductive urbp_list := Inbox | Fetched | Cancel | Canceling.

Definition get_list (q : urbp_list) (v : vhci) : list vhci_urb_priv :=
  match q with
  | Inbox => urbp_list_inbox v
  | Fetched => urbp_list_fetched v
  | Cancel => urbp_list_cancel v
  | Canceling => urbp_list_canceling v
  end.

Definition set_list (q : urbp_list) (l : list vhci_urb_priv) (v : vhci) : vhci :=
  match q with
  | Inbox =>
      mk_vhci (rh_state v) (ports v) (port_count v) (port_sched_offset v)
        (port_update v) (frame_num v) l (urbp_list_fetched v)
        (urbp_list_cancel v) (urbp_list_canceling v)
  | Fetched =>
      mk_vhci (rh_state v) (ports v) (port_count v) (port_sched_offset v)
        (port_update v) (frame_num v) (urbp_list_inbox v) l
        (urbp_list_cancel v) (urbp_list_canceling v)
  | Cancel =>
      mk_vhci (rh_state v) (ports v) (port_count v) (port_sched_offset v)
        (port_update v) (frame_num v) (urbp_list_inbox v) (urbp_list_fetched v)
        l (urbp_list_canceling v)
  | Canceling =>
      mk_vhci (rh_state v) (ports v) (port_count v) (port_sched_offset v)
        (port_update v) (frame_num v) (urbp_list_inbox v) (urbp_list_fetched v)
        (urbp_list_cancel v) l
  end.

#[global] Instance urbp_list_eq_dec : EqDecision urbp_list.
Proof. solve_decision. Defined.

(** ** Queue primitives *)

Definition handle_of (p : vhci_urb_priv) : Z := urb_handle (urbp_urb p).

(** [list_for_each_entry ... if(entry->urb == handle)]: the first entry of a
    queue whose urb is the one asked for. *)
Fixpoint find_urbp (handle : Z) (l : list vhci_urb_priv) : option vhci_urb_priv :=
  match l with
  | [] => None
  | entry :: l' =>
      if handle_of entry =? handle then Some entry else find_urbp handle l'
  end.

(** [list_del] of the entry found by [find_urbp]. *)
Fixpoint del_urbp (handle : Z) (l : list vhci_urb_priv) : list vhci_urb_priv :=
  match l with
  | [] => []
  | entry :: l' =>
      if handle_of entry =? handle then l' else entry :: del_urbp handle l'
  end.

Definition list_del (q : urbp_list) (p : vhci_urb_priv) (v : vhci) : vhci :=
  set_list q (del_urbp (handle_of p) (get_list q v)) v.

Definition list_add_tail (q : urbp_list) (p : vhci_urb_priv) (v : vhci) : vhci :=
  set_list q (get_list q v ++ [p]) v.

Definition list_move_tail (from to : urbp_list) (p : vhci_urb_priv) (v : vhci) : vhci :=
  list_add_tail to p (list_del from p v).

(** ** Completion status and give-back *)

(** [atomic_cmpxchg(&urbp->status, -EINPROGRESS, status)]. *)
Definition maybe_set_status (urbp : vhci_urb_priv) (status : Z) : vhci_urb_priv :=
  if urbp_status urbp =? - EINPROGRESS
  then mk_urbp (urbp_urb urbp) status
  else urbp.

(** Reads the status, unlinks the entry from the queue [q] it sits in and
    hands the urb to the USB core with that status.  ([urb->hcpriv], the
    endpoint linkage and the device reference count are the core's
    book-keeping and are not tracked.)  Just before the hand-back the urb
    goes through [dump_urb], which changes nothing; whether that call reads
    through a NULL pointer is told by [dump_urb] below, from the debug level
    and the urb of the event recorded here.  With [debug_output] at 0 it
    returns at once. *)
Definition vhci_urb_giveback (q : urbp_list) (urbp : vhci_urb_priv)
    (hcd : usb_hcd) : usb_hcd :=
  let status := urbp_status urbp in
  emit (usb_hcd_giveback_urb (urbp_urb urbp) status)
       (with_vhci (list_del q urbp) hcd).

Definition trigger_work_event (hcd : usb_hcd) : usb_hcd :=
  emit wake_up_interruptible hcd.

(** ** The debug dump of an urb *)

(** A loop [for(i = lo; i < hi; i++)] that prints byte [i] of
    [urb->transfer_buffer]: it reads through the pointer as soon as it runs
    once.  [None] is a read through a NULL pointer. *)
Definition dump_bytes (buf : option (list Z)) (lo hi : Z) : option unit :=
  if (lo <? hi) && is_null buf then None else Some tt.

(** The data stage as printed from debug level 2 on: all [max] bytes from
    [offset] if the level is above 2 or there are at most 16 of them, the
    first 8 and the last 8 otherwise. *)
Definition dump_data (debug_output : Z) (buf : option (list Z))
    (offset max : Z) : option unit :=
  if (2 <? debug_output) || (max <=? 16)
  then dump_bytes buf offset (max + offset)
  else
    match dump_bytes buf offset (8 + offset) with
    | None => None
    | Some _ => dump_bytes buf (max + offset - 8) (max + offset)
    end.

(** The loop over the packets of an isochronous urb. *)
Fixpoint dump_iso_packets (debug_output is_in : Z) (buf : option (list Z))
    (descs : list usb_iso_packet_descriptor) : option unit :=
  match descs with
  | [] => Some tt
  | d :: descs' =>
      let packet :=
        if 2 <=? debug_output then
          let max := if nz is_in then iso_actual_length d else iso_length d in
          dump_data debug_output buf (iso_offset d) max
        else Some tt in
      match packet with
      | None => None
      | Some _ => dump_iso_packets debug_output is_in buf descs'
      end
  end.

(** [dump_urb], as far as it follows [setup_packet] and [transfer_buffer];
    what it prints is left out.  [None] is a read through a NULL pointer.
    For a control urb the bytes 6, 7 and 0 of the setup packet are read
    before the pointer is tested; the data stage is read without a test. *)
Definition dump_urb (debug_output : Z) (u : urb) : option unit :=
  let max := transfer_buffer_length u in
  let is_in := usb_pipein (pipe u) in
  if debug_output =? 0 then Some tt
  else
    let header :=
      if usb_pipeint (pipe u) then Some (max, is_in)
      else if usb_pipeisoc (pipe u) then Some (max, is_in)
      else if usb_pipecontrol (pipe u) then
        match setup_packet u with
        | None => None
        | Some cmd => Some (wLength cmd, Z.land (bRequestType cmd) 0x80)
        end
      else Some (max, is_in) in
    match header with
    | None => None
    | Some (max, is_in) =>
        if usb_pipeisoc (pipe u) then
          dump_iso_packets debug_output is_in (transfer_buffer u)
            (take (Z.to_nat (number_of_packets u)) (iso_frame_desc u))
        else if 2 <=? debug_output then
          let max := if nz is_in then actual_length u else max in
          dump_data debug_output (transfer_buffer u) 0 max
        else Some tt
    end.

(** The dump that goes with an event of the trace: a give-back dumps its
    urb, the other events dump nothing. *)
Definition dump_urb_event (debug_output : Z) (e : event) : option unit :=
  match e with
  | usb_hcd_giveback_urb u _ => dump_urb debug_output u
  | _ => Some tt
  end.

(** No give-back of the trace has read through a NULL pointer in its
    dump. *)
Definition dumps_safe (debug_output : Z) (tr : list event) : Prop :=
  Forall (fun e => dump_urb_event debug_output e <> None) tr.

(** ** Submission and cancellation (called by the USB core) *)

(** [kzalloc_ok] says whether the allocation of the private record
    succeeded; [link_retval] is what [usb_hcd_link_urb_to_ep] returned. *)
Definition vhci_urb_enqueue (hcd : usb_hcd) (u : urb)
    (kzalloc_ok : bool) (link_retval : Z) : Z * usb_hcd :=
  if is_null (transfer_buffer u) && nz (transfer_buffer_length u)
  then (- EINVAL, hcd)
  else if negb kzalloc_ok then (- ENOMEM, hcd)
  else
    (* kzalloc hands out zeroed memory; only the urb pointer is filled in *)
    let urbp := mk_urbp u 0 in
    if nz link_retval then (link_retval, hcd)
    else (0, trigger_work_event (with_vhci (list_add_tail Inbox urbp) hcd)).

(** [check_retval] is what [usb_hcd_check_unlink_urb] returned; [status] is
    handed to that function only. *)
Definition vhci_urb_dequeue (hcd : usb_hcd) (u : Z) (status : Z)
    (check_retval : Z) : Z * usb_hcd :=
  if nz check_retval then (check_retval, hcd)
  else
    match find_urbp u (urbp_list_inbox (hcd_to_vhci hcd)) with
    | Some urbp => (0, vhci_urb_giveback Inbox urbp hcd)
    | None =>
        match find_urbp u (urbp_list_fetched (hcd_to_vhci hcd)) with
        | Some entry =>
            (0, trigger_work_event
                  (with_vhci (list_move_tail Fetched Cancel entry) hcd))
        | None => (0, hcd)
        end
    end.

(** ** Port table *)

(** [vhc->ports[i]]; the array holds [port_count] entries, so an index
    outside the list is outside the allocation and never arises from the
    range checks below. *)
Definition port_at (v : vhci) (i : Z) : vhci_port :=
  default (mk_port 0 0 0) (ports v !! Z.to_nat i).

Definition update_port (i : Z) (f : vhci_port -> vhci_port) (v : vhci) : vhci :=
  set_ports (alter f (Z.to_nat i) (ports v)) v.

(** First port is port 1; [port] is a [u8] parameter. *)
Definition userspace_needs_port_update (port : Z) (hcd : usb_hcd) : usb_hcd :=
  trigger_work_event
    (with_vhci
       (fun v =>
          set_port_update
            (u32 (Z.lor (port_update v) (Z.shiftl 1 (u8 port)))) v)
       hcd).

Definition is_change_feature (v : Z) : bool :=
  (v =? USB_PORT_FEAT_C_CONNECTION) || (v =? USB_PORT_FEAT_C_ENABLE) ||
  (v =? USB_PORT_FEAT_C_SUSPEND) || (v =? USB_PORT_FEAT_C_OVER_CURRENT) ||
  (v =? USB_PORT_FEAT_C_RESET).

(** The inner [switch(wValue)] of the [ClearPortFeature] case, acting on the
    port that [ps], [pc] and [pf] point into.  [None] is [goto err];
    otherwise the new port and whether [userspace_needs_port_update] was
    called. *)
Definition clear_port_feature (wValue : Z) (p : vhci_port)
    : option (vhci_port * bool) :=
  let ps := port_status p in
  let pc := port_change p in
  let pf := port_flags p in
  if wValue =? USB_PORT_FEAT_SUSPEND then
    if nz (Z.land ps USB_PORT_STAT_SUSPEND)
    then Some (mk_port ps pc (u8 (Z.lor pf USB_VHCI_PORT_STAT_FLAG_RESUMING)), true)
    else Some (p, false)
  else if wValue =? USB_PORT_FEAT_POWER then
    if nz (Z.land ps USB_PORT_STAT_POWER)
    then Some (mk_port (u16 (Z.land ps USB_PORT_STAT_OVERCURRENT))
                       (u16 (Z.land pc USB_PORT_STAT_C_OVERCURRENT))
                       (u8 (Z.land pf (Z.lnot USB_VHCI_PORT_STAT_FLAG_RESUMING))),
               true)
    else Some (p, false)
  else if wValue =? USB_PORT_FEAT_ENABLE then
    if nz (Z.land ps USB_PORT_STAT_ENABLE)
    then Some (mk_port
                 (u16 (Z.land ps (Z.lnot (Z.lor USB_PORT_STAT_ENABLE
                                                USB_PORT_STAT_SUSPEND))))
                 (u16 (Z.land pc (Z.lnot (Z.lor USB_PORT_STAT_C_ENABLE
                                                USB_PORT_STAT_C_SUSPEND))))
                 (u8 (Z.land pf (Z.lnot USB_VHCI_PORT_STAT_FLAG_RESUMING))),
               true)
    else Some (p, false)
  else if (wValue =? USB_PORT_FEAT_CONNECTION) ||
          (wValue =? USB_PORT_FEAT_OVER_CURRENT) ||
          (wValue =? USB_PORT_FEAT_RESET) ||
          (wValue =? USB_PORT_FEAT_LOWSPEED) ||
          (wValue =? USB_PORT_FEAT_HIGHSPEED) ||
          (wValue =? USB_PORT_FEAT_INDICATOR) then
    Some (p, false)
  else if is_change_feature wValue then
    if nz (Z.land pc (Z.shiftl 1 (wValue - 16)))
    then Some (mk_port ps (u16 (Z.land pc (Z.lnot (Z.shiftl 1 (wValue - 16))))) pf,
               true)
    else Some (p, false)
  else None.

(** The inner [switch(wValue)] of the [SetPortFeature] case. *)
Definition set_port_feature (wValue : Z) (p : vhci_port)
    : option (vhci_port * bool) :=
  let ps := port_status p in
  let pc := port_change p in
  let pf := port_flags p in
  if wValue =? USB_PORT_FEAT_SUSPEND then
    if nz (Z.land ps USB_PORT_STAT_ENABLE) &&
       negb (nz (Z.land ps USB_PORT_STAT_SUSPEND))
    then Some (mk_port (u16 (Z.lor ps USB_PORT_STAT_SUSPEND)) pc pf, true)
    else Some (p, false)
  else if wValue =? USB_PORT_FEAT_POWER then
    if negb (nz (Z.land ps USB_PORT_STAT_POWER))
    then Some (mk_port (u16 (Z.lor ps USB_PORT_STAT_POWER)) pc pf, true)
    else Some (p, false)
  else if wValue =? USB_PORT_FEAT_RESET then
    if nz (Z.land ps USB_PORT_STAT_CONNECTION) &&
       negb (nz (Z.land ps USB_PORT_STAT_RESET))
    then
      let kept :=
        u16 (Z.land ps
               (Z.lor (Z.lor (Z.lor (Z.lor USB_PORT_STAT_POWER
                                           USB_PORT_STAT_CONNECTION)
                                    USB_PORT_STAT_LOW_SPEED)
                             USB_PORT_STAT_HIGH_SPEED)
                      USB_PORT_STAT_OVERCURRENT)) in
      Some (mk_port (u16 (Z.lor kept USB_PORT_STAT_RESET)) pc
                    (u8 (Z.land pf (Z.lnot USB_VHCI_PORT_STAT_FLAG_RESUMING))),
            true)
    else Some (p, false)
  else if (wValue =? USB_PORT_FEAT_CONNECTION) ||
          (wValue =? USB_PORT_FEAT_OVER_CURRENT) ||
          (wValue =? USB_PORT_FEAT_LOWSPEED) ||
          (wValue =? USB_PORT_FEAT_HIGHSPEED) ||
          (wValue =? USB_PORT_FEAT_INDICATOR) then
    Some (p, false)
  else if is_change_feature wValue then
    if negb (nz (Z.land pc (Z.shiftl 1 (wValue - 16))))
    then Some (mk_port ps (u16 (Z.lor pc (Z.shiftl 1 (wValue - 16)))) pf, true)
    else Some (p, false)
  else None.

(** Applies one of the two port switches to [ports[wIndex - 1]]. *)
Definition port_feature_request
    (sw : Z -> vhci_port -> option (vhci_port * bool))
    (wValue wIndex : Z) (hcd : usb_hcd) : option usb_hcd :=
  match sw wValue (port_at (hcd_to_vhci hcd) (wIndex - 1)) with
  | None => None
  | Some (p', needs_update) =>
      let hcd' := with_vhci (update_port (wIndex - 1) (fun _ => p')) hcd in
      Some (if needs_update then userspace_needs_port_update wIndex hcd'
            else hcd')
  end.

(** The outer [switch(typeReq)].  [None] is the [err] label; otherwise the
    bytes stored into [buf] and the new state.  The bytes of the hub
    descriptor depend on the layout of [struct usb_hub_descriptor] and are
    not tracked. *)
Definition hub_control_switch (typeReq wValue wIndex wLength : Z)
    (hcd : usb_hcd) : option (list Z * usb_hcd) :=
  let vhc := hcd_to_vhci hcd in
  if (typeReq =? ClearHubFeature) || (typeReq =? SetHubFeature) then
    if nz wIndex || nz wLength ||
       ((negb (wValue =? C_HUB_LOCAL_POWER)) &&
        (negb (wValue =? C_HUB_OVER_CURRENT)))
    then None
    else Some ([], hcd)
  else if typeReq =? ClearPortFeature then
    if negb (nz wIndex) || (port_count vhc <? wIndex) || nz wLength
    then None
    else option_map (pair [])
           (port_feature_request clear_port_feature wValue wIndex hcd)
  else if typeReq =? GetHubDescriptor then
    if nz wIndex then None else Some ([], hcd)
  else if typeReq =? GetHubStatus then
    if nz wValue || nz wIndex || negb (wLength =? 4)
    then None
    else Some ([0; 0; 0; 0], hcd)
  else if typeReq =? GetPortStatus then
    if nz wValue || negb (nz wIndex) || (port_count vhc <? wIndex) ||
       negb (wLength =? 4)
    then None
    else
      let p := port_at vhc (wIndex - 1) in
      Some ([u8 (port_status p); u8 (Z.shiftr (port_status p) 8);
             u8 (port_change p); u8 (Z.shiftr (port_change p) 8)], hcd)
  else if typeReq =? SetPortFeature then
    if negb (nz wIndex) || (port_count vhc <? wIndex) || nz wLength
    then None
    else option_map (pair [])
           (port_feature_request set_port_feature wValue wIndex hcd)
  else None.

(** The closing loop over the ports: is any change register non-zero? *)
Definition has_changes (v : vhci) : bool :=
  existsb (fun p => nz (port_change p)) (take (Z.to_nat (port_count v)) (ports v)).

(** Returns [retval], the bytes written to [buf] and the new state. *)
Definition vhci_hub_control (hcd : usb_hcd)
    (typeReq wValue wIndex wLength : Z) : Z * list Z * usb_hcd :=
  if negb (hw_accessible hcd) then (- ETIMEDOUT, [], hcd)
  else
    let '(retval, buf, hcd1) :=
      match hub_control_switch typeReq wValue wIndex wLength hcd with
      | Some (buf, hcd1) => (0, buf, hcd1)
      | None => (- EPIPE, [], hcd)   (* "protocol stall" on error *)
      end in
    (retval, buf,
     if has_changes (hcd_to_vhci hcd1)
     then emit usb_hcd_poll_rh_status hcd1
     else hcd1).

(** ** Port events reported by the worker *)

Definition change_mask_ok (change : Z) : bool :=
  (change =? USB_PORT_STAT_C_CONNECTION) ||
  (change =? USB_PORT_STAT_C_ENABLE) ||
  (change =? USB_PORT_STAT_C_SUSPEND) ||
  (change =? USB_PORT_STAT_C_OVERCURRENT) ||
  (change =? USB_PORT_STAT_C_RESET) ||
  (change =? Z.lor USB_PORT_STAT_C_RESET USB_PORT_STAT_C_ENABLE).

(** The [switch(change)] on the port addressed; [None] is an early
    [return -EPROTO]. *)
Definition port_stat_switch (status change : Z) (p : vhci_port)
    : option vhci_port :=
  let ps := port_status p in
  let pc := port_change p in
  let pf := port_flags p in
  let clr_resuming := u8 (Z.land pf (Z.lnot USB_VHCI_PORT_STAT_FLAG_RESUMING)) in
  if change =? USB_PORT_STAT_C_CONNECTION then
    let overcurrent := Z.land ps USB_PORT_STAT_OVERCURRENT in
    let ps' :=
      if nz (Z.land status USB_PORT_STAT_CONNECTION)
      then Z.lor (Z.lor (Z.lor USB_PORT_STAT_POWER USB_PORT_STAT_CONNECTION)
                        (if nz (Z.land status USB_PORT_STAT_LOW_SPEED)
                         then USB_PORT_STAT_LOW_SPEED
                         else if nz (Z.land status USB_PORT_STAT_HIGH_SPEED)
                              then USB_PORT_STAT_HIGH_SPEED else 0))
                 overcurrent
      else Z.lor USB_PORT_STAT_POWER overcurrent in
    Some (mk_port (u16 ps') (u16 (Z.lor pc USB_PORT_STAT_C_CONNECTION))
                  clr_resuming)
  else if change =? USB_PORT_STAT_C_ENABLE then
    if negb (nz (Z.land ps USB_PORT_STAT_CONNECTION)) ||
       nz (Z.land ps USB_PORT_STAT_RESET) ||
       nz (Z.land status USB_PORT_STAT_ENABLE)
    then None
    else
      let ps1 := u16 (Z.land ps (Z.lnot USB_PORT_STAT_ENABLE)) in
      Some (mk_port (u16 (Z.land ps1 (Z.lnot USB_PORT_STAT_SUSPEND)))
                    (u16 (Z.lor pc USB_PORT_STAT_C_ENABLE))
                    clr_resuming)
  else if change =? USB_PORT_STAT_C_SUSPEND then
    if negb (nz (Z.land ps USB_PORT_STAT_CONNECTION)) ||
       negb (nz (Z.land ps USB_PORT_STAT_ENABLE)) ||
       nz (Z.land ps USB_PORT_STAT_RESET) ||
       nz (Z.land status USB_PORT_STAT_SUSPEND)
    then None
    else
      Some (mk_port (u16 (Z.land ps (Z.lnot USB_PORT_STAT_SUSPEND)))
                    (u16 (Z.lor pc USB_PORT_STAT_C_SUSPEND))
                    clr_resuming)
  else if change =? USB_PORT_STAT_C_OVERCURRENT then
    let ps1 := u16 (Z.land ps (Z.lnot USB_PORT_STAT_OVERCURRENT)) in
    Some (mk_port (u16 (Z.lor ps1 (Z.land status USB_PORT_STAT_OVERCURRENT)))
                  (u16 (Z.lor pc USB_PORT_STAT_C_OVERCURRENT))
                  pf)
  else (* USB_PORT_STAT_C_RESET [| USB_PORT_STAT_C_ENABLE] *)
    if negb (nz (Z.land ps USB_PORT_STAT_CONNECTION)) ||
       negb (nz (Z.land ps USB_PORT_STAT_RESET)) ||
       nz (Z.land status USB_PORT_STAT_RESET)
    then None
    else if nz (Z.land change USB_PORT_STAT_C_ENABLE) then
      if nz (Z.land status USB_PORT_STAT_ENABLE) then None
      else
        let pc1 := u16 (Z.lor pc USB_PORT_STAT_C_ENABLE) in
        Some (mk_port (u16 (Z.land ps (Z.lnot USB_PORT_STAT_RESET)))
                      (u16 (Z.lor pc1 USB_PORT_STAT_C_RESET))
                      pf)
    else
      let ps1 := u16 (Z.lor ps (Z.land status USB_PORT_STAT_ENABLE)) in
      Some (mk_port (u16 (Z.land ps1 (Z.lnot USB_PORT_STAT_RESET)))
                    (u16 (Z.lor pc USB_PORT_STAT_C_RESET))
                    pf).

(** [index], [status] and [change] are the three fields read from the
    user's [struct usb_vhci_ioc_port_stat]. *)
Definition ioc_port_stat (hcd : usb_hcd) (index status change : Z)
    : Z * usb_hcd :=
  let vhc := hcd_to_vhci hcd in
  if negb (nz index) || (port_count vhc <? index) then (- EINVAL, hcd)
  else if negb (change_mask_ok change) then (- EINVAL, hcd)
  else if negb (nz (Z.land (port_status (port_at vhc (index - 1)))
                           USB_PORT_STAT_POWER))
  then (- EPROTO, hcd)
  else
    match port_stat_switch status change (port_at vhc (index - 1)) with
    | None => (- EPROTO, hcd)
    | Some p' =>
        (0, emit usb_hcd_poll_rh_status
              (userspace_needs_port_update index
                 (with_vhci (update_port (index - 1) (fun _ => p')) hcd)))
    end.

(** ** Work dispatcher *)

(** The transfer classes and flags told to the worker.  Their numeric
    encodings ([USB_VHCI_URB_TYPE_*], [USB_VHCI_URB_FLAGS_*]) belong to
    usb-vhci.h, so the values are kept symbolic. *)
Inductive usb_vhci_urb_type :=
| USB_VHCI_URB_TYPE_ISO
| USB_VHCI_URB_TYPE_INT
| USB_VHCI_URB_TYPE_CONTROL
| USB_VHCI_URB_TYPE_BULK.

Record usb_vhci_urb_flags := mk_urb_flags {
  USB_VHCI_URB_FLAGS_SHORT_NOT_OK : bool;
  USB_VHCI_URB_FLAGS_ISO_ASAP : bool;
  USB_VHCI_URB_FLAGS_ZERO_PACKET : bool
}.

Definition conv_urb_type (type : Z) : usb_vhci_urb_type :=
  let t := Z.land type 3 in
  if t =? PIPE_ISOCHRONOUS then USB_VHCI_URB_TYPE_ISO
  else if t =? PIPE_INTERRUPT then USB_VHCI_URB_TYPE_INT
  else if t =? PIPE_BULK then USB_VHCI_URB_TYPE_BULK
  else USB_VHCI_URB_TYPE_CONTROL.

Definition conv_urb_flags (flags : Z) : usb_vhci_urb_flags :=
  mk_urb_flags (nz (Z.land flags URB_SHORT_NOT_OK))
               (nz (Z.land flags URB_ISO_ASAP))
               (nz (Z.land flags URB_ZERO_PACKET)).

(** [arg->work.urb] *)
Record usb_vhci_ioc_work_urb := mk_work_urb {
  work_address : Z;
  work_endpoint : Z;
  work_type : usb_vhci_urb_type;
  work_flags : usb_vhci_urb_flags;
  work_buffer_length : Z;
  work_setup_packet : option usb_ctrlrequest;
  work_interval : Z;
  work_packet_count : Z
}.

(** What a successful fetch leaves in the user's [struct usb_vhci_ioc_work]. *)
Inductive usb_vhci_ioc_work :=
| USB_VHCI_WORK_TYPE_CANCEL_URB (handle : Z)
| USB_VHCI_WORK_TYPE_PORT_STAT (index status change flags : Z)
| USB_VHCI_WORK_TYPE_PROCESS_URB (handle : Z) (w : usb_vhci_ioc_work_urb).

Definition has_work (v : vhci) : bool :=
  nz (port_update v) ||
  negb (match urbp_list_cancel v with [] => true | _ => false end) ||
  negb (match urbp_list_inbox v with [] => true | _ => false end).

(** The body of the [repeat:] block for one urb: the checks that lead to
    [invalid_urb] ([None]) and the fields stored for the worker otherwise. *)
Definition process_urb_work (u : urb) : option usb_vhci_ioc_work_urb :=
  let address := usb_pipedevice (pipe u) in
  let endpoint :=
    Z.lor (usb_pipeendpoint (pipe u))
          (if nz (usb_pipein (pipe u)) then 0x80 else 0x00) in
  let type := conv_urb_type (usb_pipetype (pipe u)) in
  let flags := conv_urb_flags (transfer_flags u) in
  if usb_pipecontrol (pipe u) then
    match setup_packet u with
    | None => None
    | Some cmd =>
        if transfer_buffer_length u <? wLength cmd then None
        else if nz (Z.land (bRequestType cmd) 0x80) then
          if negb (nz (wLength cmd)) || is_null (transfer_buffer u) then None
          else Some (mk_work_urb address endpoint type flags (wLength cmd)
                       (Some cmd) (interval u) (number_of_packets u))
        else
          if nz (wLength cmd) && is_null (transfer_buffer u) then None
          else Some (mk_work_urb address endpoint type flags (wLength cmd)
                       (Some cmd) (interval u) (number_of_packets u))
    end
  else
    if nz (usb_pipein (pipe u)) then
      if negb (nz (transfer_buffer_length u)) || is_null (transfer_buffer u)
      then None
      else Some (mk_work_urb address endpoint type flags
                   (transfer_buffer_length u) None
                   (interval u) (number_of_packets u))
    else
      if nz (transfer_buffer_length u) && is_null (transfer_buffer u)
      then None
      else Some (mk_work_urb address endpoint type flags
                   (transfer_buffer_length u) None
                   (interval u) (number_of_packets u)).

(** The [repeat:] loop.  [pending] is the inbox as it stands when the loop
    is (re-)entered; each rejected head is given back, which unlinks it, and
    the loop goes on with the rest. *)
Fixpoint fetch_work_repeat (pending : list vhci_urb_priv) (hcd : usb_hcd)
    : Z * option usb_vhci_ioc_work * usb_hcd :=
  match pending with
  | [] => (- ENODATA, None, hcd)
  | urbp :: pending' =>
      match process_urb_work (urbp_urb urbp) with
      | Some w =>
          (0, Some (USB_VHCI_WORK_TYPE_PROCESS_URB (handle_of urbp) w),
           with_vhci (list_move_tail Inbox Fetched urbp) hcd)
      | None =>
          (* invalid_urb: reject invalid urbs immediately *)
          fetch_work_repeat pending'
            (vhci_urb_giveback Inbox (maybe_set_status urbp (- EPIPE)) hcd)
      end
  end.

(** The [for(_port = 0; _port < port_count; _port++)] loop, with [n]
    iterations left: the first port, in the order rotated by
    [port_sched_offset], whose update bit is set.  All operands are
    unsigned. *)
Fixpoint port_scan (v : vhci) (n : nat) (_port : Z) : option Z :=
  match n with
  | O => None
  | S n' =>
      let port := (_port + port_sched_offset v) mod port_count v in
      if nz (Z.land (port_update v) (Z.shiftl 1 (port + 1)))
      then Some port
      else port_scan v n' (_port + 1)
  end.

(** The part of [ioc_fetch_work] that runs under the lock. *)
Definition fetch_work_locked (hcd : usb_hcd)
    : Z * option usb_vhci_ioc_work * usb_hcd :=
  match urbp_list_cancel (hcd_to_vhci hcd) with
  | urbp :: _ =>
      (0, Some (USB_VHCI_WORK_TYPE_CANCEL_URB (handle_of urbp)),
       with_vhci (list_move_tail Cancel Canceling urbp) hcd)
  | [] =>
      if nz (port_update (hcd_to_vhci hcd)) then
        let hcd1 :=
          if port_count (hcd_to_vhci hcd) <=? port_sched_offset (hcd_to_vhci hcd)
          then with_vhci (set_port_sched_offset 0) hcd
          else hcd in
        let v := hcd_to_vhci hcd1 in
        match port_scan v (Z.to_nat (port_count v)) 0 with
        | Some port =>
            let p := port_at v port in
            (0,
             Some (USB_VHCI_WORK_TYPE_PORT_STAT (port + 1) (port_status p)
                     (port_change p) (port_flags p)),
             with_vhci
               (fun v =>
                  set_port_sched_offset (u8 (port + 1))
                    (set_port_update
                       (u32 (Z.land (port_update v)
                                    (Z.lnot (Z.shiftl 1 (port + 1))))) v))
               hcd1)
        | None => fetch_work_repeat (urbp_list_inbox v) hcd1
        end
      else fetch_work_repeat (urbp_list_inbox (hcd_to_vhci hcd)) hcd
  end.

(** [timeout] is the caller's [s16]; [wret] is what the kernel's wait
    primitive ([wait_event_interruptible_timeout] for a positive timeout,
    [wait_event_interruptible] for a negative one) returned, and is looked
    at only when [timeout] is non-zero.  Clamping the timeout to 1000 only
    changes how long the wait may last. *)
Definition ioc_fetch_work (hcd : usb_hcd) (timeout wret : Z)
    : Z * option usb_vhci_ioc_work * usb_hcd :=
  if nz timeout then
    if wret <? 0 then
      (if wret =? - ERESTARTSYS then - EINTR else wret, None, hcd)
    else if wret =? 0 then (- ETIMEDOUT, None, hcd)
    else fetch_work_locked hcd
  else
    if negb (has_work (hcd_to_vhci hcd)) then (- ETIMEDOUT, None, hcd)
    else fetch_work_locked hcd.

(** ** Completion delivered by the worker *)

Definition urbp_from_handle (v : vhci) (handle : Z) : option vhci_urb_priv :=
  find_urbp handle (urbp_list_fetched v).

Definition urbp_from_handle_in_cancel (v : vhci) (handle : Z)
    : option vhci_urb_priv :=
  find_urbp handle (urbp_list_cancel v).

Definition urbp_from_handle_in_canceling (v : vhci) (handle : Z)
    : option vhci_urb_priv :=
  find_urbp handle (urbp_list_canceling v).

(** [None] is the dereference of a NULL [setup_packet]. *)
Definition is_urb_dir_in (u : urb) : option Z :=
  if usb_pipecontrol (pipe u) then
    match setup_packet u with
    | Some cmd => Some (Z.land (bRequestType cmd) 0x80)
    | None => None
    end
  else Some (usb_pipein (pipe u)).

(** A pointer into user space is [None] when NULL and otherwise carries what
    can be read through it.  [copy_from_user] of [n] bytes faults ([None])
    when fewer than [n] bytes are readable. *)
Definition copy_from_user (buf : option (list Z)) (n : Z) : option (list Z) :=
  let readable := match buf with Some d => d | None => [] end in
  if (0 <=? n) && (n <=? Z.of_nat (length readable))
  then Some (take (Z.to_nat n) readable)
  else None.

(** Storing [src] at the start of the kernel buffer [dst]; [None] is a store
    through a NULL [transfer_buffer]. *)
Definition write_buffer (dst : option (list Z)) (src : list Z)
    : option (option (list Z)) :=
  match dst, src with
  | Some old, _ => Some (Some (src ++ drop (length src) old))
  | None, [] => Some None
  | None, _ :: _ => None
  end.

(** The closing loop over the isochronous packets: entry [i] of the user's
    array is a pair (status, packet_actual); [__get_user] yields zero where
    the user's memory cannot be read. *)
Definition store_iso_results (iso_count : Z) (iso : list (Z * Z))
    (descs : list usb_iso_packet_descriptor) : list usb_iso_packet_descriptor :=
  imap (fun i d =>
          if (Z.of_nat i <? iso_count)
          then mk_iso_desc (iso_offset d) (iso_length d)
                           (snd (nth i iso (0, 0))) (fst (nth i iso (0, 0)))
          else d)
       descs.

Definition set_urb_results (u : urb) (buffer : option (list Z))
    (descs : list usb_iso_packet_descriptor) (act err_count : Z) : urb :=
  mk_urb (urb_handle u) (pipe u) (transfer_flags u) buffer
         (transfer_buffer_length u) act (setup_packet u)
         (number_of_packets u) (interval u) err_count descs.

(** The three-step lookup at the head of [ioc_giveback_common]: the queue the
    entry was found in, the entry, and the initial [retval]. *)
Definition giveback_lookup (v : vhci) (handle : Z)
    : option (urbp_list * vhci_urb_priv * Z) :=
  match urbp_from_handle v handle with
  | Some urbp => Some (Fetched, urbp, 0)
  | None =>
      match urbp_from_handle_in_canceling v handle with
      | Some urbp => Some (Canceling, urbp, - ECANCELED)
      | None =>
          match urbp_from_handle_in_cancel v handle with
          | Some urbp => Some (Cancel, urbp, - ECANCELED)
          | None => None
          end
      end
  end.

(** Outcome of the checks between the lookup and the hand-back. *)
Inductive giveback_check :=
| done_with_errors (retval : Z)
| done_ok (u : urb)
| null_dereference.

(** [iso_access_ok] is the answer of [access_ok] for the user's packet
    array.  [act] is an [int]; [transfer_buffer_length] is the [u32] field
    that [struct urb] has had since Linux 2.6.30, so the test
    [act > transfer_buffer_length] converts [act] to unsigned: a negative
    [act] counts as larger than every length and is refused.  Buffer
    lengths stay below 2^31, so the test for equality in the isochronous
    case comes out the same signed or unsigned. *)
Definition giveback_checks (u : urb) (act iso_count err_count : Z)
    (buf : option (list Z)) (iso : option (list (Z * Z)))
    (iso_access_ok : bool) : giveback_check :=
  match is_urb_dir_in u with
  | None => null_dereference
  | Some is_in =>
      let is_iso := usb_pipeisoc (pipe u) in
      let finish (buffer : option (list Z)) :=
        let descs :=
          if is_iso && nz iso_count
          then store_iso_results iso_count
                 (match iso with Some a => a | None => [] end)
                 (iso_frame_desc u)
          else iso_frame_desc u in
        done_ok (set_urb_results u buffer descs act err_count) in
      let data_stage :=
        if nz is_in then
          if nz act && is_null buf then done_with_errors (- EINVAL)
          else
            match copy_from_user buf act with
            | None => done_with_errors (- EFAULT)
            | Some bytes =>
                match write_buffer (transfer_buffer u) bytes with
                | None => null_dereference
                | Some buffer => finish buffer
                end
            end
        else if negb (is_null buf) then done_with_errors (- EINVAL)
        else finish (transfer_buffer u) in
      if is_iso then
        if nz is_in && negb (act =? transfer_buffer_length u)
        then done_with_errors (- ENOBUFS)
        else if negb (iso_count =? number_of_packets u)
        then done_with_errors (- EINVAL)
        else if nz iso_count && is_null iso
        then done_with_errors (- EINVAL)
        else if nz iso_count && negb iso_access_ok
        then done_with_errors (- EFAULT)
        else data_stage
      else if (act <? 0) || (transfer_buffer_length u <? act)
      then done_with_errors (if nz is_in then - ENOBUFS else - EINVAL)
      else data_stage
  end.

(** [None] is a kernel oops (NULL dereference); otherwise the return value
    and the new state. *)
Definition ioc_giveback_common (hcd : usb_hcd) (handle status act iso_count
    err_count : Z) (buf : option (list Z)) (iso : option (list (Z * Z)))
    (iso_access_ok : bool) : option (Z * usb_hcd) :=
  match giveback_lookup (hcd_to_vhci hcd) handle with
  | None => Some (- ENOENT, hcd)
  | Some (q, urbp, retval) =>
      match giveback_checks (urbp_urb urbp) act iso_count err_count buf iso
                            iso_access_ok with
      | null_dereference => None
      | done_with_errors retval' =>
          Some (retval', vhci_urb_giveback q urbp hcd)
      | done_ok u' =>
          (* now we are done with this urb and it can return to its creator *)
          let urbp' := maybe_set_status (mk_urbp u' (urbp_status urbp)) status in
          Some (retval, vhci_urb_giveback q urbp' hcd)
      end
  end.

(** ** The request domain of hub control, as the specification words it *)

Definition request_type_known (t : Z) : bool :=
  (t =? ClearHubFeature) || (t =? SetHubFeature) || (t =? ClearPortFeature) ||
  (t =? SetPortFeature) || (t =? GetHubDescriptor) || (t =? GetHubStatus) ||
  (t =? GetPortStatus).

Definition is_port_request (t : Z) : bool :=
  (t =? ClearPortFeature) || (t =? SetPortFeature) || (t =? GetPortStatus).

Definition port_feature_known (v : Z) : bool :=
  (v =? USB_PORT_FEAT_CONNECTION) || (v =? USB_PORT_FEAT_SUSPEND) ||
  (v =? USB_PORT_FEAT_OVER_CURRENT) || (v =? USB_PORT_FEAT_RESET) ||
  (v =? USB_PORT_FEAT_POWER) || (v =? USB_PORT_FEAT_LOWSPEED) ||
  (v =? USB_PORT_FEAT_HIGHSPEED) || (v =? USB_PORT_FEAT_INDICATOR) ||
  is_change_feature v.

Definition feature_allowed (t v : Z) : bool :=
  if (t =? ClearHubFeature) || (t =? SetHubFeature)
  then (v =? C_HUB_LOCAL_POWER) || (v =? C_HUB_OVER_CURRENT)
  else if t =? ClearPortFeature
  then port_feature_known v || (v =? USB_PORT_FEAT_ENABLE)
  else if t =? SetPortFeature
  then port_feature_known v
  else true.

Definition wLength_allowed (t l : Z) : bool :=
  if (t =? ClearHubFeature) || (t =? SetHubFeature) ||
     (t =? ClearPortFeature) || (t =? SetPortFeature)
  then l =? 0
  else if (t =? GetHubStatus) || (t =? GetPortStatus)
  then l =? 4
  else true.

Definition outside_valid_domain (nports t v i l : Z) : bool :=
  negb (request_type_known t) ||
  (is_port_request t && ((i =? 0) || (nports <? i))) ||
  negb (feature_allowed t v) ||
  negb (wLength_allowed t l).




(** ** States used in the examples *)

(** A controller with [n] identical ports and nothing queued. *)
Definition fresh_hcd (n : nat) (p : vhci_port) : usb_hcd :=
  mk_hcd true
    (mk_vhci VHCI_RH_RUNNING (replicate n p) (Z.of_nat n) 0 0 0 [] [] [] [])
    [].


(** The status bits a port reset keeps. *)
Definition reset_kept_bits : Z :=
  Z.lor (Z.lor (Z.lor (Z.lor USB_PORT_STAT_POWER USB_PORT_STAT_CONNECTION)
                      USB_PORT_STAT_LOW_SPEED)
               USB_PORT_STAT_HIGH_SPEED)
        USB_PORT_STAT_OVERCURRENT.

(** Four ports, each powered with a device attached. *)
Definition hcd_connected : usb_hcd :=
  fresh_hcd 4 (mk_port (Z.lor USB_PORT_STAT_POWER USB_PORT_STAT_CONNECTION) 0 0).

(** The requests that clear bit [n] of a port's change register: the
    acknowledgment of that change, a power-off of a powered port (all but
    over-current), a disable of an enabled port (enable and suspend). *)
Definition clears_change_bit (wValue : Z) (p : vhci_port) (n : Z) : Prop :=
  (is_change_feature wValue = true /\ n = wValue - 16) \/
  (wValue = USB_PORT_FEAT_POWER /\ Z.testbit (port_status p) 8 = true /\
   n <> 3) \/
  (wValue = USB_PORT_FEAT_ENABLE /\ Z.testbit (port_status p) 1 = true /\
   (n = 1 \/ n = 2)).

(** One powered, enabled port with a connection change latched. *)
Definition hcd_enabled : usb_hcd :=
  fresh_hcd 1
    (mk_port (Z.lor (Z.lor USB_PORT_STAT_POWER USB_PORT_STAT_CONNECTION)
                    USB_PORT_STAT_ENABLE)
             USB_PORT_STAT_C_CONNECTION 0).

(** No entry of a queue belongs to the urb [handle]. *)
Definition absent (handle : Z) (l : list vhci_urb_priv) : Prop :=
  Forall (fun entry => handle_of entry <> handle) l.

(** A bulk OUT urb without data, at address [h]. *)
Definition bulk_out_urb (h : Z) : urb :=
  mk_urb h (Z.shiftl PIPE_BULK 30) 0 None 0 0 None 0 0 0 [].

(** A control urb at address [h] that lacks its setup packet. *)
Definition control_urb_no_setup (h : Z) : urb :=
  mk_urb h (Z.shiftl PIPE_CONTROL 30) 0 None 0 0 None 0 0 0 [].

(** One port, nothing queued. *)
Definition hcd_idle : usb_hcd := fresh_hcd 1 (mk_port 0 0 0).

(** The urb at address 7 has been submitted. *)
Definition hcd_submitted : usb_hcd :=
  snd (vhci_urb_enqueue hcd_idle (bulk_out_urb 7) true 0).



(** The urb at address 7 was submitted, fetched by the worker, cancelled by
    the core, and the worker has been told about the cancellation. *)
Definition hcd_canceling : usb_hcd :=
  let fetched := snd (ioc_fetch_work hcd_submitted 0 0) in
  let cancelled := snd (vhci_urb_dequeue fetched 7 0 0) in
  snd (ioc_fetch_work cancelled 0 0).

(** ** Malformed transfers, as the specification words them *)

(** For a control transfer: missing setup packet, wLength exceeding the
    buffer length, IN direction with zero wLength or null buffer, OUT
    direction with non-zero wLength and null buffer; for the other classes:
    IN with zero length or null buffer, OUT with non-zero length and null
    buffer. *)
Definition malformed (u : urb) : bool :=
  if usb_pipecontrol (pipe u) then
    match setup_packet u with
    | None => true
    | Some cmd =>
        (transfer_buffer_length u <? wLength cmd) ||
        (if nz (Z.land (bRequestType cmd) 0x80)
         then (wLength cmd =? 0) || is_null (transfer_buffer u)
         else nz (wLength cmd) && is_null (transfer_buffer u))
    end
  else
    if nz (usb_pipein (pipe u))
    then (transfer_buffer_length u =? 0) || is_null (transfer_buffer u)
    else nz (transfer_buffer_length u) && is_null (transfer_buffer u).

(** The entry fails the checks of the work-fetch loop. *)
Definition rejected (e : vhci_urb_priv) : Prop :=
  process_urb_work (urbp_urb e) = None.

(** The give-backs of a run of rejected urbs, oldest first: each goes back
    with its status field after the compare-and-set of -EPIPE. *)
Definition rejected_events (bad : list vhci_urb_priv) : list event :=
  map (fun e => usb_hcd_giveback_urb (urbp_urb e)
                  (urbp_status (maybe_set_status e (- EPIPE))))
      bad.

(** The index reported by a port-status unit. *)
Definition port_stat_index (w : option usb_vhci_ioc_work) : option Z :=
  match w with
  | Some (USB_VHCI_WORK_TYPE_PORT_STAT index _ _ _) => Some index
  | _ => None
  end.

(** Consecutive work-fetch calls; each element of [waits] is the pair
    (timeout, wait result) of one call.  Yields what each call returned. *)
Fixpoint fetch_many (waits : list (Z * Z)) (hcd : usb_hcd)
    : list (Z * option usb_vhci_ioc_work) * usb_hcd :=
  match waits with
  | [] => ([], hcd)
  | (timeout, wret) :: waits' =>
      let '(ret, w, hcd1) := ioc_fetch_work hcd timeout wret in
      let '(rs, hcd2) := fetch_many waits' hcd1 in
      ((ret, w) :: rs, hcd2)
  end.

(** A malformed control urb (address 8) was submitted before the urb at
    address 7. *)
Definition hcd_two_pending : usb_hcd :=
  snd (vhci_urb_enqueue
         (snd (vhci_urb_enqueue hcd_idle (control_urb_no_setup 8) true 0))
         (bulk_out_urb 7) true 0).

(** One cancel, one port update and one pending transfer at once: the urb
    at address 7 was fetched and then cancelled, the urb at address 9 was
    submitted, and port 1 was powered on. *)
Definition hcd_mixed : usb_hcd :=
  let fetched := snd (ioc_fetch_work hcd_submitted 0 0) in
  let cancelled := snd (vhci_urb_dequeue fetched 7 0 0) in
  let submitted := snd (vhci_urb_enqueue cancelled (bulk_out_urb 9) true 0) in
  snd (vhci_hub_control submitted SetPortFeature USB_PORT_FEAT_POWER 1 0).

(** A control IN urb at address [h] asking for 64 bytes without a buffer
    (GET_DESCRIPTOR of the device descriptor). *)
Definition control_in_urb_no_buffer (h : Z) : urb :=
  mk_urb h (Z.lor (Z.shiftl PIPE_CONTROL 30) USB_DIR_IN) 0 None 0 0
         (Some (mk_ctrlrequest 0x80 6 0x0100 0 64)) 0 0 0 [].

(** ** Round-robin over the ports *)

(** The 0-based port at which the scan of a work-fetch call starts: the
    recorded offset, wrapped to 0 once it has run past the last port. *)
Definition sched_start (v : vhci) : Z :=
  if port_count v <=? port_sched_offset v then 0 else port_sched_offset v.

(** A call gets past its wait: it is non-blocking, or the wait primitive
    reported that work arrived. *)
Definition wait_passes (tw : Z * Z) : Prop := fst tw = 0 \/ 0 < snd tw.

(** Four ports, all with a pending update, the scan offset left behind
    port 2 by an earlier fetch: port 2 was powered on, reported and powered
    off again, the other ports were powered on. *)
Definition hcd_all_pending : usb_hcd :=
  let power i h := snd (vhci_hub_control h SetPortFeature USB_PORT_FEAT_POWER i 0) in
  let off i h := snd (vhci_hub_control h ClearPortFeature USB_PORT_FEAT_POWER i 0) in
  let h := power 2 (fresh_hcd 4 (mk_port 0 0 0)) in
  let h := snd (ioc_fetch_work h 0 0) in
  power 4 (power 3 (off 2 (power 1 h))).

(** ** Root-hub status poll, bus power management, start and stop *)

Definition EBUSY := 16.
Definition ENODEV := 19.

Definition set_rh_state (s : vhci_rh_state) (v : vhci) : vhci :=
  mk_vhci s (ports v) (port_count v) (port_sched_offset v) (port_update v)
    (frame_num v) (urbp_list_inbox v) (urbp_list_fetched v)
    (urbp_list_cancel v) (urbp_list_canceling v).

(** The [for] loop of [vhci_hub_status], with [n] iterations left: [buf] is
    the bitmap handed back to the USB core, one byte per list element. *)
Fixpoint hub_status_loop (v : vhci) (n : nat) (port : Z) (buf : list Z)
    (retval : Z) : list Z * Z :=
  match n with
  | O => (buf, retval)
  | S n' =>
      if nz (port_change (port_at v port)) then
        let abs_bit := port + 1 in
        let idx := abs_bit / 8 in
        let rel_bit := abs_bit mod 8 in
        hub_status_loop v n' (port + 1)
          (alter (fun b => u8 (Z.lor b (Z.shiftl 1 rel_bit))) (Z.to_nat idx) buf)
          1
      else hub_status_loop v n' (port + 1) buf retval
  end.

(** Returns [retval], the bitmap written to [buf] (its first
    [1 + port_count / 8] bytes) and whether [usb_hcd_resume_root_hub] was
    called.  The controller state is only read. *)
Definition vhci_hub_status (hcd : usb_hcd) : Z * list Z * bool :=
  let v := hcd_to_vhci hcd in
  let buf := replicate (Z.to_nat (1 + port_count v / 8)) 0 in
  if negb (hw_accessible hcd) then (0, buf, false)
  else
    let '(buf', retval) :=
      hub_status_loop v (Z.to_nat (port_count v)) 0 buf 0 in
    (retval, buf',
     match rh_state v with VHCI_RH_SUSPENDED => true | _ => false end).

(** Bit [k] of a bitmap of bytes. *)
Definition bitmap_bit (buf : list Z) (k : Z) : bool :=
  Z.testbit (nth (Z.to_nat (k / 8)) buf 0) (k mod 8).

(** The suspend of one port in the loop of [vhci_bus_suspend]. *)
Definition suspend_port (p : vhci_port) : vhci_port :=
  mk_port (u16 (Z.lor (port_status p) USB_PORT_STAT_SUSPEND))
          (port_change p)
          (u8 (Z.land (port_flags p) (Z.lnot USB_VHCI_PORT_STAT_FLAG_RESUMING))).

Fixpoint bus_suspend_loop (n : nat) (port : Z) (hcd : usb_hcd) : usb_hcd :=
  match n with
  | O => hcd
  | S n' =>
      let ps := port_status (port_at (hcd_to_vhci hcd) port) in
      bus_suspend_loop n' (port + 1)
        (if nz (Z.land ps USB_PORT_STAT_ENABLE) &&
            negb (nz (Z.land ps USB_PORT_STAT_SUSPEND))
         then userspace_needs_port_update (port + 1)
                (with_vhci (update_port port suspend_port) hcd)
         else hcd)
  end.

(** [hcd->state], which the driver only writes, is not tracked. *)
Definition vhci_bus_suspend (hcd : usb_hcd) : Z * usb_hcd :=
  (0, with_vhci (set_rh_state VHCI_RH_SUSPENDED)
        (bus_suspend_loop (Z.to_nat (port_count (hcd_to_vhci hcd))) 0 hcd)).

Definition vhci_bus_resume (hcd : usb_hcd) : Z * usb_hcd :=
  if negb (hw_accessible hcd) then (- ENODEV, hcd)
  else (0, with_vhci (set_rh_state VHCI_RH_RUNNING) hcd).

(** Suspend and resume of the platform device. *)
Definition vhci_hcd_suspend (hcd : usb_hcd) : Z * usb_hcd :=
  match rh_state (hcd_to_vhci hcd) with
  | VHCI_RH_RUNNING => (- EBUSY, hcd)
  | _ => (0, mk_hcd false (hcd_priv hcd) (trace hcd))
  end.

Definition vhci_hcd_resume (hcd : usb_hcd) : Z * usb_hcd :=
  (0, emit usb_hcd_poll_rh_status (mk_hcd true (hcd_priv hcd) (trace hcd))).

(** [conf_port_count] is the port count of the registration; [kzalloc_ok]
    says whether the port array could be allocated; [r1] to [r4] are the
    return values of the four [device_create_file] calls, of which only
    those up to the first failure are made. *)
Definition vhci_start (hcd : usb_hcd) (conf_port_count : Z) (kzalloc_ok : bool)
    (r1 r2 r3 r4 : Z) : Z * usb_hcd :=
  if negb kzalloc_ok then (- ENOMEM, hcd)
  else
    let retval :=
      if nz r1 then r1 else if nz r2 then r2 else if nz r3 then r3 else r4 in
    if nz retval then
      (* kfree_port_arr *)
      (retval,
       mk_hcd (hw_accessible hcd)
              (mk_vhci VHCI_RH_RUNNING [] 0 0 0 0 [] [] [] []) (trace hcd))
    else
      (0,
       mk_hcd (hw_accessible hcd)
              (mk_vhci VHCI_RH_RUNNING
                 (replicate (Z.to_nat conf_port_count) (mk_port 0 0 0))
                 conf_port_count 0 0 0 [] [] [] [])
              (trace hcd)).

(** The port array is released and the port count zeroed; the queues are
    left alone.  (The source skips the release when [vhc->ports] is NULL;
    [vhci_start] leaves a NULL array only together with a port count of 0,
    so the outcome is the same.) *)
Definition vhci_stop (hcd : usb_hcd) : usb_hcd :=
  with_vhci
    (fun v =>
       mk_vhci VHCI_RH_RESET [] 0 (port_sched_offset v) (port_update v)
         (frame_num v) (urbp_list_inbox v) (urbp_list_fetched v)
         (urbp_list_cancel v) (urbp_list_canceling v))
    hcd.


(** ** Shutdown *)

(** One [while(!list_empty(...))] loop of [vhci_hcd_remove]; [l] is the
    queue as it stands. *)
Fixpoint drain_list (q : urbp_list) (l : list vhci_urb_priv) (hcd : usb_hcd)
    : usb_hcd :=
  match l with
  | [] => hcd
  | urbp :: l' =>
      drain_list q l'
        (vhci_urb_giveback q (maybe_set_status urbp (- ESHUTDOWN)) hcd)
  end.

(** The four loops drain the queues under the lock; the controller is then
    handed to [usb_remove_hcd] and the driver's reference dropped with
    [usb_put_hcd].  Both calls are recorded in the trace.  Of what the USB
    core does in [usb_remove_hcd], the model keeps the one step that comes
    back into this file: the core stops the controller through the [stop]
    method of the [hc_driver] table, which is [vhci_stop].  (The core
    disconnects the root hub before that; with the queues drained there is
    no urb left for it to unlink.) *)
Definition vhci_hcd_remove (hcd : usb_hcd) : usb_hcd :=
  let drain q h := drain_list q (get_list q (hcd_to_vhci h)) h in
  let hcd := drain Canceling (drain Cancel (drain Fetched (drain Inbox hcd))) in
  let hcd := vhci_stop (emit usb_remove_hcd hcd) in
  emit usb_put_hcd hcd.

(** ** Payload handed to the worker *)

(** Outcome of [ioc_fetch_data_common]: the return value, the packet
    descriptors (offset, length) stored into the user's array, the bytes
    copied into the user's buffer if the copy was made, and the new state. *)
Record fetch_data_result := mk_fetch_data {
  fd_retval : Z;
  fd_iso : list (Z * Z);
  fd_data : option (list Z);
  fd_hcd : usb_hcd
}.

(** [user_buf_null] and [iso_null] say whether the user's pointers are NULL;
    [iso_access_ok] is the answer of [access_ok] for the packet array and
    [copy_ok] says whether [copy_to_user] went through.  [None] is the
    dereference of a NULL [setup_packet] or [transfer_buffer]. *)
Definition ioc_fetch_data_common (hcd : usb_hcd) (handle : Z)
    (user_buf_null : bool) (user_len : Z) (iso_null : bool) (iso_count : Z)
    (iso_access_ok copy_ok : bool) : option fetch_data_result :=
  let v := hcd_to_vhci hcd in
  match urbp_from_handle v handle with
  | None =>
      match urbp_from_handle_in_cancel v handle with
      | Some urbp =>
          Some (mk_fetch_data (- ECANCELED) [] None
                  (vhci_urb_giveback Cancel urbp hcd))
      | None =>
          match urbp_from_handle_in_canceling v handle with
          | Some urbp =>
              Some (mk_fetch_data (- ECANCELED) [] None
                      (vhci_urb_giveback Canceling urbp hcd))
          | None => Some (mk_fetch_data (- ENOENT) [] None hcd)
          end
      end
  | Some urbp =>
      let u := urbp_urb urbp in
      let tb_len_opt :=
        if usb_pipecontrol (pipe u)
        then option_map wLength (setup_packet u)
        else Some (transfer_buffer_length u) in
      match tb_len_opt, is_urb_dir_in u with
      | Some tb_len, Some is_in =>
          let is_iso := usb_pipeisoc (pipe u) in
          let descs :=
            map (fun d => (iso_offset d, iso_length d))
                (take (Z.to_nat iso_count) (iso_frame_desc u)) in
          let copy (iso_out : list (Z * Z)) :=
            if negb (nz is_in) && nz tb_len then
              if user_buf_null || (user_len <? tb_len)
              then Some (mk_fetch_data (- EINVAL) iso_out None hcd)
              else
                match transfer_buffer u with
                | None => None
                | Some bytes =>
                    if negb copy_ok
                    then Some (mk_fetch_data (- EFAULT) iso_out None hcd)
                    else Some (mk_fetch_data 0 iso_out
                                 (Some (take (Z.to_nat tb_len) bytes)) hcd)
                end
            else Some (mk_fetch_data 0 iso_out None hcd) in
          if is_iso then
            if negb (iso_count =? number_of_packets u)
            then Some (mk_fetch_data (- EINVAL) [] None hcd)
            else if nz iso_count then
              if iso_null then Some (mk_fetch_data (- EINVAL) [] None hcd)
              else if negb iso_access_ok
              then Some (mk_fetch_data (- EFAULT) [] None hcd)
              else copy descs
            else copy []
          else if nz is_in || negb (nz tb_len) || is_null (transfer_buffer u)
          then Some (mk_fetch_data (- ENODATA) [] None hcd)
          else copy []
      | _, _ => None
      end
  end.

(** ** The driver as a state machine *)

(** The calls that change a started controller: from the USB core
    (submission, cancellation, hub control, bus and device power
    management) and, through the ioctl interface, from the worker.  The
    status poll and the frame number only read the state. *)
Inductive call :=
| call_urb_enqueue (u : urb) (kzalloc_ok : bool) (link_retval : Z)
| call_urb_dequeue (u status check_retval : Z)
| call_hub_control (typeReq wValue wIndex wLength : Z)
| call_bus_suspend
| call_bus_resume
| call_hcd_suspend
| call_hcd_resume
| call_port_stat (index status change : Z)
| call_fetch_work (timeout wret : Z)
| call_giveback (handle status act iso_count err_count : Z)
    (buf : option (list Z)) (iso : option (list (Z * Z))) (iso_access_ok : bool)
| call_fetch_data (handle : Z) (user_buf_null : bool) (user_len : Z)
    (iso_null : bool) (iso_count : Z) (iso_access_ok copy_ok : bool).

(** The state after a call; [None] is a kernel oops in the code of the
    call itself (a fault in the debug dump of an urb it gives back is told
    by [dumps_safe] on the trace).  The arguments of hub control arrive in
    [u16] parameters, the fields of a port event are read into a [u8] and
    two [u16] variables. *)
Definition run (c : call) (hcd : usb_hcd) : option usb_hcd :=
  match c with
  | call_urb_enqueue u kzalloc_ok link_retval =>
      Some (snd (vhci_urb_enqueue hcd u kzalloc_ok link_retval))
  | call_urb_dequeue u status check_retval =>
      Some (snd (vhci_urb_dequeue hcd u status check_retval))
  | call_hub_control typeReq wValue wIndex wLength =>
      Some (snd (vhci_hub_control hcd (u16 typeReq) (u16 wValue) (u16 wIndex)
                   (u16 wLength)))
  | call_bus_suspend => Some (snd (vhci_bus_suspend hcd))
  | call_bus_resume => Some (snd (vhci_bus_resume hcd))
  | call_hcd_suspend => Some (snd (vhci_hcd_suspend hcd))
  | call_hcd_resume => Some (snd (vhci_hcd_resume hcd))
  | call_port_stat index status change =>
      Some (snd (ioc_port_stat hcd (u8 index) (u16 status) (u16 change)))
  | call_fetch_work timeout wret =>
      Some (snd (ioc_fetch_work hcd timeout wret))
  | call_giveback handle status act iso_count err_count buf iso iso_access_ok =>
      option_map snd
        (ioc_giveback_common hcd handle status act iso_count err_count buf iso
           iso_access_ok)
  | call_fetch_data handle user_buf_null user_len iso_null iso_count
                    iso_access_ok copy_ok =>
      option_map fd_hcd
        (ioc_fetch_data_common hcd handle user_buf_null user_len iso_null
           iso_count iso_access_ok copy_ok)
  end.

Fixpoint run_calls (cs : list call) (hcd : usb_hcd) : option usb_hcd :=
  match cs with
  | [] => Some hcd
  | c :: cs' =>
      match run c hcd with
      | Some hcd' => run_calls cs' hcd'
      | None => None
      end
  end.

(** The handles of the queued urbs and of the urbs given back so far. *)
Definition queued (v : vhci) : list Z :=
  map handle_of
      (urbp_list_inbox v ++ urbp_list_fetched v ++ urbp_list_cancel v ++
       urbp_list_canceling v).

Definition given_back_handle (e : event) : option Z :=
  match e with
  | usb_hcd_giveback_urb u _ => Some (urb_handle u)
  | _ => None
  end.

Definition given_back (tr : list event) : list Z :=
  omap given_back_handle tr.

Definition accounted (hcd : usb_hcd) : list Z :=
  queued (hcd_priv hcd) ++ given_back (trace hcd).

(** The handle a call adds to the driver: that of the urb of an accepted
    submission. *)
Definition submitted (c : call) (hcd : usb_hcd) : list Z :=
  match c with
  | call_urb_enqueue u kzalloc_ok link_retval =>
      if fst (vhci_urb_enqueue hcd u kzalloc_ok link_retval) =? 0
      then [urb_handle u] else []
  | _ => []
  end.

Fixpoint submitted_all (cs : list call) (hcd : usb_hcd) : list Z :=
  match cs with
  | [] => []
  | c :: cs' =>
      submitted c hcd ++
      match run c hcd with
      | Some hcd' => submitted_all cs' hcd'
      | None => []
      end
  end.

(** The handles queued outside queue [q]. *)
Definition queued_elsewhere (q : urbp_list) (v : vhci) : list Z :=
  match q with
  | Inbox =>
      map handle_of
          (urbp_list_fetched v ++ urbp_list_cancel v ++ urbp_list_canceling v)
  | Fetched =>
      map handle_of
          (urbp_list_inbox v ++ urbp_list_cancel v ++ urbp_list_canceling v)
  | Cancel =>
      map handle_of
          (urbp_list_inbox v ++ urbp_list_fetched v ++ urbp_list_canceling v)
  | Canceling =>
      map handle_of
          (urbp_list_inbox v ++ urbp_list_fetched v ++ urbp_list_cancel v)
  end.

(** A control IN urb at address [h]: GET_DESCRIPTOR for 18 bytes into a
    buffer of 64. *)
Definition control_in_urb (h : Z) : urb :=
  mk_urb h (Z.lor (Z.shiftl PIPE_CONTROL 30) USB_DIR_IN) 0
         (Some (replicate 64 0)) 64 0
         (Some (mk_ctrlrequest 0x80 6 0x0100 0 18)) 0 0 0 [].

(** The give-backs of a drained queue, oldest entry first: each urb goes
    back with its status field after the compare-and-set of -ESHUTDOWN. *)
Definition shutdown_events (l : list vhci_urb_priv) : list event :=
  map (fun e => usb_hcd_giveback_urb (urbp_urb e)
                  (urbp_status (maybe_set_status e (- ESHUTDOWN))))
      l.

(** ** Calls that leave the urbs alone *)

(** An event other than a give-back. *)
Definition quiet (e : event) : bool :=
  match e with
  | usb_hcd_giveback_urb _ _ => false
  | _ => true
  end.

(** From [h] to [h'] no queue has changed and no urb was given back. *)
Definition urbs_untouched (h h' : usb_hcd) : Prop :=
  (forall q, get_list q (hcd_priv h') = get_list q (hcd_priv h)) /\
  exists evs, trace h' = trace h ++ evs /\ forallb quiet evs = true.

(** ** The life cycle of an urb *)

(** What one step of the driver can do to the urbs, labelled with the
    handles it takes in: nothing; take a submitted urb into the inbox, its
    status field zero; pass a checked urb from the inbox to the worker; park
    a fetched urb for cancellation; tell the worker of the cancellation; or
    unlink an entry and give its urb back, with the status field as a
    compare-and-set leaves it. *)
Inductive urb_step (h : usb_hcd) : list Z -> usb_hcd -> Prop :=
| step_untouched h' :
    urbs_untouched h h' -> urb_step h [] h'
| step_submit u :
    urb_step h [urb_handle u]
      (with_vhci (list_add_tail Inbox (mk_urbp u 0)) h)
| step_fetch e :
    find_urbp (handle_of e) (get_list Inbox (hcd_priv h)) = Some e ->
    process_urb_work (urbp_urb e) <> None ->
    urb_step h [] (with_vhci (list_move_tail Inbox Fetched e) h)
| step_cancel e :
    find_urbp (handle_of e) (get_list Fetched (hcd_priv h)) = Some e ->
    urb_step h [] (with_vhci (list_move_tail Fetched Cancel e) h)
| step_canceling e :
    find_urbp (handle_of e) (get_list Cancel (hcd_priv h)) = Some e ->
    urb_step h [] (with_vhci (list_move_tail Cancel Canceling e) h)
| step_giveback q e e' status :
    find_urbp (handle_of e') (get_list q (hcd_priv h)) = Some e ->
    urbp_status e' = urbp_status (maybe_set_status e status) ->
    urb_step h [] (vhci_urb_giveback q e' h).

Inductive urb_steps : usb_hcd -> list Z -> usb_hcd -> Prop :=
| steps_nil h : urb_steps h [] h
| steps_cons h1 l1 h2 l2 h3 :
    urb_step h1 l1 h2 -> urb_steps h2 l2 h3 -> urb_steps h1 (l1 ++ l2) h3.

(** ** What holds of the queues between calls *)

(** Every entry handed to the worker has passed the checks of work-fetch. *)
Definition checked_queues (v : vhci) : Prop :=
  forall q, q <> Inbox ->
    Forall (fun e => process_urb_work (urbp_urb e) <> None) (get_list q v).

(** Every queued entry has the status field zero. *)
Definition zero_status (v : vhci) : Prop :=
  forall q, Forall (fun e => urbp_status e = 0) (get_list q v).

(** The statuses of the give-backs in a trace. *)
Definition giveback_status (e : event) : option Z :=
  match e with
  | usb_hcd_giveback_urb _ status => Some status
  | _ => None
  end.

Definition statuses (tr : list event) : list Z := omap giveback_status tr.

(** A controller as [vhci_start] leaves it, with [n] ports. *)
Definition started (n : Z) : usb_hcd :=
  snd (vhci_start (mk_hcd true (mk_vhci VHCI_RH_RESET [] 0 0 0 0 [] [] [] []) [])
         n true 0 0 0 0).

(** A bulk OUT urb of four bytes at address [h]. *)
Definition bulk_out_4 (h : Z) : urb :=
  mk_urb h (Z.shiftl PIPE_BULK 30) 0 (Some [1; 2; 3; 4]) 4 0 None 0 0 0 [].

(** Submission, fetch, cancellation, fetch of the cancellation and a late
    completion, with a second urb left in the inbox. *)
Definition life_cycle : list call :=
  [call_urb_enqueue (bulk_out_4 7) true 0;
   call_urb_enqueue (bulk_out_4 9) true 0;
   call_fetch_work 0 0;
   call_urb_dequeue 7 (- ECANCELED) 0;
   call_fetch_work 0 0;
   call_giveback 7 (- ECANCELED) 0 0 0 None None true].

(** ** The state of a port *)

Definition has_flag (x flag : Z) : bool := nz (Z.land x flag).

(** A port state that the USB 2.0 hub state machine can be in: a device is
    connected only to a powered port, a port is enabled only with a device
    connected, suspended only when enabled, in reset only with a device
    connected and not enabled; a speed is recorded only for a connected
    device, and not both speeds; and a resume is in progress only on a
    suspended port. *)
Definition port_ok (p : vhci_port) : bool :=
  let ps := port_status p in
  implb (has_flag ps USB_PORT_STAT_CONNECTION)
        (has_flag ps USB_PORT_STAT_POWER) &&
  implb (has_flag ps USB_PORT_STAT_ENABLE)
        (has_flag ps USB_PORT_STAT_CONNECTION) &&
  implb (has_flag ps USB_PORT_STAT_SUSPEND)
        (has_flag ps USB_PORT_STAT_ENABLE) &&
  implb (has_flag ps USB_PORT_STAT_RESET)
        (has_flag ps USB_PORT_STAT_CONNECTION &&
         negb (has_flag ps USB_PORT_STAT_ENABLE)) &&
  implb (has_flag ps USB_PORT_STAT_LOW_SPEED)
        (has_flag ps USB_PORT_STAT_CONNECTION &&
         negb (has_flag ps USB_PORT_STAT_HIGH_SPEED)) &&
  implb (has_flag ps USB_PORT_STAT_HIGH_SPEED)
        (has_flag ps USB_PORT_STAT_CONNECTION) &&
  implb (has_flag (port_flags p) USB_VHCI_PORT_STAT_FLAG_RESUMING)
        (has_flag ps USB_PORT_STAT_SUSPEND).

(** The ways the driver rewrites one port: the two port switches of hub
    control, a port event of the worker on a powered port, and the suspend
    of an enabled port with the bus. *)
Inductive port_op (p : vhci_port) : vhci_port -> Prop :=
| op_clear_feature wValue p' b :
    clear_port_feature wValue p = Some (p', b) -> port_op p p'
| op_set_feature wValue p' b :
    set_port_feature wValue p = Some (p', b) -> port_op p p'
| op_event status change p' :
    nz (Z.land (port_status p) USB_PORT_STAT_POWER) = true ->
    port_stat_switch status change p = Some p' -> port_op p p'
| op_suspend :
    nz (Z.land (port_status p) USB_PORT_STAT_ENABLE) = true ->
    nz (Z.land (port_status p) USB_PORT_STAT_SUSPEND) = false ->
    port_op p (suspend_port p).

(** What one step of the driver can do to the port table and the update
    mask: leave the ports alone and set no update bit, or rewrite port [i]
    and set at most its update bit. *)
Inductive port_step (v : vhci) : vhci -> Prop :=
| pstep_frame v' :
    port_count v' = port_count v ->
    ports v' = ports v ->
    (forall m, Z.testbit (port_update v') m = true ->
               Z.testbit (port_update v) m = true) ->
    port_step v v'
| pstep_port v' i p' :
    1 <= i <= port_count v ->
    port_op (port_at v (i - 1)) p' ->
    port_count v' = port_count v ->
    ports v' = alter (fun _ => p') (Z.to_nat (i - 1)) (ports v) ->
    (forall m, Z.testbit (port_update v') m = true ->
               Z.testbit (port_update v) m = true \/ m = i) ->
    port_step v v'.

Inductive port_steps : vhci -> vhci -> Prop :=
| psteps_nil v : port_steps v v
| psteps_cons v1 v2 v3 :
    port_step v1 v2 -> port_steps v2 v3 -> port_steps v1 v3.

(** Every bit set in the update mask stands for a port. *)
Definition port_update_ok (v : vhci) : Prop :=
  forall m, Z.testbit (port_update v) m = true -> 1 <= m <= port_count v.

(** The part of the state that the calls on urbs leave alone: the port
    table, the update mask and the frame number. *)
Definition port_side (v : vhci) : Z * list vhci_port * Z * Z :=
  (port_count v, ports v, port_update v, frame_num v).

(** A port session on port 1: power on, a device connects, reset, the
    worker completes the reset with the port enabled, the worker fetches a
    unit, the bus is suspended, and port 1 is resumed. *)
Definition port_session : list call :=
  [call_hub_control SetPortFeature USB_PORT_FEAT_POWER 1 0;
   call_port_stat 1 USB_PORT_STAT_CONNECTION USB_PORT_STAT_C_CONNECTION;
   call_hub_control SetPortFeature USB_PORT_FEAT_RESET 1 0;
   call_port_stat 1 USB_PORT_STAT_ENABLE USB_PORT_STAT_C_RESET;
   call_fetch_work 0 0;
   call_bus_suspend;
   call_hub_control ClearPortFeature USB_PORT_FEAT_SUSPEND 1 0].

(** The test of [vhci_bus_suspend] on a port: enabled and not suspended. *)
Definition suspendable (p : vhci_port) : bool :=
  nz (Z.land (port_status p) USB_PORT_STAT_ENABLE) &&
  negb (nz (Z.land (port_status p) USB_PORT_STAT_SUSPEND)).

(** One bulk OUT urb, at address 7, is in the hands of the worker. *)
Definition hcd_in_service : usb_hcd :=
  snd (ioc_fetch_work
         (snd (vhci_urb_enqueue (started 2) (bulk_out_4 7) true 0)) 0 0).

(** A session that meets malformed urbs while the bulk urb at address 7 is
    in the hands of the worker: a control urb without setup packet is
    submitted and rejected by the next work-fetch; a control IN urb without
    buffer is submitted and cancelled while still pending; the bulk urb has
    its data fetched and is completed by the worker. *)
Definition malformed_session : list call :=
  [call_urb_enqueue (control_urb_no_setup 5) true 0;
   call_fetch_work 0 0;
   call_urb_enqueue (control_in_urb_no_buffer 8) true 0;
   call_urb_dequeue 8 (- ECANCELED) 0;
   call_fetch_data 7 false 4 true 0 true true;
   call_giveback 7 0 4 0 0 None None true].
(** * Properties *)

(** ** Bit-level facts *)

Lemma nz_true (z : Z) : nz z = true <-> z <> 0.
Proof. unfold nz. destruct (Z.eqb_spec z 0); simpl; split; congruence. Qed.

Lemma nz_false (z : Z) : nz z = false <-> z = 0.
Proof. unfold nz. destruct (Z.eqb_spec z 0); simpl; split; congruence. Qed.

Lemma testbit_ones (w n : Z) :
  0 <= w -> 0 <= n -> Z.testbit (Z.ones w) n = (n <? w).
Proof.
  intros Hw Hn. destruct (Z.ltb_spec n w).
  - apply Z.ones_spec_low; lia.
  - apply Z.ones_spec_high; lia.
Qed.

Lemma testbit_u16 (z n : Z) :
  0 <= n -> Z.testbit (u16 z) n = Z.testbit z n && (n <? 16).
Proof. intros. unfold u16. rewrite Z.land_spec, testbit_ones by lia. reflexivity. Qed.

Lemma testbit_u8 (z n : Z) :
  0 <= n -> Z.testbit (u8 z) n = Z.testbit z n && (n <? 8).
Proof. intros. unfold u8. rewrite Z.land_spec, testbit_ones by lia. reflexivity. Qed.

Lemma testbit_u32 (z n : Z) :
  0 <= n -> Z.testbit (u32 z) n = Z.testbit z n && (n <? 32).
Proof. intros. unfold u32. rewrite Z.land_spec, testbit_ones by lia. reflexivity. Qed.

Lemma u8_small (z : Z) : 0 <= z < 256 -> u8 z = z.
Proof.
  intros. unfold u8. rewrite Z.land_ones by lia.
  apply Z.mod_small. change (2 ^ 8) with 256. lia.
Qed.

Lemma testbit_bit (k n : Z) :
  0 <= k -> 0 <= n -> Z.testbit (Z.shiftl 1 k) n = (n =? k).
Proof.
  intros Hk Hn. rewrite Z.shiftl_1_l. rewrite Z.pow2_bits_eqb by lia.
  rewrite Z.eqb_sym. reflexivity.
Qed.

(** [x & (1 << k)] is non-zero exactly when bit [k] of [x] is set. *)
Lemma nz_land_bit (x k : Z) :
  0 <= k -> nz (Z.land x (Z.shiftl 1 k)) = Z.testbit x k.
Proof.
  intros Hk. destruct (Z.testbit x k) eqn:Hb.
  - apply nz_true. intros H0.
    assert (Hk' : Z.testbit (Z.land x (Z.shiftl 1 k)) k = true).
    { rewrite Z.land_spec, Hb, testbit_bit, Z.eqb_refl by lia. reflexivity. }
    rewrite H0, Z.bits_0 in Hk'. discriminate.
  - apply nz_false. apply Z.bits_inj'. intros n Hn.
    rewrite Z.land_spec, Z.bits_0, testbit_bit by lia.
    destruct (Z.eqb_spec n k); subst; rewrite ?Hb, ?andb_false_r; reflexivity.
Qed.

(** A mask test against a single-bit constant. *)
Lemma nz_land_pow2 (x k : Z) :
  0 <= k -> nz (Z.land x (2 ^ k)) = Z.testbit x k.
Proof. intros. rewrite <- Z.shiftl_1_l. apply nz_land_bit; lia. Qed.

(** ** Lists of ports *)

Lemma alter_const_id (l : list vhci_port) (i : nat) (p : vhci_port) :
  l !! i = Some p -> alter (fun _ => p) i l = l.
Proof.
  revert i. induction l as [|x l IH]; intros [|i] H; simplify_eq/=.
  - reflexivity.
  - f_equal. apply IH. exact H.
Qed.

Lemma port_at_lookup (v : vhci) (i : Z) (p : vhci_port) :
  ports v !! Z.to_nat i = Some p -> port_at v i = p.
Proof. unfold port_at. intros ->. reflexivity. Qed.

(** ** C10: port events on an unpowered port, and malformed change masks *)

Lemma ioc_port_stat_bad_mask (hcd : usb_hcd) (index status change : Z) :
  change_mask_ok change = false ->
  ioc_port_stat hcd index status change = (- EINVAL, hcd).
Proof.
  intros Hm. unfold ioc_port_stat. rewrite Hm. simpl.
  destruct (negb (nz index) || (port_count (hcd_to_vhci hcd) <? index));
    reflexivity.
Qed.

(** C10.  A port event for a port in range whose power bit is clear is
    refused and the controller state, hence every port's status, change and
    flags and the pending-update mask, is returned as it was; the error is
    [-EPROTO], unless the change mask is not one of the five single change
    bits or reset|enable, which is refused with [-EINVAL] before anything
    else is looked at (whatever the port). *)
Theorem ioc_port_stat_unpowered (hcd : usb_hcd) (index status change : Z) :
  (0 < index <= port_count (hcd_to_vhci hcd) ->
   Z.land (port_status (port_at (hcd_to_vhci hcd) (index - 1)))
          USB_PORT_STAT_POWER = 0 ->
   ioc_port_stat hcd index status change =
     (if change_mask_ok change then - EPROTO else - EINVAL, hcd)) /\
  (change_mask_ok change = false ->
   ioc_port_stat hcd index status change = (- EINVAL, hcd)).
Proof.
  split; [|apply ioc_port_stat_bad_mask].
  intros Hi Hp. destruct (change_mask_ok change) eqn:Hm.
  - unfold ioc_port_stat. rewrite Hm, Hp.
    replace (nz index) with true by (symmetry; apply nz_true; lia).
    replace (port_count (hcd_to_vhci hcd) <? index) with false
      by (symmetry; apply Z.ltb_ge; lia).
    reflexivity.
  - apply ioc_port_stat_bad_mask. exact Hm.
Qed.

Lemma ioc_port_stat_unpowered_witness :
  ioc_port_stat (fresh_hcd 4 (mk_port 0 0 0)) 3 USB_PORT_STAT_CONNECTION
                USB_PORT_STAT_C_CONNECTION
    = (- EPROTO, fresh_hcd 4 (mk_port 0 0 0)) /\
  ioc_port_stat (fresh_hcd 4 (mk_port 0 0 0)) 3 0 3
    = (- EINVAL, fresh_hcd 4 (mk_port 0 0 0)).
Proof.
  split.
  - apply (proj1 (ioc_port_stat_unpowered (fresh_hcd 4 (mk_port 0 0 0)) 3
                    USB_PORT_STAT_CONNECTION USB_PORT_STAT_C_CONNECTION)).
    + simpl. lia.
    + reflexivity.
  - apply (proj2 (ioc_port_stat_unpowered (fresh_hcd 4 (mk_port 0 0 0)) 3 0 3)).
    reflexivity.
Defined.


(** Evaluates the comparisons between constants that appear in the goal. *)
Ltac eval_eqb :=
  repeat match goal with
         | |- context [?a =? ?b] =>
             let r := eval vm_compute in (a =? b) in
             match r with true => idtac | false => idtac end;
             change (a =? b) with r
         end;
  cbn [orb andb negb]; cbv beta iota.

(** Splits on the value of [v] along the chain of comparisons in the goal. *)
Ltac feature_cases v :=
  repeat match goal with
         | |- context [v =? ?c] =>
             destruct (Z.eqb_spec v c) as [->|?]; [eval_eqb|]
         end;
  cbn [orb andb negb]; cbv beta iota.

Ltac split_ifs :=
  repeat match goal with
         | |- context [if ?b then _ else _] => destruct b
         | H : context [if ?b then _ else _] |- _ => destruct b
         end.

Lemma clear_port_feature_None (v : Z) (p : vhci_port) :
  clear_port_feature v p = None <->
  port_feature_known v || (v =? USB_PORT_FEAT_ENABLE) = false.
Proof.
  unfold clear_port_feature, port_feature_known, is_change_feature.
  feature_cases v; split; intros; split_ifs; try discriminate; reflexivity.
Qed.

Lemma set_port_feature_None (v : Z) (p : vhci_port) :
  set_port_feature v p = None <-> port_feature_known v = false.
Proof.
  unfold set_port_feature, port_feature_known, is_change_feature.
  feature_cases v; split; intros; split_ifs; try discriminate; reflexivity.
Qed.


Ltac bool_atoms :=
  unfold nz in *;
  repeat match goal with
         | H : context [?a =? ?b] |- _ => destruct (a =? b)
         | H : context [?a <? ?b] |- _ => destruct (a <? b)
         | |- context [?a =? ?b] => destruct (a =? b)
         | |- context [?a <? ?b] => destruct (a <? b)
         end;
  simpl in *; try discriminate; try reflexivity.

Lemma hub_control_switch_stall (hcd : usb_hcd) (t v i l : Z) :
  outside_valid_domain (port_count (hcd_to_vhci hcd)) t v i l = true ->
  hub_control_switch t v i l hcd = None.
Proof.
  unfold outside_valid_domain, request_type_known, is_port_request,
    feature_allowed, wLength_allowed, hub_control_switch, port_feature_request.
  feature_cases t; intros H.
  - bool_atoms.
  - bool_atoms.
  - destruct (port_feature_known v || (v =? USB_PORT_FEAT_ENABLE)) eqn:K.
    + bool_atoms.
    + rewrite (proj2 (clear_port_feature_None v _) K).
      split_ifs; reflexivity.
  - destruct (port_feature_known v) eqn:K.
    + bool_atoms.
    + rewrite (proj2 (set_port_feature_None v _) K).
      split_ifs; reflexivity.
  - discriminate.
  - bool_atoms.
  - bool_atoms.
  - reflexivity.
Qed.

(** C8, as the code has it.  While the controller is flagged
    hardware-accessible, a hub-control request outside the valid domain (a
    request type that is not recognised, a port index of zero or beyond the
    port count, a feature code the request type does not allow, a non-zero
    [wLength] where none is expected or one other than 4 for a status read)
    returns the protocol stall [-EPIPE], and leaves the controller state as
    it was.  While the controller is not hardware-accessible every request,
    inside the domain or outside it, returns [-ETIMEDOUT] instead: nothing
    is written to the buffer, the state is left as it was and no root-hub
    poll is asked for. *)
Theorem hub_control_stall (hcd : usb_hcd) (t v i l : Z) :
  (hw_accessible hcd = true ->
   outside_valid_domain (port_count (hcd_to_vhci hcd)) t v i l = true ->
   fst (fst (vhci_hub_control hcd t v i l)) = - EPIPE /\
   hcd_priv (snd (vhci_hub_control hcd t v i l)) = hcd_priv hcd) /\
  (hw_accessible hcd = false ->
   vhci_hub_control hcd t v i l = (- ETIMEDOUT, [], hcd)).
Proof.
  split.
  - intros Hacc Hout. unfold vhci_hub_control.
    rewrite Hacc, (hub_control_switch_stall _ _ _ _ _ Hout). simpl.
    split; [reflexivity|]. destruct (has_changes _); reflexivity.
  - intros Hacc. unfold vhci_hub_control. rewrite Hacc. reflexivity.
Qed.

Lemma hub_control_stall_witness :
  (fst (fst (vhci_hub_control (fresh_hcd 4 (mk_port 0 0 0))
               SetPortFeature USB_PORT_FEAT_RESET 5 0)) = - EPIPE /\
   hcd_priv (snd (vhci_hub_control (fresh_hcd 4 (mk_port 0 0 0))
               SetPortFeature USB_PORT_FEAT_RESET 5 0))
     = hcd_priv (fresh_hcd 4 (mk_port 0 0 0))) /\
  vhci_hub_control (mk_hcd false (hcd_priv (fresh_hcd 4 (mk_port 0 0 0))) [])
    SetPortFeature USB_PORT_FEAT_RESET 5 0
    = (- ETIMEDOUT, [],
       mk_hcd false (hcd_priv (fresh_hcd 4 (mk_port 0 0 0))) []) /\
  vhci_hub_control (mk_hcd false (hcd_priv (fresh_hcd 4 (mk_port 0 0 0))) [])
    GetPortStatus 0 1 4
    = (- ETIMEDOUT, [],
       mk_hcd false (hcd_priv (fresh_hcd 4 (mk_port 0 0 0))) []).
Proof.
  split; [|split].
  - apply (proj1 (hub_control_stall (fresh_hcd 4 (mk_port 0 0 0))
                    SetPortFeature USB_PORT_FEAT_RESET 5 0)); reflexivity.
  - apply (proj2 (hub_control_stall
                    (mk_hcd false (hcd_priv (fresh_hcd 4 (mk_port 0 0 0))) [])
                    SetPortFeature USB_PORT_FEAT_RESET 5 0)); reflexivity.
  - apply (proj2 (hub_control_stall
                    (mk_hcd false (hcd_priv (fresh_hcd 4 (mk_port 0 0 0))) [])
                    GetPortStatus 0 1 4)); reflexivity.
Defined.

(** With the controller not hardware-accessible the same requests time out
    instead of stalling, so the stall is not the only outcome of a request
    outside the domain. *)
Lemma hub_control_stall_counterexample :
  ~ (forall (hcd : usb_hcd) (t v i l : Z),
       outside_valid_domain (port_count (hcd_to_vhci hcd)) t v i l = true ->
       fst (fst (vhci_hub_control hcd t v i l)) = - EPIPE).
Proof.
  intros H.
  specialize (H (mk_hcd false (hcd_priv (fresh_hcd 4 (mk_port 0 0 0))) [])
                SetPortFeature USB_PORT_FEAT_RESET 5 0 eq_refl).
  vm_compute in H. discriminate H.
Qed.

(** ** SetPortFeature(RESET) *)

Lemma u16_land_mask (x k : Z) :
  Z.land k (Z.ones 16) = k -> u16 (Z.land x k) = Z.land x k.
Proof. intros Hk. unfold u16. rewrite <- Z.land_assoc, Hk. reflexivity. Qed.

Lemma u16_lor_mask (x k : Z) :
  Z.land k (Z.ones 16) = k -> u16 (Z.lor (u16 x) k) = Z.lor (u16 x) k.
Proof.
  intros Hk. unfold u16.
  rewrite Z.land_lor_distr_l, <- Z.land_assoc, Z.land_diag, Hk. reflexivity.
Qed.

Lemma cleared_flag (x f : Z) : Z.land (u8 (Z.land x (Z.lnot f))) f = 0.
Proof.
  apply Z.bits_inj'. intros n Hn.
  rewrite Z.land_spec, testbit_u8, Z.land_spec, Z.lnot_spec, Z.bits_0 by lia.
  destruct (Z.testbit x n), (Z.testbit f n), (n <? 8); reflexivity.
Qed.

Lemma hcd_priv_poll (b : bool) (hcd : usb_hcd) :
  hcd_priv (if b then emit usb_hcd_poll_rh_status hcd else hcd) = hcd_priv hcd.
Proof. destruct b; reflexivity. Qed.

Lemma set_port_feature_reset (p : vhci_port) :
  set_port_feature USB_PORT_FEAT_RESET p =
    if Z.testbit (port_status p) 0 && negb (Z.testbit (port_status p) 4)
    then Some (mk_port
                 (Z.lor (Z.land (port_status p) reset_kept_bits)
                        USB_PORT_STAT_RESET)
                 (port_change p)
                 (u8 (Z.land (port_flags p)
                             (Z.lnot USB_VHCI_PORT_STAT_FLAG_RESUMING))),
               true)
    else Some (p, false).
Proof.
  unfold set_port_feature. eval_eqb.
  change USB_PORT_STAT_CONNECTION with (2 ^ 0).
  change USB_PORT_STAT_RESET with (2 ^ 4).
  rewrite !nz_land_pow2 by lia.
  destruct (Z.testbit (port_status p) 0 && negb (Z.testbit (port_status p) 4));
    [|reflexivity].
  do 3 f_equal.
  change (Z.lor (Z.lor (Z.lor (Z.lor USB_PORT_STAT_POWER (2 ^ 0))
                              USB_PORT_STAT_LOW_SPEED)
                       USB_PORT_STAT_HIGH_SPEED)
                USB_PORT_STAT_OVERCURRENT) with reset_kept_bits.
  rewrite (u16_land_mask _ reset_kept_bits) by reflexivity.
  rewrite <- (u16_land_mask _ reset_kept_bits) at 1 by reflexivity.
  rewrite u16_lor_mask by reflexivity.
  rewrite u16_land_mask by reflexivity. reflexivity.
Qed.

Lemma port_update_marks (pu port : Z) :
  0 <= port <= 31 ->
  Z.testbit (u32 (Z.lor pu (Z.shiftl 1 (u8 port)))) port = true.
Proof.
  intros Hp. rewrite u8_small by lia.
  rewrite testbit_u32, Z.lor_spec, testbit_bit, Z.eqb_refl by lia.
  rewrite orb_true_r. apply andb_true_intro. split; [reflexivity|].
  apply Z.ltb_lt. lia.
Qed.

(** What SetPortFeature on a port in range does to the controller, in terms
    of the port switch. *)
Lemma hub_control_set_port_feature (hcd : usb_hcd) (v i : Z) :
  hw_accessible hcd = true ->
  0 < i <= port_count (hcd_to_vhci hcd) ->
  vhci_hub_control hcd SetPortFeature v i 0 =
    match port_feature_request set_port_feature v i hcd with
    | Some hcd1 =>
        (0, [], if has_changes (hcd_to_vhci hcd1)
                then emit usb_hcd_poll_rh_status hcd1 else hcd1)
    | None =>
        (- EPIPE, [], if has_changes (hcd_to_vhci hcd)
                      then emit usb_hcd_poll_rh_status hcd else hcd)
    end.
Proof.
  intros Hacc Hi. unfold vhci_hub_control, hub_control_switch.
  rewrite Hacc. eval_eqb.
  replace (nz i) with true by (symmetry; apply nz_true; lia).
  replace (port_count (hcd_to_vhci hcd) <? i) with false
    by (symmetry; apply Z.ltb_ge; lia).
  cbn [negb orb]. change (nz 0) with false. cbv iota.
  destruct (port_feature_request set_port_feature v i hcd); reflexivity.
Qed.

(** X21.  SetPortFeature(RESET), accepted (controller
    hardware-accessible, port index in range, wLength zero, at most 31
    ports), on a port with the connection bit set and the reset bit clear:
    the new status is the old one restricted to power, connection, low/high
    speed and over-current, plus the reset bit; the resuming flag is clear;
    the change register is as before (no reset change bit is raised here);
    the port's pending-update bit is set; every other port is as before.  On
    a port that is not connected or is already resetting the controller
    state is unchanged. *)
Theorem set_port_feature_reset_effect (hcd : usb_hcd) (i : Z) (p : vhci_port) :
  hw_accessible hcd = true ->
  0 < i <= port_count (hcd_to_vhci hcd) ->
  port_count (hcd_to_vhci hcd) <= 31 ->
  ports (hcd_to_vhci hcd) !! Z.to_nat (i - 1) = Some p ->
  let r := vhci_hub_control hcd SetPortFeature USB_PORT_FEAT_RESET i 0 in
  let v' := hcd_to_vhci (snd r) in
  fst (fst r) = 0 /\
  (Z.testbit (port_status p) 0 = true ->
   Z.testbit (port_status p) 4 = false ->
   exists p',
     ports v' !! Z.to_nat (i - 1) = Some p' /\
     port_status p' =
       Z.lor (Z.land (port_status p) reset_kept_bits) USB_PORT_STAT_RESET /\
     Z.land (port_flags p') USB_VHCI_PORT_STAT_FLAG_RESUMING = 0 /\
     port_change p' = port_change p /\
     Z.testbit (port_update v') i = true /\
     (forall j, j <> Z.to_nat (i - 1) ->
                ports v' !! j = ports (hcd_to_vhci hcd) !! j)) /\
  (Z.testbit (port_status p) 0 = false \/
   Z.testbit (port_status p) 4 = true ->
   v' = hcd_to_vhci hcd).
Proof.
  intros Hacc Hi H31 Hp r v'. subst r v'.
  rewrite hub_control_set_port_feature by assumption.
  unfold port_feature_request.
  rewrite (port_at_lookup _ _ _ Hp), set_port_feature_reset.
  destruct (Z.testbit (port_status p) 0) eqn:Hc;
    destruct (Z.testbit (port_status p) 4) eqn:Hr; cbn [andb negb fst snd].
  - split; [reflexivity|]. split; [discriminate|]. intros _.
    unfold hcd_to_vhci in *. rewrite hcd_priv_poll. cbn.
    unfold update_port. rewrite alter_const_id by exact Hp.
    destruct (hcd_priv hcd); reflexivity.
  - split; [reflexivity|]. split; [|intros [?|?]; discriminate].
    intros _ _. unfold hcd_to_vhci in *. rewrite hcd_priv_poll. cbn.
    eexists. split; [|split; [|split; [|split; [|split]]]].
    + rewrite list_lookup_alter_eq, Hp. reflexivity.
    + reflexivity.
    + apply cleared_flag.
    + reflexivity.
    + apply port_update_marks. lia.
    + intros j Hj. apply list_lookup_alter_ne. congruence.
  - split; [reflexivity|]. split; [discriminate|]. intros _.
    unfold hcd_to_vhci in *. rewrite hcd_priv_poll. cbn.
    unfold update_port. rewrite alter_const_id by exact Hp.
    destruct (hcd_priv hcd); reflexivity.
  - split; [reflexivity|]. split; [discriminate|]. intros _.
    unfold hcd_to_vhci in *. rewrite hcd_priv_poll. cbn.
    unfold update_port. rewrite alter_const_id by exact Hp.
    destruct (hcd_priv hcd); reflexivity.
Qed.

Lemma set_port_feature_reset_effect_witness :
  exists p',
    ports (hcd_to_vhci
             (snd (vhci_hub_control hcd_connected SetPortFeature
                     USB_PORT_FEAT_RESET 3 0))) !! Z.to_nat (3 - 1) = Some p' /\
    port_status p' =
      Z.lor (Z.land (Z.lor USB_PORT_STAT_POWER USB_PORT_STAT_CONNECTION)
                    reset_kept_bits) USB_PORT_STAT_RESET /\
    Z.land (port_flags p') USB_VHCI_PORT_STAT_FLAG_RESUMING = 0 /\
    port_change p' = 0 /\
    Z.testbit (port_update
                 (hcd_to_vhci
                    (snd (vhci_hub_control hcd_connected SetPortFeature
                            USB_PORT_FEAT_RESET 3 0)))) 3 = true /\
    (forall j, j <> Z.to_nat (3 - 1) ->
               ports (hcd_to_vhci
                        (snd (vhci_hub_control hcd_connected SetPortFeature
                                USB_PORT_FEAT_RESET 3 0))) !! j
               = ports (hcd_to_vhci hcd_connected) !! j).
Proof.
  refine (proj1 (proj2 (set_port_feature_reset_effect hcd_connected 3
                          (mk_port (Z.lor USB_PORT_STAT_POWER
                                          USB_PORT_STAT_CONNECTION) 0 0)
                          eq_refl _ _ eq_refl)) eq_refl eq_refl).
  - simpl. lia.
  - simpl. lia.
Defined.

(** The request raises no reset change bit: on a connected, powered port
    with an empty change register the register is still empty afterwards. *)
Lemma set_port_feature_reset_counterexample :
  ~ (forall (hcd : usb_hcd) (i : Z) (p : vhci_port),
       hw_accessible hcd = true ->
       0 < i <= port_count (hcd_to_vhci hcd) ->
       ports (hcd_to_vhci hcd) !! Z.to_nat (i - 1) = Some p ->
       Z.testbit (port_status p) 0 = true ->
       Z.testbit (port_status p) 4 = false ->
       exists p',
         ports (hcd_to_vhci
                  (snd (vhci_hub_control hcd SetPortFeature
                          USB_PORT_FEAT_RESET i 0))) !! Z.to_nat (i - 1)
           = Some p' /\
         Z.testbit (port_change p') 4 = true).
Proof.
  intros H.
  destruct (H hcd_connected 3
              (mk_port (Z.lor USB_PORT_STAT_POWER USB_PORT_STAT_CONNECTION) 0 0)
              eq_refl ltac:(simpl; lia) eq_refl eq_refl eq_refl)
    as (p' & Hp' & Hbit).
  vm_compute in Hp'. injection Hp' as <-. discriminate Hbit.
Qed.

(** ** Life of a change bit under hub control *)

(** The enable and suspend change bits are bits 1 and 2. *)
Lemma enable_suspend_mask (n : Z) :
  0 <= n -> n <> 1 -> n <> 2 ->
  Z.testbit (Z.lor USB_PORT_STAT_C_ENABLE USB_PORT_STAT_C_SUSPEND) n = false.
Proof.
  intros Hn H1 H2. destruct (Z.eq_dec n 0) as [->|H0]; [reflexivity|].
  apply Z.bits_above_log2; [discriminate|].
  change (Z.log2 (Z.lor USB_PORT_STAT_C_ENABLE USB_PORT_STAT_C_SUSPEND)) with 2.
  lia.
Qed.

(** Bit [n] of a change register after a store of [pc & mask] or
    [pc | mask], when it was set before. *)
Ltac change_bit Hbit :=
  rewrite ?testbit_u16, ?Z.land_spec, ?Z.lor_spec, ?Z.lnot_spec, ?Hbit by lia.

Lemma set_port_feature_change (v : Z) (p p' : vhci_port) (b : bool) (n : Z) :
  set_port_feature v p = Some (p', b) ->
  0 <= n < 16 ->
  Z.testbit (port_change p) n = true ->
  Z.testbit (port_change p') n = true.
Proof.
  unfold set_port_feature, is_change_feature. intros H Hn Hbit. revert H.
  feature_cases v; intros H; split_ifs; simplify_eq; cbn [port_change];
    try assumption; change_bit Hbit.
  all: apply andb_true_intro; split; [reflexivity|apply Z.ltb_lt; lia].
Qed.

Ltac noop_case Hbit :=
  intros H; split_ifs; simplify_eq; left; exact Hbit.

(** The acknowledgment of change bit [k]. *)
Ltac ack_case n k Hbit :=
  intros H;
  repeat match type of H with
         | context [Z.shiftl 1 ?e] => progress change e with k in H
         end;
  destruct (nz _) in H; simplify_eq; [|left; exact Hbit];
  destruct (Z.eq_dec n k) as [->|Hne];
  [ right; left; split; reflexivity
  | left; cbn [port_change]; change_bit Hbit;
    rewrite testbit_bit by lia;
    replace (n =? k) with false by (symmetry; apply Z.eqb_neq; exact Hne);
    apply andb_true_intro; split; [reflexivity|apply Z.ltb_lt; lia] ].

Lemma clear_port_feature_change (v : Z) (p p' : vhci_port) (b : bool) (n : Z) :
  clear_port_feature v p = Some (p', b) ->
  0 <= n < 16 ->
  Z.testbit (port_change p) n = true ->
  Z.testbit (port_change p') n = true \/ clears_change_bit v p n.
Proof.
  unfold clear_port_feature, is_change_feature. intros H Hn Hbit. revert H.
  feature_cases v.
  - noop_case Hbit.
  - (* power-off *)
    intros H. destruct (nz _) eqn:Hpow in H; simplify_eq; [|left; exact Hbit].
    change USB_PORT_STAT_POWER with (2 ^ 8) in Hpow.
    rewrite nz_land_pow2 in Hpow by lia.
    destruct (Z.eq_dec n 3) as [->|Hne].
    + left. cbn [port_change]. change_bit Hbit. reflexivity.
    + right. right. left. split; [reflexivity|]. split; assumption.
  - (* disable *)
    intros H. destruct (nz _) eqn:Hen in H; simplify_eq; [|left; exact Hbit].
    change USB_PORT_STAT_ENABLE with (2 ^ 1) in Hen.
    rewrite nz_land_pow2 in Hen by lia.
    destruct (Z.eq_dec n 1) as [->|Hne1];
      [right; right; right; split; [reflexivity|]; split; [assumption|lia]|].
    destruct (Z.eq_dec n 2) as [->|Hne2];
      [right; right; right; split; [reflexivity|]; split; [assumption|lia]|].
    left. cbn [port_change]. change_bit Hbit.
    rewrite enable_suspend_mask by lia.
    apply andb_true_intro. split; [reflexivity|apply Z.ltb_lt; lia].
  - noop_case Hbit.
  - noop_case Hbit.
  - noop_case Hbit.
  - noop_case Hbit.
  - noop_case Hbit.
  - noop_case Hbit.
  - ack_case n 0 Hbit.
  - ack_case n 1 Hbit.
  - ack_case n 2 Hbit.
  - ack_case n 3 Hbit.
  - ack_case n 4 Hbit.
  - discriminate.
Qed.

(** Hub control touches the port table only through the two port
    switches, and then only the port addressed. *)
Lemma hub_control_ports (hcd : usb_hcd) (t v i l : Z) :
  ports (hcd_priv (snd (vhci_hub_control hcd t v i l))) = ports (hcd_priv hcd) \/
  (exists p' b,
     ((t = ClearPortFeature /\
       clear_port_feature v (port_at (hcd_priv hcd) (i - 1)) = Some (p', b)) \/
      (t = SetPortFeature /\
       set_port_feature v (port_at (hcd_priv hcd) (i - 1)) = Some (p', b))) /\
     ports (hcd_priv (snd (vhci_hub_control hcd t v i l))) =
       alter (fun _ => p') (Z.to_nat (i - 1)) (ports (hcd_priv hcd))).
Proof.
  unfold vhci_hub_control.
  destruct (hw_accessible hcd); [|left; reflexivity]. cbn [negb].
  assert (Hsw :
    match hub_control_switch t v i l hcd with
    | None => True
    | Some (_, hcd1) =>
        ports (hcd_priv hcd1) = ports (hcd_priv hcd) \/
        (exists p' b,
           ((t = ClearPortFeature /\
             clear_port_feature v (port_at (hcd_priv hcd) (i - 1)) = Some (p', b)) \/
            (t = SetPortFeature /\
             set_port_feature v (port_at (hcd_priv hcd) (i - 1)) = Some (p', b))) /\
           ports (hcd_priv hcd1) =
             alter (fun _ => p') (Z.to_nat (i - 1)) (ports (hcd_priv hcd)))
    end).
  { unfold hub_control_switch, port_feature_request, hcd_to_vhci.
    feature_cases t.
    - split_ifs; [exact I|left; reflexivity].
    - split_ifs; [exact I|left; reflexivity].
    - destruct (negb (nz i) || _ || _); [exact I|].
      destruct (clear_port_feature v _) as [[p' b]|] eqn:Hf; [|exact I].
      cbn [option_map]. right. exists p', b. split; [left; split; reflexivity|].
      destruct b; reflexivity.
    - split_ifs; [exact I|left; reflexivity].
    - split_ifs; [exact I|left; reflexivity].
    - split_ifs; [exact I|left; reflexivity].
    - destruct (negb (nz i) || _ || _); [exact I|].
      destruct (set_port_feature v _) as [[p' b]|] eqn:Hf; [|exact I].
      cbn [option_map]. right. exists p', b. split; [right; split; reflexivity|].
      destruct b; reflexivity.
    - exact I. }
  destruct (hub_control_switch t v i l hcd) as [[buf hcd1]|]; cbn [fst snd].
  - rewrite hcd_priv_poll. exact Hsw.
  - rewrite hcd_priv_poll. left. reflexivity.
Qed.

(** X22.  A change bit that is set stays set across any
    hub-control request, except a ClearPortFeature addressed to that very
    port that is the acknowledgment of that change (the matching C_*
    feature), a power-off of the powered port (which keeps only the
    over-current change) or a disable of the enabled port (which drops the
    enable and suspend changes). *)
Theorem change_bit_latched (hcd : usb_hcd) (t v i l : Z) (j : nat)
    (p : vhci_port) (n : Z) :
  ports (hcd_to_vhci hcd) !! j = Some p ->
  0 <= n < 16 ->
  Z.testbit (port_change p) n = true ->
  exists p',
    ports (hcd_to_vhci (snd (vhci_hub_control hcd t v i l))) !! j = Some p' /\
    (Z.testbit (port_change p') n = true \/
     (t = ClearPortFeature /\ Z.to_nat (i - 1) = j /\ clears_change_bit v p n)).
Proof.
  unfold hcd_to_vhci. intros Hp Hn Hbit.
  destruct (hub_control_ports hcd t v i l) as [->|(p' & b & Hreq & ->)].
  - exists p. split; [exact Hp|left; exact Hbit].
  - destruct (Nat.eq_dec (Z.to_nat (i - 1)) j) as [Hj|Hj].
    + exists p'. split; [subst j; rewrite list_lookup_alter_eq, Hp; reflexivity|].
      subst j. rewrite (port_at_lookup _ _ _ Hp) in Hreq.
      destruct Hreq as [[-> Hf]|[-> Hf]].
      * destruct (clear_port_feature_change _ _ _ _ _ Hf Hn Hbit) as [?|?];
          [left; assumption|right; repeat split; assumption].
      * left. exact (set_port_feature_change _ _ _ _ _ Hf Hn Hbit).
    + exists p. split; [rewrite list_lookup_alter_ne by exact Hj; exact Hp|].
      left. exact Hbit.
Qed.

Lemma change_bit_latched_witness :
  exists p',
    ports (hcd_to_vhci
             (snd (vhci_hub_control hcd_enabled SetPortFeature
                     USB_PORT_FEAT_SUSPEND 1 0))) !! 0%nat = Some p' /\
    (Z.testbit (port_change p') 0 = true \/
     (SetPortFeature = ClearPortFeature /\ Z.to_nat (1 - 1) = 0%nat /\
      clears_change_bit USB_PORT_FEAT_SUSPEND
        (mk_port (Z.lor (Z.lor USB_PORT_STAT_POWER USB_PORT_STAT_CONNECTION)
                        USB_PORT_STAT_ENABLE)
                 USB_PORT_STAT_C_CONNECTION 0) 0)).
Proof.
  apply (change_bit_latched hcd_enabled SetPortFeature USB_PORT_FEAT_SUSPEND
           1 0 0%nat
           (mk_port (Z.lor (Z.lor USB_PORT_STAT_POWER USB_PORT_STAT_CONNECTION)
                           USB_PORT_STAT_ENABLE)
                    USB_PORT_STAT_C_CONNECTION 0) 0).
  - reflexivity.
  - lia.
  - reflexivity.
Defined.

(** Powering a port off clears its connection change bit although the
    request is not the acknowledgment of that change. *)
Lemma change_bit_latched_counterexample :
  ~ (forall (hcd : usb_hcd) (t v i l : Z) (j : nat) (p : vhci_port) (n : Z),
       ports (hcd_to_vhci hcd) !! j = Some p ->
       0 <= n < 16 ->
       Z.testbit (port_change p) n = true ->
       exists p',
         ports (hcd_to_vhci (snd (vhci_hub_control hcd t v i l))) !! j
           = Some p' /\
         (Z.testbit (port_change p') n = true \/
          (t = ClearPortFeature /\ v = 16 + n))).
Proof.
  intros H.
  destruct (H hcd_enabled ClearPortFeature USB_PORT_FEAT_POWER 1 0 0%nat
              (mk_port (Z.lor (Z.lor USB_PORT_STAT_POWER USB_PORT_STAT_CONNECTION)
                              USB_PORT_STAT_ENABLE)
                       USB_PORT_STAT_C_CONNECTION 0) 0
              eq_refl ltac:(lia) eq_refl)
    as (p' & Hp' & [Hbit|[_ Hv]]).
  - vm_compute in Hp'. injection Hp' as <-. discriminate Hbit.
  - discriminate Hv.
Qed.

(** ** Looking an urb up in a queue *)

Lemma find_urbp_absent (handle : Z) (l : list vhci_urb_priv) :
  absent handle l <-> find_urbp handle l = None.
Proof.
  unfold absent. induction l as [|e l IH]; simpl.
  - split; [reflexivity|constructor].
  - destruct (Z.eqb_spec (handle_of e) handle) as [He|He].
    + split; [|discriminate]. intros H. inversion H; subst. contradiction.
    + rewrite <- IH. split.
      * intros H. inversion H; assumption.
      * intros H. constructor; assumption.
Qed.

Lemma find_urbp_split (handle : Z) (l1 l2 : list vhci_urb_priv)
    (urbp : vhci_urb_priv) :
  absent handle l1 -> handle_of urbp = handle ->
  find_urbp handle (l1 ++ urbp :: l2) = Some urbp /\
  del_urbp handle (l1 ++ urbp :: l2) = l1 ++ l2.
Proof.
  unfold absent. intros Hl1 Hh. induction Hl1 as [|e l1 He _ IH]; simpl.
  - rewrite Hh, Z.eqb_refl. split; reflexivity.
  - destruct (Z.eqb_spec (handle_of e) handle); [contradiction|].
    destruct IH as [-> ->]. split; reflexivity.
Qed.

(** Conversely, a successful lookup locates the first entry for the urb. *)
Lemma find_urbp_Some (handle : Z) (l : list vhci_urb_priv)
    (urbp : vhci_urb_priv) :
  find_urbp handle l = Some urbp ->
  exists l1 l2,
    l = l1 ++ urbp :: l2 /\ absent handle l1 /\ handle_of urbp = handle.
Proof.
  unfold absent. induction l as [|e l IH]; simpl; [discriminate|].
  destruct (Z.eqb_spec (handle_of e) handle) as [He|He].
  - intros [= ->]. exists [], l. repeat split; [constructor|exact He].
  - intros H. destruct (IH H) as (l1 & l2 & -> & Hl1 & Hh).
    exists (e :: l1), l2. repeat split; [constructor; assumption|exact Hh].
Qed.

(** ** The completion status *)

(** A write through the compare-and-set lands only on a field that still
    holds "in progress". *)
Lemma maybe_set_status_in_progress (urbp : vhci_urb_priv) (status : Z) :
  urbp_status urbp = - EINPROGRESS ->
  maybe_set_status urbp status = mk_urbp (urbp_urb urbp) status.
Proof. unfold maybe_set_status. intros ->. reflexivity. Qed.

Lemma maybe_set_status_settled (urbp : vhci_urb_priv) (status : Z) :
  urbp_status urbp <> - EINPROGRESS ->
  maybe_set_status urbp status = urbp.
Proof.
  unfold maybe_set_status. intros H.
  destruct (Z.eqb_spec (urbp_status urbp) (- EINPROGRESS)); [contradiction|].
  reflexivity.
Qed.

(** The first writer wins: once a terminal status is in, later writers
    change nothing. *)
Lemma maybe_set_status_first_wins (urbp : vhci_urb_priv) (s1 s2 : Z) :
  urbp_status urbp = - EINPROGRESS -> s1 <> - EINPROGRESS ->
  maybe_set_status (maybe_set_status urbp s1) s2 = mk_urbp (urbp_urb urbp) s1.
Proof.
  intros Hp Hs. rewrite (maybe_set_status_in_progress _ _ Hp).
  apply maybe_set_status_settled. exact Hs.
Qed.

(** X23.  An urb accepted by
    [vhci_urb_enqueue] is queued with the status field of the zeroed
    allocation, 0, not with "in progress" (-EINPROGRESS); so no later
    compare-and-set on it ever succeeds. *)
Theorem urb_enqueue_status (hcd hcd' : usb_hcd) (u : urb) (kzalloc_ok : bool)
    (link_retval : Z) :
  vhci_urb_enqueue hcd u kzalloc_ok link_retval = (0, hcd') ->
  exists urbp,
    urbp_list_inbox (hcd_to_vhci hcd') =
      urbp_list_inbox (hcd_to_vhci hcd) ++ [urbp] /\
    urbp_urb urbp = u /\
    urbp_status urbp = 0 /\
    urbp_status urbp <> - EINPROGRESS /\
    forall status, maybe_set_status urbp status = urbp.
Proof.
  unfold vhci_urb_enqueue. intros H.
  destruct (is_null (transfer_buffer u) && nz (transfer_buffer_length u));
    [discriminate|].
  destruct kzalloc_ok; [|discriminate]. cbn [negb] in H.
  destruct (nz link_retval) eqn:Hl.
  - apply nz_true in Hl. congruence.
  - injection H as <-. exists (mk_urbp u 0). repeat split; try discriminate.
Qed.

Lemma urb_enqueue_status_witness :
  exists urbp,
    urbp_list_inbox (hcd_to_vhci hcd_submitted) =
      urbp_list_inbox (hcd_to_vhci hcd_idle) ++ [urbp] /\
    urbp_urb urbp = bulk_out_urb 7 /\
    urbp_status urbp = 0 /\
    urbp_status urbp <> - EINPROGRESS /\
    forall status, maybe_set_status urbp status = urbp.
Proof.
  apply (urb_enqueue_status hcd_idle hcd_submitted (bulk_out_urb 7) true 0).
  reflexivity.
Defined.

(** What this does to a shutdown: the urb is handed back with status 0
    instead of -ESHUTDOWN. *)
Lemma shutdown_after_enqueue :
  trace (vhci_hcd_remove hcd_submitted) =
    [wake_up_interruptible; usb_hcd_giveback_urb (bulk_out_urb 7) 0;
     usb_remove_hcd; usb_put_hcd].
Proof. reflexivity. Qed.

(** ** Cancellation *)

(** X24.  A cancel call that the core's unlink check lets
    through returns 0 in every case.  If the urb is pending, its entry leaves
    the inbox and the urb is given back at once, with the status field as it
    stands (the call writes no status of its own).  If it is in service, its
    entry moves from the fetched queue to the tail of the cancel queue and
    the work event is raised; nothing is given back yet.  If it is in neither
    queue, nothing changes. *)
Theorem urb_dequeue_effect (hcd : usb_hcd) (u status : Z) :
  let r := vhci_urb_dequeue hcd u status 0 in
  let v := hcd_to_vhci hcd in
  let v' := hcd_to_vhci (snd r) in
  fst r = 0 /\
  (forall l1 l2 urbp,
     urbp_list_inbox v = l1 ++ urbp :: l2 ->
     absent u l1 -> handle_of urbp = u ->
     urbp_list_inbox v' = l1 ++ l2 /\
     urbp_list_fetched v' = urbp_list_fetched v /\
     urbp_list_cancel v' = urbp_list_cancel v /\
     urbp_list_canceling v' = urbp_list_canceling v /\
     trace (snd r) =
       trace hcd ++ [usb_hcd_giveback_urb (urbp_urb urbp) (urbp_status urbp)]) /\
  (forall l1 l2 entry,
     absent u (urbp_list_inbox v) ->
     urbp_list_fetched v = l1 ++ entry :: l2 ->
     absent u l1 -> handle_of entry = u ->
     urbp_list_inbox v' = urbp_list_inbox v /\
     urbp_list_fetched v' = l1 ++ l2 /\
     urbp_list_cancel v' = urbp_list_cancel v ++ [entry] /\
     urbp_list_canceling v' = urbp_list_canceling v /\
     trace (snd r) = trace hcd ++ [wake_up_interruptible]) /\
  (absent u (urbp_list_inbox v) -> absent u (urbp_list_fetched v) ->
   snd r = hcd).
Proof.
  intros r v v'. subst r v v'. unfold vhci_urb_dequeue, hcd_to_vhci.
  change (nz 0) with false. cbv iota.
  split; [|split; [|split]].
  - destruct (find_urbp u (urbp_list_inbox (hcd_priv hcd))); [reflexivity|].
    destruct (find_urbp u (urbp_list_fetched (hcd_priv hcd))); reflexivity.
  - intros l1 l2 urbp Hin Hl1 Hh.
    destruct (find_urbp_split u l1 l2 urbp Hl1 Hh) as [Hf Hd].
    rewrite Hin, Hf. cbn. rewrite Hh, Hin, Hd. repeat split; reflexivity.
  - intros l1 l2 entry Hin Hfe Hl1 Hh.
    destruct (find_urbp_split u l1 l2 entry Hl1 Hh) as [Hf Hd].
    apply find_urbp_absent in Hin. rewrite Hin, Hfe, Hf. cbn.
    rewrite Hh, Hfe, Hd. repeat split; reflexivity.
  - intros Hin Hfe. apply find_urbp_absent in Hin, Hfe.
    rewrite Hin, Hfe. reflexivity.
Qed.

Lemma urb_dequeue_effect_witness :
  urbp_list_inbox (hcd_to_vhci (snd (vhci_urb_dequeue hcd_submitted 7 0 0))) = [] /\
  trace (snd (vhci_urb_dequeue hcd_submitted 7 0 0)) =
    trace hcd_submitted ++ [usb_hcd_giveback_urb (bulk_out_urb 7) 0].
Proof.
  destruct (proj1 (proj2 (urb_dequeue_effect hcd_submitted 7 0))
              [] [] (mk_urbp (bulk_out_urb 7) 0) eq_refl
              ltac:(constructor) eq_refl)
    as (H1 & _ & _ & _ & H5).
  split; [exact H1|exact H5].
Defined.

(** An unknown urb is answered with 0, as a known one is, not with -ENOENT;
    and a pending urb that is cancelled is not given back with
    -ECANCELED. *)
Lemma urb_dequeue_counterexample :
  ~ (forall (hcd : usb_hcd) (u status : Z),
       absent u (urbp_list_inbox (hcd_to_vhci hcd)) ->
       absent u (urbp_list_fetched (hcd_to_vhci hcd)) ->
       fst (vhci_urb_dequeue hcd u status 0) = - ENOENT) /\
  ~ (forall (hcd : usb_hcd) (u status : Z) (urbp : vhci_urb_priv),
       find_urbp u (urbp_list_inbox (hcd_to_vhci hcd)) = Some urbp ->
       trace (snd (vhci_urb_dequeue hcd u status 0)) =
         trace hcd ++ [usb_hcd_giveback_urb (urbp_urb urbp) (- ECANCELED)]).
Proof.
  split.
  - intros H.
    specialize (H hcd_idle 7 0 ltac:(constructor) ltac:(constructor)).
    vm_compute in H. discriminate H.
  - intros H.
    specialize (H hcd_submitted 7 0 (mk_urbp (bulk_out_urb 7) 0) eq_refl).
    vm_compute in H. discriminate H.
Qed.

(** ** Completion handed in by the worker *)






(** A cancelled urb whose completion fails a check is answered with the
    check's error, not with -ECANCELED: here the worker claims 5 bytes for
    an urb without a buffer. *)
Lemma giveback_common_counterexample :
  ~ (forall (hcd : usb_hcd) (handle status act iso_count err_count : Z)
            (buf : option (list Z)) (iso : option (list (Z * Z)))
            (iso_access_ok : bool) (urbp : vhci_urb_priv),
       urbp_from_handle (hcd_to_vhci hcd) handle = None ->
       urbp_from_handle_in_canceling (hcd_to_vhci hcd) handle = Some urbp \/
       urbp_from_handle_in_cancel (hcd_to_vhci hcd) handle = Some urbp ->
       exists hcd',
         ioc_giveback_common hcd handle status act iso_count err_count buf
                             iso iso_access_ok
           = Some (- ECANCELED, hcd')).
Proof.
  intros H.
  destruct (H hcd_canceling 7 0 5 0 0 None None true
              (mk_urbp (bulk_out_urb 7) 0) eq_refl (or_introl eq_refl))
    as [hcd' Hcall].
  vm_compute in Hcall. discriminate Hcall.
Qed.

(** ** The inbox loop of work-fetch *)

(** The checks of the loop reject exactly the malformed transfers. *)
Lemma process_urb_work_malformed (u : urb) :
  process_urb_work u = None <-> malformed u = true.
Proof.
  unfold process_urb_work, malformed, nz.
  destruct (usb_pipecontrol (pipe u)).
  - destruct (setup_packet u) as [cmd|]; [|split; reflexivity].
    destruct (transfer_buffer_length u <? wLength cmd); [split; reflexivity|].
    destruct (Z.land (bRequestType cmd) 128 =? 0), (wLength cmd =? 0),
      (is_null (transfer_buffer u)); simpl; split; congruence.
  - destruct (usb_pipein (pipe u) =? 0), (transfer_buffer_length u =? 0),
      (is_null (transfer_buffer u)); simpl; split; congruence.
Qed.

(** Every inbox is a run of rejected urbs, followed or not by a first
    acceptable one. *)
Lemma inbox_split (l : list vhci_urb_priv) :
  Forall rejected l \/
  exists bad g d rest,
    l = bad ++ g :: rest /\ Forall rejected bad /\
    process_urb_work (urbp_urb g) = Some d.
Proof.
  induction l as [|e l IH].
  - left. constructor.
  - destruct (process_urb_work (urbp_urb e)) as [d|] eqn:He.
    + right. exists [], e, d, l. repeat split; [constructor|exact He].
    + destruct IH as [IH|(bad & g & d & rest & -> & Hbad & Hg)].
      * left. constructor; assumption.
      * right. exists (e :: bad), g, d, rest.
        repeat split; [constructor; assumption|exact Hg].
Qed.

(** Running the loop over a run of rejected urbs gives each of them back
    and leaves the rest of the inbox to the next round. *)
Lemma set_list_twice (q : urbp_list) (l l' : list vhci_urb_priv) (v : vhci) :
  set_list q l (set_list q l' v) = set_list q l v.
Proof. destruct q, v; reflexivity. Qed.

Lemma set_list_same (q : urbp_list) (v : vhci) :
  set_list q (get_list q v) v = v.
Proof. destruct q, v; reflexivity. Qed.

Lemma get_set_list (q : urbp_list) (l : list vhci_urb_priv) (v : vhci) :
  get_list q (set_list q l v) = l.
Proof. destruct q, v; reflexivity. Qed.

Lemma fetch_work_repeat_rejected (bad l : list vhci_urb_priv) (hcd : usb_hcd) :
  Forall rejected bad ->
  urbp_list_inbox (hcd_priv hcd) = bad ++ l ->
  fetch_work_repeat (bad ++ l) hcd =
    fetch_work_repeat l
      (mk_hcd (hw_accessible hcd) (set_list Inbox l (hcd_priv hcd))
              (trace hcd ++ rejected_events bad)).
Proof.
  intros Hbad. revert hcd.
  induction Hbad as [|e bad He _ IH]; intros hcd Hin.
  - cbn [app rejected_events map] in *. rewrite app_nil_r, <- Hin.
    change (urbp_list_inbox (hcd_priv hcd))
      with (get_list Inbox (hcd_priv hcd)).
    rewrite set_list_same. destruct hcd; reflexivity.
  - unfold rejected in He.
    change ((e :: bad) ++ l) with (e :: (bad ++ l)) in *.
    cbn [fetch_work_repeat]. rewrite He.
    assert (Hh : handle_of (maybe_set_status e (- EPIPE)) = handle_of e).
    { unfold maybe_set_status. destruct (_ =? _); reflexivity. }
    assert (Hu : urbp_urb (maybe_set_status e (- EPIPE)) = urbp_urb e).
    { unfold maybe_set_status. destruct (_ =? _); reflexivity. }
    rewrite IH.
    + f_equal.
      unfold vhci_urb_giveback, emit, with_vhci, list_del.
      cbn [hw_accessible hcd_priv trace rejected_events map].
      rewrite <- app_assoc. cbn [app]. rewrite set_list_twice, Hu.
      reflexivity.
    + unfold vhci_urb_giveback, emit, with_vhci, list_del.
      cbn [hw_accessible hcd_priv trace].
      change (urbp_list_inbox ?v) with (get_list Inbox v).
      rewrite get_set_list. cbn [get_list].
      rewrite Hh, Hin. cbn [del_urbp]. rewrite Z.eqb_refl. reflexivity.
Qed.

Lemma fetch_work_repeat_accepts (bad rest : list vhci_urb_priv)
    (g : vhci_urb_priv) (d : usb_vhci_ioc_work_urb) (hcd : usb_hcd) :
  Forall rejected bad ->
  process_urb_work (urbp_urb g) = Some d ->
  urbp_list_inbox (hcd_priv hcd) = bad ++ g :: rest ->
  fetch_work_repeat (bad ++ g :: rest) hcd =
    (0, Some (USB_VHCI_WORK_TYPE_PROCESS_URB (handle_of g) d),
     mk_hcd (hw_accessible hcd)
            (set_list Fetched (urbp_list_fetched (hcd_priv hcd) ++ [g])
               (set_list Inbox rest (hcd_priv hcd)))
            (trace hcd ++ rejected_events bad)).
Proof.
  intros Hbad Hg Hin. rewrite (fetch_work_repeat_rejected _ _ _ Hbad Hin).
  cbn [fetch_work_repeat]. rewrite Hg.
  unfold with_vhci, list_move_tail, list_add_tail, list_del.
  cbn [hw_accessible hcd_priv trace]. rewrite !get_set_list.
  cbn [del_urbp]. rewrite Z.eqb_refl, set_list_twice.
  destruct (hcd_priv hcd); reflexivity.
Qed.

Lemma fetch_work_repeat_exhausts (l : list vhci_urb_priv) (hcd : usb_hcd) :
  Forall rejected l ->
  urbp_list_inbox (hcd_priv hcd) = l ->
  fetch_work_repeat l hcd =
    (- ENODATA, None,
     mk_hcd (hw_accessible hcd) (set_list Inbox [] (hcd_priv hcd))
            (trace hcd ++ rejected_events l)).
Proof.
  intros Hl Hin. rewrite <- (app_nil_r l) at 1.
  rewrite (fetch_work_repeat_rejected l [] hcd Hl)
    by (rewrite app_nil_r; exact Hin).
  reflexivity.
Qed.

(** ** The port scan of work-fetch *)

(** The scan answers with the first port, in the rotated order, whose update
    bit is set. *)
Lemma port_scan_Some (v : vhci) (n : nat) (s port : Z) :
  0 < port_count v ->
  port_scan v n s = Some port ->
  exists k,
    s <= k < s + Z.of_nat n /\
    port = (k + port_sched_offset v) mod port_count v /\
    Z.testbit (port_update v) (port + 1) = true /\
    forall k', s <= k' < k ->
      Z.testbit (port_update v)
                ((k' + port_sched_offset v) mod port_count v + 1) = false.
Proof.
  intros HN. revert s.
  induction n as [|n IH]; intros s H; cbn [port_scan] in H; [discriminate|].
  assert (Hm : 0 <= (s + port_sched_offset v) mod port_count v + 1).
  { pose proof (Z.mod_pos_bound (s + port_sched_offset v) (port_count v) HN).
    lia. }
  rewrite nz_land_bit in H by exact Hm.
  destruct (Z.testbit (port_update v)
              ((s + port_sched_offset v) mod port_count v + 1)) eqn:Hb.
  - injection H as H. subst port. exists s.
    split; [lia|]. split; [reflexivity|]. split; [exact Hb|].
    intros k' Hk'. lia.
  - destruct (IH (s + 1) H) as (k & Hk & Hp & Hbit & Hfirst).
    exists k. split; [lia|]. split; [exact Hp|]. split; [exact Hbit|].
    intros k' Hk'. destruct (Z.eq_dec k' s) as [->|Hne]; [exact Hb|].
    apply Hfirst. lia.
Qed.

Lemma port_scan_None (v : vhci) (n : nat) (s : Z) :
  0 < port_count v ->
  port_scan v n s = None <->
  forall k, s <= k < s + Z.of_nat n ->
    Z.testbit (port_update v)
              ((k + port_sched_offset v) mod port_count v + 1) = false.
Proof.
  intros HN. revert s. induction n as [|n IH]; intros s; cbn [port_scan].
  - split; [intros _ k Hk; lia|reflexivity].
  - assert (Hm : 0 <= (s + port_sched_offset v) mod port_count v + 1).
    { pose proof (Z.mod_pos_bound (s + port_sched_offset v) (port_count v) HN).
      lia. }
    rewrite nz_land_bit by exact Hm.
    destruct (Z.testbit (port_update v)
                ((s + port_sched_offset v) mod port_count v + 1)) eqn:Hb.
    + split; [discriminate|]. intros H. rewrite H in Hb by lia. discriminate.
    + rewrite IH. split.
      * intros H k Hk. destruct (Z.eq_dec k s) as [->|Hne]; [exact Hb|].
        apply H. lia.
      * intros H k Hk. apply H. lia.
Qed.

(** A full scan misses no port. *)
Lemma port_scan_complete (v : vhci) (p : Z) :
  0 <= p < port_count v ->
  Z.testbit (port_update v) (p + 1) = true ->
  port_scan v (Z.to_nat (port_count v)) 0 <> None.
Proof.
  intros Hp Hbit Hnone.
  rewrite port_scan_None in Hnone by lia.
  specialize (Hnone ((p - port_sched_offset v) mod port_count v)).
  rewrite Z.add_mod_idemp_l in Hnone by lia.
  replace (p - port_sched_offset v + port_sched_offset v) with p in Hnone by lia.
  rewrite (Z.mod_small p) in Hnone by lia.
  rewrite Hnone in Hbit; [discriminate|].
  pose proof (Z.mod_pos_bound (p - port_sched_offset v) (port_count v)).
  lia.
Qed.

(** ** What a work-fetch call yields *)

Lemma ioc_fetch_work_wait (hcd hcd' : usb_hcd) (timeout wret ret : Z)
    (w : option usb_vhci_ioc_work) :
  ioc_fetch_work hcd timeout wret = (ret, w, hcd') ->
  (ret <> 0 /\ w = None /\ hcd' = hcd) \/
  fetch_work_locked hcd = (ret, w, hcd').
Proof.
  unfold ioc_fetch_work. intros H.
  destruct (nz timeout).
  - destruct (Z.ltb_spec wret 0) as [Hneg|Hpos].
    + left. injection H as <- <- <-. repeat split.
      destruct (wret =? - ERESTARTSYS); [discriminate|lia].
    + destruct (wret =? 0); [|right; exact H].
      left. injection H as <- <- <-. repeat split. discriminate.
  - destruct (negb (has_work (hcd_to_vhci hcd))); [|right; exact H].
    left. injection H as <- <- <-. repeat split. discriminate.
Qed.

Lemma fetch_work_repeat_outcome (hcd hcd' : usb_hcd) (ret : Z)
    (w : option usb_vhci_ioc_work) :
  fetch_work_repeat (urbp_list_inbox (hcd_priv hcd)) hcd = (ret, w, hcd') ->
  (ret <> 0 /\ w = None) \/
  (ret = 0 /\
   exists bad g d rest,
     urbp_list_inbox (hcd_priv hcd) = bad ++ g :: rest /\
     Forall rejected bad /\
     process_urb_work (urbp_urb g) = Some d /\
     w = Some (USB_VHCI_WORK_TYPE_PROCESS_URB (handle_of g) d) /\
     urbp_list_inbox (hcd_priv hcd') = rest /\
     urbp_list_fetched (hcd_priv hcd') =
       urbp_list_fetched (hcd_priv hcd) ++ [g] /\
     urbp_list_cancel (hcd_priv hcd') = urbp_list_cancel (hcd_priv hcd) /\
     urbp_list_canceling (hcd_priv hcd') = urbp_list_canceling (hcd_priv hcd) /\
     trace hcd' = trace hcd ++ rejected_events bad).
Proof.
  intros H.
  destruct (inbox_split (urbp_list_inbox (hcd_priv hcd)))
    as [Hall|(bad & g & d & rest & Hin & Hbad & Hg)].
  - rewrite (fetch_work_repeat_exhausts _ _ Hall eq_refl) in H.
    left. injection H as <- <- _. split; [discriminate|reflexivity].
  - right. rewrite Hin in H.
    rewrite (fetch_work_repeat_accepts _ _ _ _ _ Hbad Hg Hin) in H.
    injection H as <- <- <-. split; [reflexivity|].
    exists bad, g, d, rest. repeat split; try assumption.
Qed.

(** X26.  A work-fetch call returns 0 exactly when it
    yields a unit, and then the unit is chosen by strict priority.  With a
    non-empty cancel queue it is a cancel unit for the oldest entry there,
    which moves to the tail of the canceling queue.  Otherwise, if some
    port's pending-update bit is set, it is a port-status unit for a port
    whose bit is set.  Otherwise it is a process unit for the oldest pending
    urb that passes the checks, which moves to the tail of the fetched
    queue; the urbs that were pending before it have failed the checks and
    have been given back by this same call. *)
Theorem fetch_work_priority (hcd hcd' : usb_hcd) (timeout wret ret : Z)
    (w : option usb_vhci_ioc_work) :
  ioc_fetch_work hcd timeout wret = (ret, w, hcd') ->
  let v := hcd_to_vhci hcd in
  let v' := hcd_to_vhci hcd' in
  (ret = 0 <-> exists unit, w = Some unit) /\
  (ret = 0 ->
   match urbp_list_cancel v with
   | urbp :: rest =>
       w = Some (USB_VHCI_WORK_TYPE_CANCEL_URB (handle_of urbp)) /\
       urbp_list_cancel v' = rest /\
       urbp_list_canceling v' = urbp_list_canceling v ++ [urbp]
   | [] =>
       ((exists p, 0 <= p < port_count v /\
                   Z.testbit (port_update v) (p + 1) = true) ->
        exists p, 0 <= p < port_count v /\
                  Z.testbit (port_update v) (p + 1) = true /\
                  w = Some (USB_VHCI_WORK_TYPE_PORT_STAT (p + 1)
                              (port_status (port_at v p))
                              (port_change (port_at v p))
                              (port_flags (port_at v p)))) /\
       ((forall p, 0 <= p < port_count v ->
                   Z.testbit (port_update v) (p + 1) = false) ->
        exists bad g d rest,
          urbp_list_inbox v = bad ++ g :: rest /\
          Forall rejected bad /\
          process_urb_work (urbp_urb g) = Some d /\
          w = Some (USB_VHCI_WORK_TYPE_PROCESS_URB (handle_of g) d) /\
          urbp_list_inbox v' = rest /\
          urbp_list_fetched v' = urbp_list_fetched v ++ [g] /\
          trace hcd' = trace hcd ++ rejected_events bad)
   end).
Proof.
  intros H v v'. subst v v'. unfold hcd_to_vhci.
  destruct (ioc_fetch_work_wait _ _ _ _ _ _ H) as [(Hret & -> & ->)|Hl].
  { split; [split; [contradiction|intros [? ?]; discriminate]|contradiction]. }
  clear H. unfold fetch_work_locked, hcd_to_vhci in Hl.
  destruct (urbp_list_cancel (hcd_priv hcd)) as [|urbp rest] eqn:Hc.
  2:{ injection Hl as <- <- <-. split; [split; eauto|]. intros _.
      unfold with_vhci, list_move_tail, list_add_tail, list_del. simpl.
      rewrite Hc. simpl. rewrite Z.eqb_refl. repeat split. }
  destruct (nz (port_update (hcd_priv hcd))) eqn:Hpu.
  - set (hcd1 := if port_count (hcd_priv hcd) <=? port_sched_offset (hcd_priv hcd)
                 then with_vhci (set_port_sched_offset 0) hcd else hcd) in *.
    assert (Hpc : port_count (hcd_priv hcd1) = port_count (hcd_priv hcd))
      by (subst hcd1; destruct (_ <=? _); reflexivity).
    assert (Hpu1 : port_update (hcd_priv hcd1) = port_update (hcd_priv hcd))
      by (subst hcd1; destruct (_ <=? _); reflexivity).
    assert (Hports : ports (hcd_priv hcd1) = ports (hcd_priv hcd))
      by (subst hcd1; destruct (_ <=? _); reflexivity).
    assert (Hin1 : urbp_list_inbox (hcd_priv hcd1) = urbp_list_inbox (hcd_priv hcd))
      by (subst hcd1; destruct (_ <=? _); reflexivity).
    assert (Hfe1 : urbp_list_fetched (hcd_priv hcd1) =
                   urbp_list_fetched (hcd_priv hcd))
      by (subst hcd1; destruct (_ <=? _); reflexivity).
    assert (Htr1 : trace hcd1 = trace hcd)
      by (subst hcd1; destruct (_ <=? _); reflexivity).
    destruct (port_scan (hcd_priv hcd1) _ 0) as [port|] eqn:Hscan.
    + injection Hl as <- <- <-. split; [split; eauto|]. intros _.
      assert (HN : 0 < port_count (hcd_priv hcd1)).
      { destruct (Z.to_nat (port_count (hcd_priv hcd1))) eqn:E;
          [discriminate|lia]. }
      assert (Hport : 0 <= port < port_count (hcd_priv hcd) /\
                      Z.testbit (port_update (hcd_priv hcd)) (port + 1) = true).
      { rewrite <- Hpc, <- Hpu1.
        destruct (port_scan_Some _ _ _ _ HN Hscan) as (k & _ & Hp & Hbit & _).
        split; [rewrite Hp; apply Z.mod_pos_bound; exact HN|exact Hbit]. }
      destruct Hport as [Hrange Hbit]. split.
      * intros _. exists port. repeat split; try lia; [exact Hbit|].
        unfold port_at. rewrite Hports. reflexivity.
      * intros Hnone. rewrite (Hnone port Hrange) in Hbit. discriminate.
    + destruct (fetch_work_repeat_outcome _ _ _ _ Hl)
        as [[Hret ->]|(-> & bad & g & d & rest & Hin & Hbad & Hg & -> & Hi' &
                       Hf' & _ & _ & Ht')].
      { split; [split; [contradiction|intros [? ?]; discriminate]|contradiction]. }
      split; [split; eauto|]. intros _. split.
      * intros (p & Hp & Hbit). exfalso.
        apply (port_scan_complete (hcd_priv hcd1) p); [lia|congruence|exact Hscan].
      * intros _. exists bad, g, d, rest. rewrite <- Hin1, <- Hfe1, <- Htr1.
        repeat split; assumption.
  - apply nz_false in Hpu.
    destruct (fetch_work_repeat_outcome _ _ _ _ Hl)
      as [[Hret ->]|(-> & bad & g & d & rest & Hin & Hbad & Hg & -> & Hi' &
                     Hf' & _ & _ & Ht')].
    { split; [split; [contradiction|intros [? ?]; discriminate]|contradiction]. }
    split; [split; eauto|]. intros _. split.
    + intros (p & Hp & Hbit). rewrite Hpu, Z.bits_0 in Hbit. discriminate.
    + intros _. exists bad, g, d, rest. repeat split; assumption.
Qed.

Lemma fetch_work_priority_witness :
  snd (fst (ioc_fetch_work hcd_mixed 0 0))
    = Some (USB_VHCI_WORK_TYPE_CANCEL_URB 7) /\
  urbp_list_cancel (hcd_to_vhci (snd (ioc_fetch_work hcd_mixed 0 0))) = [] /\
  urbp_list_canceling (hcd_to_vhci (snd (ioc_fetch_work hcd_mixed 0 0)))
    = [mk_urbp (bulk_out_urb 7) 0].
Proof.
  exact (proj2 (fetch_work_priority hcd_mixed
                  (snd (ioc_fetch_work hcd_mixed 0 0)) 0 0
                  (fst (fst (ioc_fetch_work hcd_mixed 0 0)))
                  (snd (fst (ioc_fetch_work hcd_mixed 0 0)))
                  eq_refl)
               eq_refl).
Defined.

(** The scenario of the specification: the cancel comes first, then the port
    update, then the transfer. *)
Lemma fetch_work_priority_scenario :
  map snd (fst (fetch_many [(0, 0); (0, 0); (0, 0)] hcd_mixed)) =
    [Some (USB_VHCI_WORK_TYPE_CANCEL_URB 7);
     Some (USB_VHCI_WORK_TYPE_PORT_STAT 1 USB_PORT_STAT_POWER 0 0);
     Some (USB_VHCI_WORK_TYPE_PROCESS_URB 9
             (mk_work_urb 0 0 USB_VHCI_URB_TYPE_BULK
                (mk_urb_flags false false false) 0 None 0 0))].
Proof. reflexivity. Qed.

(** With a malformed urb at the head of the inbox the process unit is not
    for the oldest pending urb: the urb at address 8 is older, the unit is
    for the urb at address 7. *)
Lemma fetch_work_priority_counterexample :
  ~ (forall (hcd hcd' : usb_hcd) (timeout wret ret : Z)
            (w : usb_vhci_ioc_work) (urbp : vhci_urb_priv)
            (rest : list vhci_urb_priv),
       ioc_fetch_work hcd timeout wret = (ret, Some w, hcd') ->
       urbp_list_cancel (hcd_to_vhci hcd) = [] ->
       port_update (hcd_to_vhci hcd) = 0 ->
       urbp_list_inbox (hcd_to_vhci hcd) = urbp :: rest ->
       exists d, w = USB_VHCI_WORK_TYPE_PROCESS_URB (handle_of urbp) d).
Proof.
  intros H.
  destruct (H hcd_two_pending
              (snd (ioc_fetch_work hcd_two_pending 0 0)) 0 0 0
              (USB_VHCI_WORK_TYPE_PROCESS_URB 7
                 (mk_work_urb 0 0 USB_VHCI_URB_TYPE_BULK
                    (mk_urb_flags false false false) 0 None 0 0))
              (mk_urbp (control_urb_no_setup 8) 0)
              [mk_urbp (bulk_out_urb 7) 0]
              eq_refl eq_refl eq_refl eq_refl) as [d Hd].
  discriminate Hd.
Qed.

(** ** Malformed transfers at dispatch *)

(** Had the status field held "in progress", the rejected urbs would go
    back with -EPIPE. *)
Lemma rejected_events_in_progress (bad : list vhci_urb_priv) :
  Forall (fun e => urbp_status e = - EINPROGRESS) bad ->
  rejected_events bad =
    map (fun e => usb_hcd_giveback_urb (urbp_urb e) (- EPIPE)) bad.
Proof.
  unfold rejected_events. intros H. induction H as [|e bad He _ IH]; simpl.
  - reflexivity.
  - rewrite (maybe_set_status_in_progress _ _ He), IH. reflexivity.
Qed.

(** X27.  A malformed urb that was accepted
    by [vhci_urb_enqueue] into an otherwise idle controller is rejected by
    the next work-fetch call, which yields no unit and returns -ENODATA; the
    urb is never moved to the fetched queue.  But it is handed back with
    status 0, not -EPIPE: the compare-and-set of -EPIPE finds the zeroed
    status field of the entry, not "in progress". *)
Theorem fetch_work_rejects_malformed (hcd hcd1 : usb_hcd) (u : urb)
    (kzalloc_ok : bool) (link_retval : Z) :
  vhci_urb_enqueue hcd u kzalloc_ok link_retval = (0, hcd1) ->
  urbp_list_inbox (hcd_to_vhci hcd) = [] ->
  urbp_list_cancel (hcd_to_vhci hcd) = [] ->
  port_update (hcd_to_vhci hcd) = 0 ->
  malformed u = true ->
  exists hcd2,
    ioc_fetch_work hcd1 0 0 = (- ENODATA, None, hcd2) /\
    trace hcd2 = trace hcd1 ++ [usb_hcd_giveback_urb u 0] /\
    urbp_list_inbox (hcd_to_vhci hcd2) = [] /\
    urbp_list_fetched (hcd_to_vhci hcd2) = urbp_list_fetched (hcd_to_vhci hcd).
Proof.
  unfold vhci_urb_enqueue, hcd_to_vhci. intros He Hin Hc Hpu Hm.
  apply process_urb_work_malformed in Hm.
  destruct (is_null (transfer_buffer u) && nz (transfer_buffer_length u));
    [discriminate|].
  destruct kzalloc_ok; [|discriminate]. cbn [negb] in He.
  destruct (nz link_retval) eqn:Hl.
  { apply nz_true in Hl. congruence. }
  injection He as <-.
  destruct hcd as [hw v tr]. destruct v. simpl in *. subst.
  eexists. unfold ioc_fetch_work, fetch_work_locked. cbn -[process_urb_work].
  rewrite Hm. cbn. split; [reflexivity|]. cbn. repeat split.
  unfold handle_of, maybe_set_status. cbn. rewrite Z.eqb_refl. reflexivity.
Qed.

Lemma fetch_work_rejects_malformed_witness :
  exists hcd2,
    ioc_fetch_work
      (snd (vhci_urb_enqueue hcd_idle (control_in_urb_no_buffer 5) true 0)) 0 0
      = (- ENODATA, None, hcd2) /\
    trace hcd2 =
      trace (snd (vhci_urb_enqueue hcd_idle (control_in_urb_no_buffer 5) true 0))
        ++ [usb_hcd_giveback_urb (control_in_urb_no_buffer 5) 0] /\
    urbp_list_inbox (hcd_to_vhci hcd2) = [] /\
    urbp_list_fetched (hcd_to_vhci hcd2) = urbp_list_fetched (hcd_to_vhci hcd_idle).
Proof.
  apply (fetch_work_rejects_malformed hcd_idle _ (control_in_urb_no_buffer 5)
           true 0); reflexivity.
Defined.

(** ** Round-robin over the ports *)

Lemma sched_start_range (v : vhci) :
  0 < port_count v -> 0 <= port_sched_offset v ->
  0 <= sched_start v < port_count v.
Proof.
  unfold sched_start. intros HN Ho.
  destruct (Z.leb_spec (port_count v) (port_sched_offset v)); lia.
Qed.

Lemma mod_wrap (x n : Z) :
  0 <= x < 2 * n -> x mod n = if x <? n then x else x - n.
Proof.
  intros Hx. destruct (Z.ltb_spec x n).
  - apply Z.mod_small. lia.
  - symmetry. apply (Z.mod_unique x n 1 (x - n)); lia.
Qed.

(** Bit [m] after the store that clears bit [k]. *)
Lemma testbit_clear_bit (pu k m : Z) :
  0 <= k -> 0 <= m < 32 ->
  Z.testbit (u32 (Z.land pu (Z.lnot (Z.shiftl 1 k)))) m =
    Z.testbit pu m && negb (m =? k).
Proof.
  intros Hk Hm.
  rewrite testbit_u32, Z.land_spec, Z.lnot_spec, testbit_bit by lia.
  replace (m <? 32) with true by (symmetry; apply Z.ltb_lt; lia).
  rewrite andb_true_r. reflexivity.
Qed.

(** A call that gets past its wait with an empty cancel queue, while the
    port at the start of the scan has its update bit set, serves that
    port. *)
Lemma fetch_work_serves_start (hcd : usb_hcd) (tw : Z * Z) :
  let v := hcd_priv hcd in
  let c := sched_start v in
  0 < port_count v <= 31 -> 0 <= port_sched_offset v ->
  urbp_list_cancel v = [] -> wait_passes tw ->
  Z.testbit (port_update v) (c + 1) = true ->
  exists hcd',
    ioc_fetch_work hcd (fst tw) (snd tw) =
      (0, Some (USB_VHCI_WORK_TYPE_PORT_STAT (c + 1)
                  (port_status (port_at v c)) (port_change (port_at v c))
                  (port_flags (port_at v c))), hcd') /\
    port_count (hcd_priv hcd') = port_count v /\
    urbp_list_cancel (hcd_priv hcd') = [] /\
    port_sched_offset (hcd_priv hcd') = c + 1 /\
    port_update (hcd_priv hcd') =
      u32 (Z.land (port_update v) (Z.lnot (Z.shiftl 1 (c + 1)))).
Proof.
  intros v c HN Ho Hc Hw Hbit. subst v c.
  pose proof (sched_start_range (hcd_priv hcd) (proj1 HN) Ho) as Hr.
  assert (Hpu : nz (port_update (hcd_priv hcd)) = true).
  { apply nz_true. intros H0. rewrite H0, Z.bits_0 in Hbit. discriminate. }
  assert (Hlocked : ioc_fetch_work hcd (fst tw) (snd tw) = fetch_work_locked hcd).
  { unfold ioc_fetch_work, has_work, hcd_to_vhci. rewrite Hpu.
    destruct (nz (fst tw)) eqn:Ht; [|reflexivity].
    apply nz_true in Ht. destruct Hw as [Hw|Hw]; [contradiction|].
    replace (snd tw <? 0) with false by (symmetry; apply Z.ltb_ge; lia).
    replace (snd tw =? 0) with false by (symmetry; apply Z.eqb_neq; lia).
    reflexivity. }
  rewrite Hlocked. unfold fetch_work_locked, hcd_to_vhci. rewrite Hc, Hpu.
  set (hcd1 := if port_count (hcd_priv hcd) <=? port_sched_offset (hcd_priv hcd)
               then with_vhci (set_port_sched_offset 0) hcd else hcd).
  assert (H1 : port_sched_offset (hcd_priv hcd1) = sched_start (hcd_priv hcd) /\
               port_count (hcd_priv hcd1) = port_count (hcd_priv hcd) /\
               port_update (hcd_priv hcd1) = port_update (hcd_priv hcd) /\
               ports (hcd_priv hcd1) = ports (hcd_priv hcd) /\
               urbp_list_cancel (hcd_priv hcd1) = urbp_list_cancel (hcd_priv hcd)).
  { subst hcd1. unfold sched_start. destruct (_ <=? _); repeat split. }
  destruct H1 as (Hoff & Hcnt & Hupd & Hports & Hcan).
  destruct (Z.to_nat (port_count (hcd_priv hcd1))) as [|n] eqn:En; [lia|].
  cbn [port_scan]. rewrite Hoff, Hcnt, Hupd, Z.add_0_l.
  rewrite (Z.mod_small (sched_start (hcd_priv hcd))) by lia.
  rewrite nz_land_bit, Hbit by lia.
  eexists. split.
  { unfold port_at. rewrite Hports. reflexivity. }
  unfold with_vhci. cbn [hcd_priv]. rewrite Hupd.
  destruct (hcd_priv hcd1) eqn:E1. cbn in Hcnt, Hcan |- *.
  repeat split; [exact Hcnt|congruence|apply u8_small; lia].
Qed.

(** After port [c] has been served, the next scan starts at the port that
    follows it in the rotation. *)
Lemma next_start_mod (n c j : Z) :
  0 < n -> 0 <= c < n -> 0 <= j ->
  ((if n <=? c + 1 then 0 else c + 1) + j) mod n = (c + (j + 1)) mod n.
Proof.
  intros Hn Hc Hj. destruct (Z.leb_spec n (c + 1)).
  - assert (c + 1 = n) by lia.
    replace (c + (j + 1)) with (j + 1 * n) by lia.
    rewrite Z.mod_add by lia. reflexivity.
  - f_equal. lia.
Qed.

Lemma fetch_many_rotation (waits : list (Z * Z)) :
  forall hcd : usb_hcd,
  let v := hcd_priv hcd in
  0 < port_count v <= 31 -> 0 <= port_sched_offset v ->
  urbp_list_cancel v = [] ->
  Forall wait_passes waits ->
  Z.of_nat (length waits) <= port_count v ->
  (forall j, 0 <= j < Z.of_nat (length waits) ->
     Z.testbit (port_update v) ((sched_start v + j) mod port_count v + 1)
       = true) ->
  map (fun r => (fst r, port_stat_index (snd r))) (fst (fetch_many waits hcd)) =
    map (fun j => (0, Some ((sched_start v + Z.of_nat j) mod port_count v + 1)))
        (seq 0 (length waits)).
Proof.
  induction waits as [|tw waits IH]; intros hcd v HN Ho Hc Hw Hlen Hbits;
    [reflexivity|].
  subst v. inversion Hw as [|? ? Htw Hws]; subst.
  pose proof (sched_start_range (hcd_priv hcd) (proj1 HN) Ho) as Hr.
  cbn [length] in Hlen, Hbits.
  assert (Hbit0 : Z.testbit (port_update (hcd_priv hcd))
                            (sched_start (hcd_priv hcd) + 1) = true).
  { specialize (Hbits 0 ltac:(lia)).
    rewrite Z.add_0_r, Z.mod_small in Hbits by lia. exact Hbits. }
  destruct (fetch_work_serves_start hcd tw HN Ho Hc Htw Hbit0)
    as (hcd' & Hcall & Hcnt & Hcan & Hoff & Hupd).
  destruct tw as [timeout wret]. cbn [fst snd] in Hcall.
  cbn [fetch_many]. rewrite Hcall.
  destruct (fetch_many waits hcd') as [rs hcd2] eqn:Hrest.
  cbn [fst snd map length seq port_stat_index].
  rewrite Z.add_0_r, Z.mod_small by lia. f_equal.
  assert (Hstart' : forall j, 0 <= j ->
            (sched_start (hcd_priv hcd') + j) mod port_count (hcd_priv hcd) =
            (sched_start (hcd_priv hcd) + (j + 1)) mod port_count (hcd_priv hcd)).
  { intros j Hj. unfold sched_start at 1. rewrite Hcnt, Hoff.
    apply next_start_mod; lia. }
  specialize (IH hcd'). rewrite Hrest in IH. cbn [fst] in IH.
  rewrite IH.
  - rewrite <- seq_shift, map_map. apply map_ext_in. intros j _.
    rewrite Hcnt, Hstart' by lia. do 3 f_equal. lia.
  - lia.
  - lia.
  - exact Hcan.
  - exact Hws.
  - lia.
  - intros j Hj. rewrite Hcnt, Hupd, Hstart' by lia.
    set (q := (sched_start (hcd_priv hcd) + (j + 1)) mod port_count (hcd_priv hcd)).
    assert (Hq : 0 <= q < port_count (hcd_priv hcd) /\
                 q <> sched_start (hcd_priv hcd)).
    { subst q. rewrite mod_wrap by lia.
      destruct (Z.ltb_spec (sched_start (hcd_priv hcd) + (j + 1))
                           (port_count (hcd_priv hcd))); lia. }
    rewrite testbit_clear_bit by lia.
    replace (q + 1 =? sched_start (hcd_priv hcd) + 1) with false
      by (symmetry; apply Z.eqb_neq; lia).
    rewrite andb_true_r. apply Hbits. lia.
Qed.

(** A call that yields a port-status unit has scanned the ports from the
    start of the rotation, wrapping around, and serves the first one whose
    update bit is set; it clears that bit and no other and records the
    offset just past the served port. *)
Lemma fetch_work_port_step (hcd hcd' : usb_hcd) (timeout wret index s c f : Z) :
  ioc_fetch_work hcd timeout wret =
    (0, Some (USB_VHCI_WORK_TYPE_PORT_STAT index s c f), hcd') ->
  let v := hcd_priv hcd in
  let v' := hcd_priv hcd' in
  port_count v <= 31 ->
  exists k,
    0 <= k < port_count v /\
    index = (sched_start v + k) mod port_count v + 1 /\
    Z.testbit (port_update v) index = true /\
    (forall k', 0 <= k' < k ->
       Z.testbit (port_update v)
                 ((sched_start v + k') mod port_count v + 1) = false) /\
    (forall m, 0 <= m < 32 ->
       Z.testbit (port_update v') m =
         Z.testbit (port_update v) m && negb (m =? index)) /\
    port_sched_offset v' = index /\
    ports v' = ports v /\
    s = port_status (port_at v (index - 1)) /\
    c = port_change (port_at v (index - 1)) /\
    f = port_flags (port_at v (index - 1)).
Proof.
  intros H v v' H31. subst v v'.
  destruct (ioc_fetch_work_wait _ _ _ _ _ _ H) as [(_ & Hw & _)|Hl];
    [discriminate|]. clear H.
  unfold fetch_work_locked, hcd_to_vhci in Hl.
  destruct (urbp_list_cancel (hcd_priv hcd)); [|discriminate].
  destruct (nz (port_update (hcd_priv hcd))).
  2:{ destruct (fetch_work_repeat_outcome _ _ _ _ Hl)
        as [[_ ?]|(_ & ? & ? & ? & ? & _ & _ & _ & ? & _)]; discriminate. }
  set (hcd1 := if port_count (hcd_priv hcd) <=? port_sched_offset (hcd_priv hcd)
               then with_vhci (set_port_sched_offset 0) hcd else hcd) in *.
  assert (H1 : port_sched_offset (hcd_priv hcd1) = sched_start (hcd_priv hcd) /\
               port_count (hcd_priv hcd1) = port_count (hcd_priv hcd) /\
               port_update (hcd_priv hcd1) = port_update (hcd_priv hcd) /\
               ports (hcd_priv hcd1) = ports (hcd_priv hcd) /\
               urbp_list_inbox (hcd_priv hcd1) = urbp_list_inbox (hcd_priv hcd)).
  { subst hcd1. unfold sched_start. destruct (_ <=? _); repeat split. }
  destruct H1 as (Hoff & Hcnt & Hupd & Hports & Hin).
  destruct (port_scan (hcd_priv hcd1) _ 0) as [port|] eqn:Hscan.
  2:{ destruct (fetch_work_repeat_outcome _ _ _ _ Hl)
        as [[_ ?]|(_ & ? & ? & ? & ? & _ & _ & _ & ? & _)]; discriminate. }
  assert (HN : 0 < port_count (hcd_priv hcd1)).
  { destruct (Z.to_nat (port_count (hcd_priv hcd1))) eqn:E; [discriminate|lia]. }
  apply port_scan_Some in Hscan; [|exact HN].
  destruct Hscan as (k & Hk & Hp & Hbit & Hfirst).
  rewrite Hoff, Hcnt in Hp. rewrite Hupd in Hbit.
  assert (Hport : 0 <= port < port_count (hcd_priv hcd)).
  { rewrite Hp. apply Z.mod_pos_bound. lia. }
  injection Hl as <- <- <- <- <-. exists k.
  replace (port + 1 - 1) with port by lia.
  split; [lia|]. split; [rewrite Hp; do 2 f_equal; lia|].
  split; [exact Hbit|]. split.
  { intros k' Hk'. specialize (Hfirst k' ltac:(lia)).
    rewrite Hoff, Hcnt, Hupd in Hfirst.
    rewrite (Z.add_comm (sched_start _) k'). exact Hfirst. }
  cbn. rewrite Hupd, Hports. split.
  { intros m Hm. apply testbit_clear_bit; lia. }
  split; [apply u8_small; lia|].
  unfold port_at. rewrite Hports. repeat split.
Qed.

Lemma rotation_In (s n p : Z) :
  0 <= s < n -> 1 <= p <= n ->
  In (0, Some p)
     (map (fun j => (0, Some ((s + Z.of_nat j) mod n + 1)))
          (seq 0 (Z.to_nat n))).
Proof.
  intros Hs Hp. apply in_map_iff.
  exists (Z.to_nat ((p - 1 - s) mod n)).
  pose proof (Z.mod_pos_bound (p - 1 - s) n ltac:(lia)) as Hb.
  split.
  - rewrite Z2Nat.id by lia. rewrite Z.add_mod_idemp_r by lia.
    replace (s + (p - 1 - s)) with (p - 1) by lia.
    rewrite Z.mod_small by lia. do 2 f_equal. lia.
  - apply in_seq. lia.
Qed.

Lemma rotation_NoDup (s n : Z) :
  0 <= s < n ->
  List.NoDup (map (fun j => (0, Some ((s + Z.of_nat j) mod n + 1)))
                  (seq 0 (Z.to_nat n))).
Proof.
  intros Hs. apply NoDup_map_NoDup_ForallPairs; [|apply seq_NoDup].
  intros a b Ha Hb Heq. apply in_seq in Ha, Hb.
  injection Heq as Heq.
  rewrite !mod_wrap in Heq by lia.
  destruct (Z.ltb_spec (s + Z.of_nat a) n), (Z.ltb_spec (s + Z.of_nat b) n); lia.
Qed.

(** X1.  Round-robin over the ports.  With N ports (1 to 31) that all have
    their pending-update bit set and an empty cancel queue, N consecutive
    work-fetch calls that get past their wait all return 0 and report the
    ports in rotating order, beginning at the port the scan starts at (the
    recorded offset, or port 1 once the offset has run past the last port)
    and wrapping around; every port is reported, and none twice. *)
Theorem fetch_many_round_robin (hcd : usb_hcd) (waits : list (Z * Z)) :
  let v := hcd_priv hcd in
  let reports :=
    map (fun r => (fst r, port_stat_index (snd r)))
        (fst (fetch_many waits hcd)) in
  0 < port_count v <= 31 -> 0 <= port_sched_offset v ->
  urbp_list_cancel v = [] ->
  Forall wait_passes waits ->
  length waits = Z.to_nat (port_count v) ->
  (forall p, 1 <= p <= port_count v -> Z.testbit (port_update v) p = true) ->
  reports =
    map (fun j => (0, Some ((sched_start v + Z.of_nat j) mod port_count v + 1)))
        (seq 0 (Z.to_nat (port_count v))) /\
  List.NoDup reports /\
  (forall p, 1 <= p <= port_count v -> In (0, Some p) reports).
Proof.
  intros v reports HN Ho Hc Hw Hlen Hall. subst v reports.
  pose proof (sched_start_range (hcd_priv hcd) (proj1 HN) Ho) as Hr.
  rewrite (fetch_many_rotation waits hcd HN Ho Hc Hw).
  - rewrite Hlen. split; [reflexivity|]. split.
    + apply rotation_NoDup. exact Hr.
    + intros p Hp. apply rotation_In; assumption.
  - lia.
  - intros j Hj. apply Hall.
    pose proof (Z.mod_pos_bound (sched_start (hcd_priv hcd) + j)
                  (port_count (hcd_priv hcd)) (proj1 HN)).
    lia.
Qed.

Lemma fetch_many_round_robin_witness :
  map (fun r => (fst r, port_stat_index (snd r)))
      (fst (fetch_many [(0, 0); (100, 1); (0, 0); (-1, 1)] hcd_all_pending)) =
    [(0, Some 3); (0, Some 4); (0, Some 1); (0, Some 2)].
Proof.
  refine (proj1 (fetch_many_round_robin hcd_all_pending
                   [(0, 0); (100, 1); (0, 0); (-1, 1)] _ _ _ _ _ _)).
  - change (0 < 4 <= 31). lia.
  - change (0 <= 2). lia.
  - reflexivity.
  - unfold wait_passes.
    repeat (apply List.Forall_cons; [cbn [fst snd]; lia|]).
    apply List.Forall_nil.
  - reflexivity.
  - change (port_count (hcd_priv hcd_all_pending)) with 4. intros p Hp.
    assert (H : p = 1 \/ p = 2 \/ p = 3 \/ p = 4) by lia.
    destruct H as [-> | [-> | [-> | ->]]]; reflexivity.
Defined.

(** ** No urb is lost or duplicated *)

Lemma queued_split (q : urbp_list) (v : vhci) :
  queued v ≡ₚ map handle_of (get_list q v) ++ queued_elsewhere q v.
Proof.
  unfold queued, queued_elsewhere. destruct q; cbn [get_list];
    rewrite !map_app.
  - reflexivity.
  - apply Permutation_app_swap_app.
  - rewrite (app_assoc (map handle_of (urbp_list_inbox v))).
    rewrite Permutation_app_swap_app, <- app_assoc. reflexivity.
  - rewrite !app_assoc. rewrite Permutation_app_comm, <- !app_assoc.
    reflexivity.
Qed.

Lemma queued_elsewhere_set_list (q : urbp_list) (l : list vhci_urb_priv)
    (v : vhci) :
  queued_elsewhere q (set_list q l v) = queued_elsewhere q v.
Proof. destruct q, v; reflexivity. Qed.

Lemma queued_set_list (q : urbp_list) (l : list vhci_urb_priv) (v : vhci) :
  queued (set_list q l v) ≡ₚ map handle_of l ++ queued_elsewhere q v.
Proof.
  rewrite (queued_split q), get_set_list, queued_elsewhere_set_list.
  reflexivity.
Qed.

Lemma find_urbp_del_perm (handle : Z) (l : list vhci_urb_priv)
    (e : vhci_urb_priv) :
  find_urbp handle l = Some e -> l ≡ₚ e :: del_urbp handle l.
Proof.
  intros H. destruct (find_urbp_Some _ _ _ H) as (l1 & l2 & -> & Hl1 & Hh).
  rewrite (proj2 (find_urbp_split handle l1 l2 e Hl1 Hh)).
  symmetry. apply Permutation_middle.
Qed.

Lemma queued_list_add_tail (q : urbp_list) (e : vhci_urb_priv) (v : vhci) :
  queued (list_add_tail q e v) ≡ₚ handle_of e :: queued v.
Proof.
  unfold list_add_tail. rewrite queued_set_list, (queued_split q v), map_app.
  cbn [map]. rewrite <- app_assoc. cbn [app].
  symmetry. apply Permutation_middle.
Qed.

(** Unlinking the entry that a lookup by [handle] would find. *)
Lemma queued_list_del (q : urbp_list) (e e' : vhci_urb_priv) (v : vhci) :
  find_urbp (handle_of e') (get_list q v) = Some e ->
  handle_of e' :: queued (list_del q e' v) ≡ₚ queued v.
Proof.
  intros H. unfold list_del.
  rewrite queued_set_list, (queued_split q v).
  rewrite (find_urbp_del_perm _ _ _ H) at 2. cbn [map app].
  destruct (find_urbp_Some _ _ _ H) as (_ & _ & _ & _ & ->). reflexivity.
Qed.

Lemma given_back_app (tr1 tr2 : list event) :
  given_back (tr1 ++ tr2) = given_back tr1 ++ given_back tr2.
Proof. unfold given_back. apply omap_app. Qed.

Lemma accounted_giveback (q : urbp_list) (e e' : vhci_urb_priv) (hcd : usb_hcd) :
  find_urbp (handle_of e') (get_list q (hcd_priv hcd)) = Some e ->
  accounted (vhci_urb_giveback q e' hcd) ≡ₚ accounted hcd.
Proof.
  intros H. unfold accounted, vhci_urb_giveback, emit, with_vhci.
  cbn [hcd_priv trace]. rewrite given_back_app.
  change (given_back [usb_hcd_giveback_urb (urbp_urb e') (urbp_status e')])
    with [handle_of e'].
  rewrite <- (queued_list_del q e e' (hcd_priv hcd) H).
  rewrite (Permutation_app_comm (given_back (trace hcd))).
  cbn [app]. rewrite <- Permutation_middle. reflexivity.
Qed.

Lemma queued_list_move_tail (q1 q2 : urbp_list) (e : vhci_urb_priv) (v : vhci) :
  find_urbp (handle_of e) (get_list q1 v) = Some e ->
  queued (list_move_tail q1 q2 e v) ≡ₚ queued v.
Proof.
  intros H. unfold list_move_tail.
  rewrite queued_list_add_tail. apply (queued_list_del q1 e e v H).
Qed.

(** ** What a process unit tells the worker *)

Lemma conv_urb_type_control (pipe : Z) :
  conv_urb_type (usb_pipetype pipe) = USB_VHCI_URB_TYPE_CONTROL <->
  usb_pipecontrol pipe = true.
Proof.
  unfold conv_urb_type, usb_pipecontrol, usb_pipetype.
  rewrite <- Z.land_assoc. change (Z.land 3 3) with 3.
  eval_eqb.
  assert (Ht : 0 <= Z.land (Z.shiftr pipe 30) 3 < 4).
  { change 3 with (Z.ones 2). rewrite Z.land_ones by lia.
    apply Z.mod_pos_bound. reflexivity. }
  destruct (Z.eqb_spec (Z.land (Z.shiftr pipe 30) 3) PIPE_ISOCHRONOUS) as [E|E];
    [rewrite E; split; discriminate|].
  destruct (Z.eqb_spec (Z.land (Z.shiftr pipe 30) 3) PIPE_INTERRUPT) as [E1|E1];
    [rewrite E1; split; discriminate|].
  destruct (Z.eqb_spec (Z.land (Z.shiftr pipe 30) 3) PIPE_BULK) as [E2|E2];
    [rewrite E2; split; discriminate|].
  split; [intros _|reflexivity].
  apply Z.eqb_eq. unfold PIPE_ISOCHRONOUS, PIPE_INTERRUPT, PIPE_BULK,
    PIPE_CONTROL in *. lia.
Qed.

Ltac unit_fin Hty :=
  repeat split; intros; try discriminate; try congruence; try lia;
  try (exfalso;
       match goal with
       | E : conv_urb_type _ = _ |- _ => apply Hty in E; discriminate
       end);
  try (apply Hty; reflexivity).

(** X2.  Whatever urb passes the checks of work-fetch, the unit describing
    it is consistent: it is typed as a control transfer exactly when the
    urb's pipe is a control pipe, and exactly then it carries a setup
    packet, the urb's own; the buffer length announced never exceeds the
    urb's buffer length; a non-zero announced length is always backed by a
    buffer; and a transfer towards the host is never announced with length
    zero. *)
Theorem process_unit_consistent (u : urb) (w : usb_vhci_ioc_work_urb) :
  process_urb_work u = Some w ->
  (work_type w = USB_VHCI_URB_TYPE_CONTROL <-> usb_pipecontrol (pipe u) = true) /\
  (work_setup_packet w <> None <-> usb_pipecontrol (pipe u) = true) /\
  (usb_pipecontrol (pipe u) = true -> work_setup_packet w = setup_packet u) /\
  work_buffer_length w <= transfer_buffer_length u /\
  (work_buffer_length w <> 0 -> transfer_buffer u <> None) /\
  (is_urb_dir_in u <> Some 0 -> work_buffer_length w <> 0).
Proof.
  unfold process_urb_work, is_urb_dir_in. intros H.
  pose proof (conv_urb_type_control (pipe u)) as Hty.
  destruct (usb_pipecontrol (pipe u)) eqn:Hc.
  - destruct (setup_packet u) as [cmd|]; [|discriminate].
    destruct (Z.ltb_spec (transfer_buffer_length u) (wLength cmd));
      [discriminate|].
    destruct (nz (Z.land (bRequestType cmd) 128)) eqn:Hin;
      destruct (nz (wLength cmd)) eqn:Hl;
      destruct (transfer_buffer u);
      cbn [negb orb andb is_null] in H; try discriminate;
      injection H as <-; cbn [work_type work_setup_packet work_buffer_length];
      rewrite ?nz_true, ?nz_false in *; unit_fin Hty.
  - destruct (nz (usb_pipein (pipe u))) eqn:Hin;
      destruct (nz (transfer_buffer_length u)) eqn:Hl;
      destruct (transfer_buffer u);
      cbn [negb orb andb is_null] in H; try discriminate;
      injection H as <-; cbn [work_type work_setup_packet work_buffer_length];
      rewrite ?nz_true, ?nz_false in *; unit_fin Hty.
Qed.

Lemma process_unit_consistent_witness :
  let w := mk_work_urb 0 0x80 USB_VHCI_URB_TYPE_CONTROL
             (mk_urb_flags false false false) 18
             (Some (mk_ctrlrequest 0x80 6 0x0100 0 18)) 0 0 in
  process_urb_work (control_in_urb 5) = Some w /\
  (work_type w = USB_VHCI_URB_TYPE_CONTROL <->
   usb_pipecontrol (pipe (control_in_urb 5)) = true) /\
  work_buffer_length w <= transfer_buffer_length (control_in_urb 5).
Proof.
  split; [reflexivity|].
  pose proof (process_unit_consistent (control_in_urb 5) _ eq_refl) as H.
  split; [exact (proj1 H)|exact (proj1 (proj2 (proj2 (proj2 H))))].
Defined.

(** ** The status bitmap of the root hub *)

Lemma bitmap_bit_set (buf : list Z) (a k : Z) :
  0 <= a -> 0 <= k -> (Z.to_nat (a / 8) < length buf)%nat ->
  bitmap_bit
    (alter (fun b => u8 (Z.lor b (Z.shiftl 1 (a mod 8)))) (Z.to_nat (a / 8)) buf)
    k
  = bitmap_bit buf k || (k =? a).
Proof.
  intros Ha Hk Hlen. unfold bitmap_bit. rewrite !nth_lookup.
  pose proof (Z.mod_pos_bound a 8 ltac:(lia)) as Hma.
  pose proof (Z.mod_pos_bound k 8 ltac:(lia)) as Hmk.
  pose proof (Z.div_mod a 8 ltac:(lia)) as Hda.
  pose proof (Z.div_mod k 8 ltac:(lia)) as Hdk.
  pose proof (Z.div_pos a 8 Ha ltac:(lia)) as Hqa.
  pose proof (Z.div_pos k 8 Hk ltac:(lia)) as Hqk.
  destruct (Nat.eq_dec (Z.to_nat (k / 8)) (Z.to_nat (a / 8))) as [E|E].
  - rewrite E, list_lookup_alter_eq.
    destruct (lookup_lt_is_Some_2 buf _ Hlen) as [b ->].
    cbn [fmap option_fmap option_map default]. unfold id.
    rewrite testbit_u8, Z.lor_spec, testbit_bit by lia.
    replace (k mod 8 <? 8) with true by (symmetry; apply Z.ltb_lt; lia).
    rewrite andb_true_r. f_equal.
    apply Z2Nat.inj in E; [|lia|lia].
    destruct (Z.eqb_spec (k mod 8) (a mod 8)), (Z.eqb_spec k a);
      try reflexivity; exfalso; [lia|congruence].
  - rewrite list_lookup_alter_ne by congruence.
    replace (k =? a) with false; [rewrite orb_false_r; reflexivity|].
    symmetry. apply Z.eqb_neq. intros ->. contradiction.
Qed.

Lemma hub_status_loop_spec (v : vhci) (n : nat) :
  forall (port : Z) (buf buf' : list Z) (retval retval' : Z),
  0 <= port ->
  (Z.to_nat ((port + Z.of_nat n) / 8) < length buf)%nat ->
  hub_status_loop v n port buf retval = (buf', retval') ->
  length buf' = length buf /\
  (forall k, 0 <= k ->
     bitmap_bit buf' k =
       bitmap_bit buf k ||
       ((port + 1 <=? k) && (k <=? port + Z.of_nat n) &&
        nz (port_change (port_at v (k - 1))))) /\
  ((retval' = 1 /\
    exists p, port <= p < port + Z.of_nat n /\ port_change (port_at v p) <> 0) \/
   (retval' = retval /\
    forall p, port <= p < port + Z.of_nat n -> port_change (port_at v p) = 0)).
Proof.
  induction n as [|n IH]; intros port buf buf' retval retval' Hp Hlen H;
    cbn [hub_status_loop] in H.
  - injection H as <- <-. split; [reflexivity|]. split.
    + intros k Hk.
      replace ((port + 1 <=? k) && (k <=? port + Z.of_nat 0)) with false.
      * rewrite orb_false_r. reflexivity.
      * symmetry. apply andb_false_iff.
        destruct (Z.leb_spec (port + 1) k); [right|left; reflexivity].
        apply Z.leb_gt. lia.
    + right. split; [reflexivity|]. intros p Hr. lia.
  - assert (Hlen1 : (Z.to_nat ((port + 1) / 8) < length buf)%nat).
    { assert ((port + 1) / 8 <= (port + Z.of_nat (S n)) / 8)
        by (apply Z.div_le_mono; lia).
      pose proof (Z.div_pos (port + 1) 8 ltac:(lia) ltac:(lia)). lia. }
    destruct (nz (port_change (port_at v port))) eqn:Hc.
    + apply IH in H; [|lia|rewrite length_alter;
                           replace (port + 1 + Z.of_nat n)
                             with (port + Z.of_nat (S n)) by lia; exact Hlen].
      destruct H as (Hl & Hbits & Hret). rewrite length_alter in Hl.
      split; [exact Hl|]. split.
      * intros k Hk. rewrite Hbits, bitmap_bit_set by lia.
        rewrite <- orb_assoc. f_equal.
        destruct (Z.eqb_spec k (port + 1)) as [->|Hne].
        -- replace (port + 1 - 1) with port by lia. rewrite Hc.
           replace (port + 1 <=? port + 1) with true
             by (symmetry; apply Z.leb_le; lia).
           replace (port + 1 <=? port + Z.of_nat (S n)) with true
             by (symmetry; apply Z.leb_le; lia).
           reflexivity.
        -- cbn [orb]. f_equal.
           replace (k <=? port + 1 + Z.of_nat n) with (k <=? port + Z.of_nat (S n))
             by (f_equal; lia).
           destruct (Z.leb_spec (port + 1 + 1) k), (Z.leb_spec (port + 1) k);
             try reflexivity; lia.
      * left. apply nz_true in Hc. destruct Hret as [[-> (p & Hr & Hp')]|[-> _]].
        -- split; [reflexivity|]. exists p. split; [lia|exact Hp'].
        -- split; [reflexivity|]. exists port. split; [lia|exact Hc].
    + apply IH in H; [|lia|replace (port + 1 + Z.of_nat n)
                             with (port + Z.of_nat (S n)) by lia; exact Hlen].
      destruct H as (Hl & Hbits & Hret). apply nz_false in Hc.
      split; [exact Hl|]. split.
      * intros k Hk. rewrite Hbits by lia. f_equal.
        destruct (Z.eqb_spec k (port + 1)) as [->|Hne].
        -- replace (port + 1 - 1) with port by lia.
           replace (nz (port_change (port_at v port))) with false
             by (symmetry; apply nz_false; exact Hc).
           rewrite !andb_false_r. reflexivity.
        -- f_equal.
           replace (k <=? port + 1 + Z.of_nat n) with (k <=? port + Z.of_nat (S n))
             by (f_equal; lia).
           destruct (Z.leb_spec (port + 1 + 1) k), (Z.leb_spec (port + 1) k);
             try reflexivity; lia.
      * destruct Hret as [[-> (p & Hr & Hp')]|[-> Hall]].
        -- left. split; [reflexivity|]. exists p. split; [lia|exact Hp'].
        -- right. split; [reflexivity|]. intros p Hr.
           destruct (Z.eq_dec p port) as [->|Hne]; [exact Hc|apply Hall; lia].
Qed.

Lemma bitmap_bit_zero (n : nat) (k : Z) : bitmap_bit (replicate n 0) k = false.
Proof.
  unfold bitmap_bit. rewrite nth_lookup.
  destruct (replicate n 0 !! Z.to_nat (k / 8)) as [b|] eqn:E; cbn [default].
  - apply lookup_replicate in E as [-> _]. apply Z.bits_0.
  - apply Z.bits_0.
Qed.

(** X3.  The root-hub status poll.  The bitmap handed back has
    [1 + port_count / 8] bytes.  While the controller is hardware-accessible,
    bit k of the bitmap is set exactly when k is the number (from 1) of a
    port whose change register is non-zero (bit 0, the hub itself, is never
    set), and the call returns 1 if there is such a port and 0 otherwise.
    While it is not accessible, the call returns 0 with an all-zero
    bitmap. *)
Theorem hub_status_bitmap (hcd : usb_hcd) :
  let v := hcd_to_vhci hcd in
  let retval := fst (fst (vhci_hub_status hcd)) in
  let buf := snd (fst (vhci_hub_status hcd)) in
  0 <= port_count v ->
  length buf = Z.to_nat (1 + port_count v / 8) /\
  (hw_accessible hcd = true ->
   (forall k, 0 <= k ->
      (bitmap_bit buf k = true <->
       1 <= k <= port_count v /\ port_change (port_at v (k - 1)) <> 0)) /\
   (retval = 1 <->
    exists p, 0 <= p < port_count v /\ port_change (port_at v p) <> 0) /\
   (retval = 0 \/ retval = 1)) /\
  (hw_accessible hcd = false ->
   retval = 0 /\ forall k, bitmap_bit buf k = false).
Proof.
  intros v retval buf HN. subst v retval buf.
  unfold vhci_hub_status, hcd_to_vhci in *.
  destruct (hw_accessible hcd); cbn [negb].
  2:{ cbn [fst snd]. split; [apply length_replicate|].
      split; [discriminate|]. intros _. split; [reflexivity|].
      intros k. apply bitmap_bit_zero. }
  destruct (hub_status_loop _ _ 0 _ 0) as [buf' retval'] eqn:Hloop.
  cbn [fst snd].
  apply hub_status_loop_spec in Hloop; [|lia|].
  2:{ rewrite length_replicate.
      replace (0 + Z.of_nat (Z.to_nat (port_count (hcd_priv hcd))))
        with (port_count (hcd_priv hcd)) by lia.
      pose proof (Z.div_pos (port_count (hcd_priv hcd)) 8 HN ltac:(lia)).
      set (q := port_count (hcd_priv hcd) / 8) in *. lia. }
  destruct Hloop as (Hlen & Hbits & Hret).
  rewrite length_replicate in Hlen.
  replace (0 + Z.of_nat (Z.to_nat (port_count (hcd_priv hcd))))
    with (port_count (hcd_priv hcd)) in * by lia.
  split; [exact Hlen|]. split; [|discriminate]. intros _. split; [|split].
  - intros k Hk. rewrite Hbits, bitmap_bit_zero by lia. cbn [orb].
    rewrite !andb_true_iff, nz_true, !Z.leb_le. split.
    + intros [[H1 H2] H3]. split; [lia|exact H3].
    + intros [H1 H3]. split; [split; lia|exact H3].
  - destruct Hret as [[-> (p & Hr & Hp)]|[-> Hall]].
    + split; [intros _; exists p; split; [lia|exact Hp]|reflexivity].
    + split; [discriminate|]. intros (p & Hr & Hp). exfalso.
      apply Hp, Hall. lia.
  - destruct Hret as [[-> _]|[-> _]]; [right|left]; reflexivity.
Qed.

Lemma hub_status_bitmap_witness :
  fst (fst (vhci_hub_status hcd_enabled)) = 1 /\
  bitmap_bit (snd (fst (vhci_hub_status hcd_enabled))) 1 = true /\
  bitmap_bit (snd (fst (vhci_hub_status hcd_enabled))) 0 = false.
Proof.
  pose proof (hub_status_bitmap hcd_enabled ltac:(cbn; lia)) as (_ & H & _).
  specialize (H eq_refl). destruct H as (Hbits & Hret & _).
  split; [|split].
  - apply Hret. exists 0. split; [cbn; lia|discriminate].
  - apply Hbits; [lia|]. split; [cbn; lia|discriminate].
  - destruct (bitmap_bit _ 0) eqn:E; [|reflexivity].
    apply Hbits in E; [|lia]. destruct E as [E _]. lia.
Defined.

(** ** Shutdown *)

Lemma maybe_set_status_urb (e : vhci_urb_priv) (status : Z) :
  urbp_urb (maybe_set_status e status) = urbp_urb e.
Proof. unfold maybe_set_status. destruct (_ =? _); reflexivity. Qed.

Lemma maybe_set_status_handle (e : vhci_urb_priv) (status : Z) :
  handle_of (maybe_set_status e status) = handle_of e.
Proof. unfold handle_of. rewrite maybe_set_status_urb. reflexivity. Qed.

Lemma get_set_list_ne (q q' : urbp_list) (l : list vhci_urb_priv) (v : vhci) :
  q <> q' -> get_list q' (set_list q l v) = get_list q' v.
Proof. destruct q, q', v; intros H; try reflexivity; contradiction. Qed.

Lemma drain_list_spec (q : urbp_list) (l : list vhci_urb_priv) :
  forall hcd : usb_hcd,
  get_list q (hcd_priv hcd) = l ->
  drain_list q l hcd =
    mk_hcd (hw_accessible hcd) (set_list q [] (hcd_priv hcd))
           (trace hcd ++ shutdown_events l).
Proof.
  induction l as [|e l IH]; intros hcd Hl; cbn [drain_list shutdown_events map].
  - rewrite app_nil_r, <- Hl, set_list_same. destruct hcd; reflexivity.
  - rewrite IH.
    + unfold vhci_urb_giveback, emit, with_vhci, list_del.
      cbn [hw_accessible hcd_priv trace].
      rewrite set_list_twice, maybe_set_status_urb, <- app_assoc. reflexivity.
    + unfold vhci_urb_giveback, emit, with_vhci, list_del.
      cbn [hw_accessible hcd_priv trace].
      rewrite get_set_list, maybe_set_status_handle, Hl. cbn [del_urbp].
      rewrite Z.eqb_refl. reflexivity.
Qed.

Lemma hcd_remove_trace (hcd : usb_hcd) :
  trace (vhci_hcd_remove hcd) =
    trace hcd ++ shutdown_events (urbp_list_inbox (hcd_priv hcd))
              ++ shutdown_events (urbp_list_fetched (hcd_priv hcd))
              ++ shutdown_events (urbp_list_cancel (hcd_priv hcd))
              ++ shutdown_events (urbp_list_canceling (hcd_priv hcd))
              ++ [usb_remove_hcd; usb_put_hcd] /\
  hcd_priv (vhci_hcd_remove hcd) =
    mk_vhci VHCI_RH_RESET [] 0 (port_sched_offset (hcd_priv hcd))
      (port_update (hcd_priv hcd)) (frame_num (hcd_priv hcd)) [] [] [] [].
Proof.
  unfold vhci_hcd_remove, hcd_to_vhci.
  rewrite (drain_list_spec Inbox _ hcd eq_refl).
  rewrite (drain_list_spec Fetched _ _ eq_refl).
  rewrite (drain_list_spec Cancel _ _ eq_refl).
  rewrite (drain_list_spec Canceling _ _ eq_refl).
  unfold vhci_stop, emit, with_vhci.
  cbn [hcd_priv trace hw_accessible].
  destruct (hcd_priv hcd). cbn. rewrite <- !app_assoc.
  split; reflexivity.
Qed.

(** X4.  Removal of the controller drains the four queues in the order
    inbox, fetched, cancel, canceling, and then hands the controller to
    [usb_remove_hcd], which stops it through [vhci_stop], and drops the
    reference with [usb_put_hcd]: every urb that was queued has been given
    back exactly once, in that order, with its status field after the
    compare-and-set of -ESHUTDOWN, before the two closing calls; afterwards
    every queue is empty, the port array is released, the port count is 0
    and the root hub is in the reset state, while the pending-update mask,
    the scheduling offset and the frame number are as they were. *)
Theorem hcd_remove_drains (hcd : usb_hcd) :
  let v := hcd_to_vhci hcd in
  let hcd' := vhci_hcd_remove hcd in
  (forall q, get_list q (hcd_to_vhci hcd') = []) /\
  trace hcd' =
    trace hcd ++ shutdown_events (urbp_list_inbox v)
              ++ shutdown_events (urbp_list_fetched v)
              ++ shutdown_events (urbp_list_cancel v)
              ++ shutdown_events (urbp_list_canceling v)
              ++ [usb_remove_hcd; usb_put_hcd] /\
  ports (hcd_to_vhci hcd') = [] /\
  port_count (hcd_to_vhci hcd') = 0 /\
  rh_state (hcd_to_vhci hcd') = VHCI_RH_RESET /\
  port_update (hcd_to_vhci hcd') = port_update v /\
  port_sched_offset (hcd_to_vhci hcd') = port_sched_offset v /\
  frame_num (hcd_to_vhci hcd') = frame_num v.
Proof.
  intros v hcd'. subst v hcd'. unfold hcd_to_vhci.
  destruct (hcd_remove_trace hcd) as [H1 H2]. rewrite H2.
  split; [intros q; destruct q; reflexivity|].
  split; [exact H1|]. repeat split.
Qed.

(** ** Calls that leave the urbs alone *)

Lemma urbs_untouched_refl (h : usb_hcd) : urbs_untouched h h.
Proof.
  split; [reflexivity|]. exists []. rewrite app_nil_r. split; reflexivity.
Qed.

Lemma urbs_untouched_trans (h1 h2 h3 : usb_hcd) :
  urbs_untouched h1 h2 -> urbs_untouched h2 h3 -> urbs_untouched h1 h3.
Proof.
  intros [Hq1 (e1 & Ht1 & Hf1)] [Hq2 (e2 & Ht2 & Hf2)]. split.
  - intros q. rewrite Hq2. apply Hq1.
  - exists (e1 ++ e2). rewrite Ht2, Ht1, <- app_assoc. split; [reflexivity|].
    rewrite forallb_app, Hf1, Hf2. reflexivity.
Qed.

Lemma urbs_untouched_emit (e : event) (h : usb_hcd) :
  quiet e = true -> urbs_untouched h (emit e h).
Proof.
  intros He. split; [reflexivity|]. exists [e]. split; [reflexivity|].
  cbn [forallb]. rewrite He. reflexivity.
Qed.

Lemma urbs_untouched_with_vhci (f : vhci -> vhci) (h : usb_hcd) :
  (forall q, get_list q (f (hcd_priv h)) = get_list q (hcd_priv h)) ->
  urbs_untouched h (with_vhci f h).
Proof.
  intros Hf. split; [exact Hf|]. exists []. rewrite app_nil_r.
  split; reflexivity.
Qed.

Lemma urbs_untouched_port_update (port : Z) (h : usb_hcd) :
  urbs_untouched h (userspace_needs_port_update port h).
Proof.
  unfold userspace_needs_port_update, trigger_work_event.
  eapply urbs_untouched_trans; [|apply urbs_untouched_emit; reflexivity].
  apply urbs_untouched_with_vhci. intros q. destruct q; reflexivity.
Qed.

Lemma urbs_untouched_update_port (i : Z) (f : vhci_port -> vhci_port)
    (h : usb_hcd) :
  urbs_untouched h (with_vhci (update_port i f) h).
Proof.
  apply urbs_untouched_with_vhci. intros q. destruct q; reflexivity.
Qed.

Lemma urbs_untouched_if (b : bool) (h h1 h2 : usb_hcd) :
  urbs_untouched h h1 -> urbs_untouched h h2 ->
  urbs_untouched h (if b then h1 else h2).
Proof. destruct b; auto. Qed.

Lemma port_feature_request_untouched
    (sw : Z -> vhci_port -> option (vhci_port * bool)) (v i : Z)
    (h h' : usb_hcd) :
  port_feature_request sw v i h = Some h' -> urbs_untouched h h'.
Proof.
  unfold port_feature_request.
  destruct (sw v _) as [[p' b]|]; [|discriminate]. intros H. simplify_eq.
  apply urbs_untouched_if.
  - eapply urbs_untouched_trans;
      [apply urbs_untouched_update_port|apply urbs_untouched_port_update].
  - apply urbs_untouched_update_port.
Qed.

Lemma hub_control_switch_untouched (t v i l : Z) (h h' : usb_hcd)
    (buf : list Z) :
  hub_control_switch t v i l h = Some (buf, h') -> urbs_untouched h h'.
Proof.
  unfold hub_control_switch. intros H.
  repeat match type of H with
         | (if ?b then _ else _) = _ => destruct b
         end;
    try discriminate; simplify_eq; try apply urbs_untouched_refl.
  all: match type of H with
       | option_map _ ?r = _ => destruct r eqn:E; [|discriminate]
       end; cbn [option_map] in H; simplify_eq;
       eapply port_feature_request_untouched; exact E.
Qed.

Lemma hub_control_untouched (h : usb_hcd) (t v i l : Z) :
  urbs_untouched h (snd (vhci_hub_control h t v i l)).
Proof.
  unfold vhci_hub_control. destruct (negb _); [apply urbs_untouched_refl|].
  destruct (hub_control_switch t v i l h) as [[buf h1]|] eqn:E; cbn [snd].
  - apply hub_control_switch_untouched in E.
    apply urbs_untouched_if; [|exact E].
    eapply urbs_untouched_trans; [exact E|].
    apply urbs_untouched_emit; reflexivity.
  - apply urbs_untouched_if; [|apply urbs_untouched_refl].
    apply urbs_untouched_emit; reflexivity.
Qed.

Lemma port_stat_untouched (h : usb_hcd) (index status change : Z) :
  urbs_untouched h (snd (ioc_port_stat h index status change)).
Proof.
  unfold ioc_port_stat.
  repeat match goal with
         | |- context [if ?b then _ else _] => destruct b
         end; try apply urbs_untouched_refl.
  destruct (port_stat_switch _ _ _); [|apply urbs_untouched_refl]. cbn [snd].
  eapply urbs_untouched_trans; [apply urbs_untouched_update_port|].
  eapply urbs_untouched_trans; [apply urbs_untouched_port_update|].
  apply urbs_untouched_emit; reflexivity.
Qed.

Lemma bus_suspend_loop_untouched (n : nat) :
  forall (port : Z) (h : usb_hcd),
  urbs_untouched h (bus_suspend_loop n port h).
Proof.
  induction n as [|n IH]; intros port h; cbn [bus_suspend_loop].
  - apply urbs_untouched_refl.
  - eapply urbs_untouched_trans; [|apply IH].
    apply urbs_untouched_if; [|apply urbs_untouched_refl].
    eapply urbs_untouched_trans;
      [apply urbs_untouched_update_port|apply urbs_untouched_port_update].
Qed.

Lemma bus_suspend_untouched (h : usb_hcd) :
  urbs_untouched h (snd (vhci_bus_suspend h)).
Proof.
  unfold vhci_bus_suspend. cbn [snd].
  eapply urbs_untouched_trans; [apply bus_suspend_loop_untouched|].
  apply urbs_untouched_with_vhci. intros q. destruct q; reflexivity.
Qed.

Lemma bus_resume_untouched (h : usb_hcd) :
  urbs_untouched h (snd (vhci_bus_resume h)).
Proof.
  unfold vhci_bus_resume. destruct (negb _); cbn [snd].
  - apply urbs_untouched_refl.
  - apply urbs_untouched_with_vhci. intros q. destruct q; reflexivity.
Qed.

Lemma hcd_suspend_untouched (h : usb_hcd) :
  urbs_untouched h (snd (vhci_hcd_suspend h)).
Proof.
  unfold vhci_hcd_suspend. destruct (rh_state _); cbn [snd];
    try apply urbs_untouched_refl.
  all: split; [reflexivity|]; exists []; rewrite app_nil_r; split; reflexivity.
Qed.

Lemma hcd_resume_untouched (h : usb_hcd) :
  urbs_untouched h (snd (vhci_hcd_resume h)).
Proof.
  unfold vhci_hcd_resume. cbn [snd]. split; [reflexivity|].
  exists [usb_hcd_poll_rh_status]. split; reflexivity.
Qed.

(** ** The life cycle of an urb *)

Lemma urb_steps_one (h h' : usb_hcd) (l : list Z) :
  urb_step h l h' -> urb_steps h l h'.
Proof.
  intros H. rewrite <- (app_nil_r l).
  eapply steps_cons; [exact H|apply steps_nil].
Qed.

Lemma urb_steps_trans (h1 h2 h3 : usb_hcd) (l1 l2 : list Z) :
  urb_steps h1 l1 h2 -> urb_steps h2 l2 h3 -> urb_steps h1 (l1 ++ l2) h3.
Proof.
  induction 1 as [|h1 l1 h2 l1' h2' Hs Hss IH]; intros H3.
  - exact H3.
  - rewrite <- app_assoc. eapply steps_cons; [exact Hs|]. apply IH, H3.
Qed.

Lemma urb_steps_untouched (h h' : usb_hcd) :
  urbs_untouched h h' -> urb_steps h [] h'.
Proof. intros H. apply urb_steps_one, step_untouched, H. Qed.

Lemma find_urbp_head (e : vhci_urb_priv) (l : list vhci_urb_priv) :
  find_urbp (handle_of e) (e :: l) = Some e.
Proof. cbn [find_urbp]. rewrite Z.eqb_refl. reflexivity. Qed.

Lemma maybe_set_status_same (e : vhci_urb_priv) :
  urbp_status e = urbp_status (maybe_set_status e (urbp_status e)).
Proof.
  unfold maybe_set_status. destruct (_ =? _); reflexivity.
Qed.

Lemma urb_enqueue_steps (h : usb_hcd) (u : urb) (k : bool) (r : Z) :
  urb_steps h (if fst (vhci_urb_enqueue h u k r) =? 0 then [urb_handle u] else [])
            (snd (vhci_urb_enqueue h u k r)).
Proof.
  unfold vhci_urb_enqueue.
  destruct (_ && _); [apply steps_nil|].
  destruct (negb k); [apply steps_nil|].
  unfold nz. destruct (Z.eqb_spec r 0) as [->|Hr]; cbn [negb fst snd].
  - change [urb_handle u] with ([urb_handle u] ++ []).
    eapply steps_cons; [apply step_submit|].
    apply urb_steps_untouched. unfold trigger_work_event.
    apply urbs_untouched_emit. reflexivity.
  - replace (r =? 0) with false by (symmetry; apply Z.eqb_neq; exact Hr).
    apply steps_nil.
Qed.

Lemma urb_dequeue_steps (h : usb_hcd) (u status r : Z) :
  urb_steps h [] (snd (vhci_urb_dequeue h u status r)).
Proof.
  unfold vhci_urb_dequeue, hcd_to_vhci.
  destruct (nz r); [apply steps_nil|].
  destruct (find_urbp u (urbp_list_inbox _)) as [e|] eqn:Ei; cbn [snd].
  - apply urb_steps_one.
    apply (step_giveback h Inbox e e (urbp_status e)).
    + destruct (find_urbp_Some _ _ _ Ei) as (_ & _ & _ & _ & ->). exact Ei.
    + apply maybe_set_status_same.
  - destruct (find_urbp u (urbp_list_fetched _)) as [e|] eqn:Ef; cbn [snd];
      [|apply steps_nil].
    change [] with (@nil Z ++ []).
    eapply steps_cons.
    + apply step_cancel.
      destruct (find_urbp_Some _ _ _ Ef) as (_ & _ & _ & _ & ->). exact Ef.
    + apply urb_steps_untouched. apply urbs_untouched_emit. reflexivity.
Qed.

Lemma fetch_work_repeat_steps (pending : list vhci_urb_priv) :
  forall h : usb_hcd,
  urbp_list_inbox (hcd_priv h) = pending ->
  urb_steps h [] (snd (fetch_work_repeat pending h)).
Proof.
  induction pending as [|e l IH]; intros h Hin; cbn [fetch_work_repeat].
  - apply steps_nil.
  - destruct (process_urb_work (urbp_urb e)) as [w|] eqn:Ew; cbn [snd].
    + apply urb_steps_one, step_fetch.
      * cbn [get_list]. rewrite Hin. apply find_urbp_head.
      * rewrite Ew. discriminate.
    + change [] with (@nil Z ++ []).
      eapply steps_cons.
      * apply (step_giveback h Inbox e (maybe_set_status e (- EPIPE))
                 (- EPIPE)); [|reflexivity].
        rewrite maybe_set_status_handle. cbn [get_list]. rewrite Hin.
        apply find_urbp_head.
      * apply IH. unfold vhci_urb_giveback, emit, with_vhci, list_del.
        cbn [hcd_priv get_list]. rewrite maybe_set_status_handle, Hin.
        cbn [del_urbp]. rewrite Z.eqb_refl. destruct (hcd_priv h); reflexivity.
Qed.

Lemma fetch_work_locked_steps (h : usb_hcd) :
  urb_steps h [] (snd (fetch_work_locked h)).
Proof.
  unfold fetch_work_locked, hcd_to_vhci.
  destruct (urbp_list_cancel (hcd_priv h)) as [|e l] eqn:Ec.
  - destruct (nz (port_update (hcd_priv h)));
      [|apply fetch_work_repeat_steps; reflexivity].
    set (h1 := if _ <=? _ then _ else h).
    assert (H1 : urbs_untouched h h1).
    { subst h1. apply urbs_untouched_if; [|apply urbs_untouched_refl].
      apply urbs_untouched_with_vhci. intros q. destruct q; reflexivity. }
    destruct (port_scan _ _ _) as [port|]; cbn [snd].
    + apply urb_steps_untouched.
      eapply urbs_untouched_trans; [exact H1|].
      apply urbs_untouched_with_vhci. intros q. destruct q; reflexivity.
    + change [] with (@nil Z ++ []).
      eapply urb_steps_trans; [apply urb_steps_untouched, H1|].
      apply fetch_work_repeat_steps. reflexivity.
  - cbn [snd]. apply urb_steps_one, step_canceling.
    cbn [get_list]. rewrite Ec. apply find_urbp_head.
Qed.

Lemma fetch_work_steps (h : usb_hcd) (timeout wret : Z) :
  urb_steps h [] (snd (ioc_fetch_work h timeout wret)).
Proof.
  unfold ioc_fetch_work.
  repeat match goal with
         | |- context [if ?b then _ else _] => destruct b
         end; cbn [snd];
    try apply steps_nil; apply fetch_work_locked_steps.
Qed.

Lemma giveback_lookup_find (v : vhci) (handle : Z) (q : urbp_list)
    (e : vhci_urb_priv) (r : Z) :
  giveback_lookup v handle = Some (q, e, r) ->
  find_urbp (handle_of e) (get_list q v) = Some e.
Proof.
  unfold giveback_lookup, urbp_from_handle, urbp_from_handle_in_canceling,
    urbp_from_handle_in_cancel.
  destruct (find_urbp handle (urbp_list_fetched v)) eqn:E1.
  { intros H. simplify_eq.
    destruct (find_urbp_Some _ _ _ E1) as (_ & _ & _ & _ & ->). exact E1. }
  destruct (find_urbp handle (urbp_list_canceling v)) eqn:E2.
  { intros H. simplify_eq.
    destruct (find_urbp_Some _ _ _ E2) as (_ & _ & _ & _ & ->). exact E2. }
  destruct (find_urbp handle (urbp_list_cancel v)) eqn:E3; [|discriminate].
  intros H. simplify_eq.
  destruct (find_urbp_Some _ _ _ E3) as (_ & _ & _ & _ & ->). exact E3.
Qed.

Lemma giveback_checks_handle (u u' : urb) (act iso_count err_count : Z)
    (buf : option (list Z)) (iso : option (list (Z * Z))) (ok : bool) :
  giveback_checks u act iso_count err_count buf iso ok = done_ok u' ->
  urb_handle u' = urb_handle u.
Proof.
  unfold giveback_checks. intros H.
  destruct (is_urb_dir_in u); [|discriminate].
  repeat match type of H with
         | (if ?b then _ else _) = _ => destruct b
         | match ?x with _ => _ end = _ => destruct x
         end; try discriminate; simplify_eq; reflexivity.
Qed.

Lemma giveback_steps (h h' : usb_hcd) (handle status act iso_count err_count
    r : Z) (buf : option (list Z)) (iso : option (list (Z * Z))) (ok : bool) :
  ioc_giveback_common h handle status act iso_count err_count buf iso ok =
    Some (r, h') ->
  urb_steps h [] h'.
Proof.
  unfold ioc_giveback_common.
  destruct (giveback_lookup _ _) as [[[q e] r0]|] eqn:El.
  2: { intros H. simplify_eq. apply steps_nil. }
  apply giveback_lookup_find in El.
  destruct (giveback_checks _ _ _ _ _ _ _) as [r'|u'|] eqn:Ec;
    intros H; simplify_eq.
  - apply urb_steps_one.
    apply (step_giveback h q e e (urbp_status e)); [exact El|].
    apply maybe_set_status_same.
  - apply giveback_checks_handle in Ec.
    apply urb_steps_one.
    apply (step_giveback h q e _ status).
    + rewrite maybe_set_status_handle. unfold handle_of at 1.
      cbn [urbp_urb]. rewrite Ec. exact El.
    + unfold maybe_set_status. cbn [urbp_status urbp_urb].
      destruct (_ =? _); reflexivity.
Qed.

Lemma fetch_data_steps (h : usb_hcd) (handle : Z) (bn : bool) (ul : Z)
    (isn : bool) (ic : Z) (ok cok : bool) (r : fetch_data_result) :
  ioc_fetch_data_common h handle bn ul isn ic ok cok = Some r ->
  urb_steps h [] (fd_hcd r).
Proof.
  unfold ioc_fetch_data_common, urbp_from_handle, urbp_from_handle_in_cancel,
    urbp_from_handle_in_canceling, hcd_to_vhci.
  destruct (find_urbp handle (urbp_list_fetched _)) as [e|] eqn:E1.
  - intros H.
    repeat match type of H with
           | (if ?b then _ else _) = _ => destruct b
           | match ?x with _ => _ end = _ => destruct x
           end; try discriminate; simplify_eq; apply steps_nil.
  - destruct (find_urbp handle (urbp_list_cancel _)) as [e|] eqn:E2.
    { intros H. simplify_eq. cbn [fd_hcd]. apply urb_steps_one.
      apply (step_giveback h Cancel e e (urbp_status e));
        [|apply maybe_set_status_same].
      destruct (find_urbp_Some _ _ _ E2) as (_ & _ & _ & _ & ->). exact E2. }
    destruct (find_urbp handle (urbp_list_canceling _)) as [e|] eqn:E3.
    { intros H. simplify_eq. cbn [fd_hcd]. apply urb_steps_one.
      apply (step_giveback h Canceling e e (urbp_status e));
        [|apply maybe_set_status_same].
      destruct (find_urbp_Some _ _ _ E3) as (_ & _ & _ & _ & ->). exact E3. }
    intros H. simplify_eq. apply steps_nil.
Qed.

Lemma run_steps (c : call) (h h' : usb_hcd) :
  run c h = Some h' -> urb_steps h (submitted c h) h'.
Proof.
  destruct c; cbn [run submitted]; intros H; simplify_eq.
  - apply urb_enqueue_steps.
  - apply urb_dequeue_steps.
  - apply urb_steps_untouched, hub_control_untouched.
  - apply urb_steps_untouched, bus_suspend_untouched.
  - apply urb_steps_untouched, bus_resume_untouched.
  - apply urb_steps_untouched, hcd_suspend_untouched.
  - apply urb_steps_untouched, hcd_resume_untouched.
  - apply urb_steps_untouched, port_stat_untouched.
  - apply fetch_work_steps.
  - destruct (ioc_giveback_common _ _ _ _ _ _ _ _ _) as [[r h1]|] eqn:E;
      [|discriminate].
    cbn in H. simplify_eq. eapply giveback_steps, E.
  - destruct (ioc_fetch_data_common _ _ _ _ _ _ _ _) as [r|] eqn:E;
      [|discriminate].
    cbn in H. simplify_eq. eapply fetch_data_steps, E.
Qed.

Lemma run_calls_steps (cs : list call) :
  forall h h' : usb_hcd,
  run_calls cs h = Some h' -> urb_steps h (submitted_all cs h) h'.
Proof.
  induction cs as [|c cs IH]; intros h h' H; cbn [run_calls submitted_all] in *.
  - simplify_eq. apply steps_nil.
  - destruct (run c h) as [h1|] eqn:E; [|discriminate].
    eapply urb_steps_trans; [apply run_steps, E|apply IH, H].
Qed.

(** ** No urb is lost or duplicated, whatever is called *)

Lemma given_back_quiet (evs : list event) :
  forallb quiet evs = true -> given_back evs = [].
Proof.
  induction evs as [|e evs IH]; [reflexivity|]. cbn [forallb].
  intros H. apply andb_prop in H as [He Hevs].
  destruct e; try discriminate; cbn; apply IH, Hevs.
Qed.

Lemma accounted_untouched (h h' : usb_hcd) :
  urbs_untouched h h' -> accounted h' = accounted h.
Proof.
  intros [Hq (evs & Ht & Hf)]. unfold accounted, queued.
  rewrite Ht, given_back_app, (given_back_quiet _ Hf), app_nil_r.
  specialize (Hq Inbox) as H1. specialize (Hq Fetched) as H2.
  specialize (Hq Cancel) as H3. specialize (Hq Canceling) as H4.
  cbn [get_list] in *. rewrite H1, H2, H3, H4. reflexivity.
Qed.

Lemma urb_step_accounted (h h' : usb_hcd) (l : list Z) :
  urb_step h l h' -> accounted h' ≡ₚ accounted h ++ l.
Proof.
  intros [h1 Hu|u|e Hf _|e Hf|e Hf|q e e' s Hf _].
  - rewrite (accounted_untouched _ _ Hu), app_nil_r. reflexivity.
  - unfold accounted, with_vhci. cbn [hcd_priv trace].
    rewrite queued_list_add_tail. cbn [app handle_of urbp_urb].
    rewrite <- Permutation_middle, app_nil_r. reflexivity.
  - unfold accounted, with_vhci. cbn [hcd_priv trace].
    rewrite (queued_list_move_tail _ _ _ _ Hf), app_nil_r. reflexivity.
  - unfold accounted, with_vhci. cbn [hcd_priv trace].
    rewrite (queued_list_move_tail _ _ _ _ Hf), app_nil_r. reflexivity.
  - unfold accounted, with_vhci. cbn [hcd_priv trace].
    rewrite (queued_list_move_tail _ _ _ _ Hf), app_nil_r. reflexivity.
  - rewrite (accounted_giveback _ _ _ _ Hf), app_nil_r. reflexivity.
Qed.

Lemma urb_steps_accounted (h h' : usb_hcd) (l : list Z) :
  urb_steps h l h' -> accounted h' ≡ₚ accounted h ++ l.
Proof.
  induction 1 as [h|h1 l1 h2 l2 h3 Hs _ IH].
  - rewrite app_nil_r. reflexivity.
  - rewrite IH, (urb_step_accounted _ _ _ Hs), app_assoc. reflexivity.
Qed.

(** X5.  No urb is lost and none is duplicated.  After any sequence of
    calls that the driver survives, the handles sitting in the four queues
    together with the handles given back so far are, counted with
    multiplicity, the handles accounted for at the outset plus the handles
    of the submissions that were accepted on the way. *)
Theorem urbs_conserved (cs : list call) (h h' : usb_hcd) :
  run_calls cs h = Some h' ->
  accounted h' ≡ₚ accounted h ++ submitted_all cs h.
Proof. intros H. apply urb_steps_accounted, run_calls_steps, H. Qed.

Lemma urbs_conserved_witness :
  exists h',
    run_calls life_cycle (started 2) = Some h' /\
    accounted h' ≡ₚ accounted (started 2) ++ submitted_all life_cycle (started 2).
Proof.
  eexists. split; [vm_compute; reflexivity|].
  apply (urbs_conserved life_cycle (started 2)). vm_compute. reflexivity.
Defined.

(** ** The status reported with a give-back *)

Lemma statuses_app (tr1 tr2 : list event) :
  statuses (tr1 ++ tr2) = statuses tr1 ++ statuses tr2.
Proof. apply omap_app. Qed.

Lemma statuses_quiet (evs : list event) :
  forallb quiet evs = true -> statuses evs = [].
Proof.
  induction evs as [|e evs IH]; [reflexivity|]. cbn [forallb].
  intros H. apply andb_prop in H as [He Hevs].
  destruct e; try discriminate; cbn; apply IH, Hevs.
Qed.

Lemma Forall_del_urbp (P : vhci_urb_priv -> Prop) (handle : Z)
    (l : list vhci_urb_priv) :
  Forall P l -> Forall P (del_urbp handle l).
Proof.
  induction 1 as [|e l He Hl IH]; cbn [del_urbp]; [constructor|].
  destruct (_ =? _); [exact Hl|]. constructor; assumption.
Qed.

Lemma find_urbp_In (handle : Z) (l : list vhci_urb_priv) (e : vhci_urb_priv) :
  find_urbp handle l = Some e -> In e l.
Proof.
  intros H. destruct (find_urbp_Some _ _ _ H) as (l1 & l2 & -> & _).
  apply in_or_app. right. left. reflexivity.
Qed.

Lemma Forall_list_del (P : vhci_urb_priv -> Prop) (q q' : urbp_list)
    (e : vhci_urb_priv) (v : vhci) :
  Forall P (get_list q' v) -> Forall P (get_list q' (list_del q e v)).
Proof.
  intros H. unfold list_del. destruct (decide (q = q')) as [->|Hne].
  - rewrite get_set_list. apply Forall_del_urbp, H.
  - rewrite get_set_list_ne by exact Hne. exact H.
Qed.

Lemma Forall_list_add_tail (P : vhci_urb_priv -> Prop) (q q' : urbp_list)
    (e : vhci_urb_priv) (v : vhci) :
  (q = q' -> P e) ->
  Forall P (get_list q' v) -> Forall P (get_list q' (list_add_tail q e v)).
Proof.
  intros He H. unfold list_add_tail. destruct (decide (q = q')) as [->|Hne].
  - rewrite get_set_list. apply Forall_app. split; [exact H|].
    constructor; [apply He; reflexivity|constructor].
  - rewrite get_set_list_ne by exact Hne. exact H.
Qed.

Lemma Forall_list_move_tail (P : vhci_urb_priv -> Prop) (q1 q2 q' : urbp_list)
    (e : vhci_urb_priv) (v : vhci) :
  (q2 = q' -> P e) ->
  Forall P (get_list q' v) ->
  Forall P (get_list q' (list_move_tail q1 q2 e v)).
Proof.
  intros He H. unfold list_move_tail.
  apply Forall_list_add_tail; [exact He|]. apply Forall_list_del, H.
Qed.

Lemma maybe_set_status_zero (e : vhci_urb_priv) (status : Z) :
  urbp_status e = 0 -> urbp_status (maybe_set_status e status) = 0.
Proof.
  intros H. unfold maybe_set_status. rewrite H.
  change (0 =? - EINPROGRESS) with false. exact H.
Qed.

Lemma zero_status_untouched (h h' : usb_hcd) :
  urbs_untouched h h' ->
  zero_status (hcd_priv h) -> zero_status (hcd_priv h').
Proof. intros [Hq _] Hz q. rewrite Hq. apply Hz. Qed.

Lemma urb_step_zero_status (h h' : usb_hcd) (l : list Z) :
  urb_step h l h' ->
  zero_status (hcd_priv h) ->
  zero_status (hcd_priv h') /\
  exists ss, statuses (trace h') = statuses (trace h) ++ ss /\
             Forall (fun s => s = 0) ss.
Proof.
  intros [h1 Hu|u|e Hf _|e Hf|e Hf|q e e' s Hf Hs] Hz.
  - split; [eapply zero_status_untouched; eassumption|].
    destruct Hu as [_ (evs & -> & Hq)]. exists [].
    rewrite statuses_app, (statuses_quiet _ Hq). split; [reflexivity|constructor].
  - split; [|exists []; rewrite app_nil_r; split; [reflexivity|constructor]].
    intros q. unfold with_vhci. cbn [hcd_priv].
    apply Forall_list_add_tail; [reflexivity|apply Hz].
  - split; [|exists []; rewrite app_nil_r; split; [reflexivity|constructor]].
    intros q. unfold with_vhci. cbn [hcd_priv].
    apply Forall_list_move_tail; [|apply Hz]. intros _.
    apply find_urbp_In in Hf. specialize (Hz Inbox).
    rewrite List.Forall_forall in Hz. apply Hz, Hf.
  - split; [|exists []; rewrite app_nil_r; split; [reflexivity|constructor]].
    intros q. unfold with_vhci. cbn [hcd_priv].
    apply Forall_list_move_tail; [|apply Hz]. intros _.
    apply find_urbp_In in Hf. specialize (Hz Fetched).
    rewrite List.Forall_forall in Hz. apply Hz, Hf.
  - split; [|exists []; rewrite app_nil_r; split; [reflexivity|constructor]].
    intros q. unfold with_vhci. cbn [hcd_priv].
    apply Forall_list_move_tail; [|apply Hz]. intros _.
    apply find_urbp_In in Hf. specialize (Hz Cancel).
    rewrite List.Forall_forall in Hz. apply Hz, Hf.
  - split.
    + intros q'. unfold vhci_urb_giveback, emit, with_vhci. cbn [hcd_priv].
      apply Forall_list_del, Hz.
    + exists [urbp_status e']. unfold vhci_urb_giveback, emit, with_vhci.
      cbn [trace]. rewrite statuses_app. split; [reflexivity|].
      constructor; [|constructor]. rewrite Hs.
      apply maybe_set_status_zero.
      apply find_urbp_In in Hf. specialize (Hz q).
      rewrite List.Forall_forall in Hz. apply Hz, Hf.
Qed.

Lemma urb_steps_zero_status (h h' : usb_hcd) (l : list Z) :
  urb_steps h l h' ->
  zero_status (hcd_priv h) ->
  zero_status (hcd_priv h') /\
  exists ss, statuses (trace h') = statuses (trace h) ++ ss /\
             Forall (fun s => s = 0) ss.
Proof.
  induction 1 as [h|h1 l1 h2 l2 h3 Hs _ IH]; intros Hz.
  - split; [exact Hz|]. exists []. rewrite app_nil_r.
    split; [reflexivity|constructor].
  - destruct (urb_step_zero_status _ _ _ Hs Hz) as [Hz2 (s1 & E1 & F1)].
    destruct (IH Hz2) as [Hz3 (s2 & E2 & F2)].
    split; [exact Hz3|]. exists (s1 ++ s2).
    rewrite E2, E1, <- app_assoc. split; [reflexivity|].
    apply Forall_app. split; assumption.
Qed.

Lemma shutdown_events_zero (l : list vhci_urb_priv) :
  Forall (fun e => urbp_status e = 0) l ->
  Forall (fun s => s = 0) (statuses (shutdown_events l)).
Proof.
  induction 1 as [|e l He Hl IH]; [constructor|].
  cbn. constructor; [apply maybe_set_status_zero, He|exact IH].
Qed.

(** X6.  The status field of an urb's private record is never set to
    -EINPROGRESS: submission leaves it as the zeroed allocation has it, so
    no compare-and-set ever succeeds.  From a state whose queue entries all
    have the status field zero (a freshly started controller has none),
    whatever is called afterwards, every urb given back is given back with
    status 0, and so is every urb that a closing shutdown gives back. *)
Theorem giveback_status_zero (cs : list call) (h h' : usb_hcd) :
  zero_status (hcd_priv h) ->
  run_calls cs h = Some h' ->
  exists ss,
    statuses (trace (vhci_hcd_remove h')) = statuses (trace h) ++ ss /\
    Forall (fun s => s = 0) ss.
Proof.
  intros Hz Hr. apply run_calls_steps in Hr.
  destruct (urb_steps_zero_status _ _ _ Hr Hz) as [Hz' (ss & E & F)].
  destruct (hcd_remove_trace h') as [E' _].
  exists (ss ++ statuses
                  (shutdown_events (urbp_list_inbox (hcd_priv h')) ++
                   shutdown_events (urbp_list_fetched (hcd_priv h')) ++
                   shutdown_events (urbp_list_cancel (hcd_priv h')) ++
                   shutdown_events (urbp_list_canceling (hcd_priv h')) ++
                   [usb_remove_hcd; usb_put_hcd])).
  rewrite E', statuses_app, E, <- app_assoc. split; [reflexivity|].
  apply Forall_app. split; [exact F|].
  rewrite !statuses_app. rewrite !Forall_app.
  repeat split; try apply shutdown_events_zero.
  - apply (Hz' Inbox).
  - apply (Hz' Fetched).
  - apply (Hz' Cancel).
  - apply (Hz' Canceling).
  - apply List.Forall_nil.
Qed.

Lemma giveback_status_zero_witness :
  exists h',
    run_calls life_cycle (started 2) = Some h' /\
    exists ss,
      statuses (trace (vhci_hcd_remove h')) =
        statuses (trace (started 2)) ++ ss /\
      Forall (fun s => s = 0) ss.
Proof.
  eexists. split; [vm_compute; reflexivity|].
  apply (giveback_status_zero life_cycle (started 2)).
  - intros q. destruct q; apply List.Forall_nil.
  - vm_compute. reflexivity.
Defined.

(** ** The pointer checks of work-fetch shield the worker's calls *)

Lemma checked_untouched (h h' : usb_hcd) :
  urbs_untouched h h' ->
  checked_queues (hcd_priv h) -> checked_queues (hcd_priv h').
Proof. intros [Hq _] Hc q Hne. rewrite Hq. apply Hc, Hne. Qed.

Lemma checked_In (v : vhci) (q : urbp_list) (handle : Z) (e : vhci_urb_priv) :
  checked_queues v -> q <> Inbox ->
  find_urbp handle (get_list q v) = Some e ->
  process_urb_work (urbp_urb e) <> None.
Proof.
  intros Hc Hne Hf. apply find_urbp_In in Hf. specialize (Hc q Hne).
  rewrite List.Forall_forall in Hc. apply Hc, Hf.
Qed.

Lemma urb_step_checked (h h' : usb_hcd) (l : list Z) :
  urb_step h l h' ->
  checked_queues (hcd_priv h) -> checked_queues (hcd_priv h').
Proof.
  intros [h1 Hu|u|e Hf Hw|e Hf|e Hf|q e e' s Hf Hs] Hc.
  - eapply checked_untouched; eassumption.
  - intros q Hne. unfold with_vhci. cbn [hcd_priv].
    apply Forall_list_add_tail; [|apply Hc, Hne].
    intros E. congruence.
  - intros q Hne. unfold with_vhci. cbn [hcd_priv].
    apply Forall_list_move_tail; [|apply Hc, Hne]. intros _. exact Hw.
  - intros q Hne. unfold with_vhci. cbn [hcd_priv].
    apply Forall_list_move_tail; [|apply Hc, Hne]. intros _.
    eapply (checked_In _ Fetched); [exact Hc|discriminate|exact Hf].
  - intros q Hne. unfold with_vhci. cbn [hcd_priv].
    apply Forall_list_move_tail; [|apply Hc, Hne]. intros _.
    eapply (checked_In _ Cancel); [exact Hc|discriminate|exact Hf].
  - intros q' Hne. unfold vhci_urb_giveback, emit, with_vhci. cbn [hcd_priv].
    apply Forall_list_del, Hc, Hne.
Qed.

Lemma urb_steps_checked (h h' : usb_hcd) (l : list Z) :
  urb_steps h l h' ->
  checked_queues (hcd_priv h) -> checked_queues (hcd_priv h').
Proof.
  induction 1 as [h|h1 l1 h2 l2 h3 Hs _ IH]; intros Hc; [exact Hc|].
  apply IH. eapply urb_step_checked; eassumption.
Qed.

(** What the checks of work-fetch establish about an urb's pointers. *)
Lemma process_urb_work_pointers (u : urb) :
  process_urb_work u <> None ->
  exists is_in tb_len,
    is_urb_dir_in u = Some is_in /\
    (if usb_pipecontrol (pipe u) then option_map wLength (setup_packet u)
     else Some (transfer_buffer_length u)) = Some tb_len /\
    (nz is_in = true -> is_null (transfer_buffer u) = false) /\
    (nz tb_len = true -> is_null (transfer_buffer u) = false).
Proof.
  unfold process_urb_work, is_urb_dir_in.
  destruct (usb_pipecontrol (pipe u)).
  - destruct (setup_packet u) as [cmd|]; [|intros H; contradiction].
    destruct (_ <? _); [intros H; contradiction|].
    exists (Z.land (bRequestType cmd) 128), (wLength cmd).
    cbn [option_map]. repeat split; revert H;
      destruct (nz (Z.land (bRequestType cmd) 128)),
               (nz (wLength cmd)), (is_null (transfer_buffer u));
      cbn [negb orb andb]; intros; try reflexivity; try discriminate;
      contradiction.
  - exists (usb_pipein (pipe u)), (transfer_buffer_length u).
    repeat split; revert H;
      destruct (nz (usb_pipein (pipe u))),
               (nz (transfer_buffer_length u)), (is_null (transfer_buffer u));
      cbn [negb orb andb]; intros; try reflexivity; try discriminate;
      contradiction.
Qed.

Lemma giveback_checks_safe (u : urb) (act iso_count err_count : Z)
    (buf : option (list Z)) (iso : option (list (Z * Z))) (ok : bool) :
  process_urb_work u <> None ->
  giveback_checks u act iso_count err_count buf iso ok <> null_dereference.
Proof.
  intros Hw.
  destruct (process_urb_work_pointers u Hw) as (is_in & tb & Hd & _ & Hin & _).
  unfold giveback_checks. rewrite Hd.
  destruct (nz is_in) eqn:Ein.
  - specialize (Hin eq_refl).
    destruct (transfer_buffer u) as [old|]; [|discriminate].
    cbn [write_buffer].
    repeat match goal with
           | |- context [if ?b then _ else _] => destruct b
           | |- context [match copy_from_user ?b ?n with _ => _ end] =>
               destruct (copy_from_user b n)
           end; discriminate.
  - repeat match goal with
           | |- context [if ?b then _ else _] => destruct b
           end; discriminate.
Qed.

Lemma giveback_lookup_queue (v : vhci) (handle : Z) (q : urbp_list)
    (e : vhci_urb_priv) (r : Z) :
  giveback_lookup v handle = Some (q, e, r) -> q <> Inbox.
Proof.
  unfold giveback_lookup.
  repeat match goal with
         | |- context [match ?x with _ => _ end] => destruct x
         end; intros H; simplify_eq; discriminate.
Qed.

Lemma giveback_safe (h : usb_hcd) (handle status act iso_count err_count : Z)
    (buf : option (list Z)) (iso : option (list (Z * Z))) (ok : bool) :
  checked_queues (hcd_priv h) ->
  ioc_giveback_common h handle status act iso_count err_count buf iso ok
    <> None.
Proof.
  intros Hc. unfold ioc_giveback_common, hcd_to_vhci.
  destruct (giveback_lookup _ _) as [[[q e] r0]|] eqn:El; [|discriminate].
  pose proof (giveback_lookup_queue _ _ _ _ _ El) as Hq.
  apply giveback_lookup_find in El.
  pose proof (checked_In _ _ _ _ Hc Hq El) as Hw.
  pose proof (giveback_checks_safe (urbp_urb e) act iso_count err_count buf
                iso ok Hw) as Hs.
  destruct (giveback_checks _ _ _ _ _ _ _); try discriminate. contradiction.
Qed.

Lemma fetch_data_safe (h : usb_hcd) (handle : Z) (bn : bool) (ul : Z)
    (isn : bool) (ic : Z) (ok cok : bool) :
  checked_queues (hcd_priv h) ->
  ioc_fetch_data_common h handle bn ul isn ic ok cok <> None.
Proof.
  intros Hc. unfold ioc_fetch_data_common, hcd_to_vhci, urbp_from_handle.
  destruct (find_urbp handle (urbp_list_fetched _)) as [e|] eqn:E1.
  - assert (Hw : process_urb_work (urbp_urb e) <> None).
    { eapply (checked_In _ Fetched); [exact Hc|discriminate|exact E1]. }
    destruct (process_urb_work_pointers _ Hw)
      as (is_in & tb & Hd & Ht & _ & Hlen).
    rewrite Ht, Hd.
    destruct (nz tb) eqn:Etb.
    + specialize (Hlen eq_refl).
      destruct (transfer_buffer (urbp_urb e)); [|discriminate].
      repeat match goal with
             | |- context [if ?b then _ else _] => destruct b
             end; discriminate.
    + rewrite andb_false_r.
      repeat match goal with
             | |- context [if ?b then _ else _] => destruct b
             end; discriminate.
  - repeat match goal with
           | |- context [match ?x with _ => _ end] => destruct x
           end; discriminate.
Qed.

Lemma run_safe (c : call) (h : usb_hcd) :
  checked_queues (hcd_priv h) ->
  exists h', run c h = Some h' /\ checked_queues (hcd_priv h').
Proof.
  intros Hc.
  assert (Hr : run c h <> None).
  { destruct c; cbn [run]; try discriminate.
    - pose proof (giveback_safe h handle status act iso_count err_count buf
                    iso iso_access_ok Hc) as Hs.
      destruct (ioc_giveback_common _ _ _ _ _ _ _ _ _);
        [discriminate|contradiction].
    - pose proof (fetch_data_safe h handle user_buf_null user_len iso_null
                    iso_count iso_access_ok copy_ok Hc) as Hs.
      destruct (ioc_fetch_data_common _ _ _ _ _ _ _ _);
        [discriminate|contradiction]. }
  destruct (run c h) as [h'|] eqn:E; [|contradiction].
  exists h'. split; [reflexivity|].
  eapply urb_steps_checked; [apply run_steps, E|exact Hc].
Qed.

Lemma dumps_safe_off (tr : list event) : dumps_safe 0 tr.
Proof.
  apply List.Forall_forall. intros e _. destruct e; discriminate.
Qed.

Lemma enqueue_accepted (h : usb_hcd) (u : urb) :
  is_null (transfer_buffer u) && nz (transfer_buffer_length u) = false ->
  vhci_urb_enqueue h u true 0 =
    (0, mk_hcd (hw_accessible h)
          (set_list Inbox (urbp_list_inbox (hcd_priv h) ++ [mk_urbp u 0])
             (hcd_priv h))
          (trace h ++ [wake_up_interruptible])).
Proof. intros Hb. unfold vhci_urb_enqueue. rewrite Hb. reflexivity. Qed.

Lemma dump_urb_no_setup (debug_output : Z) (u : urb) :
  debug_output <> 0 ->
  usb_pipecontrol (pipe u) = true -> setup_packet u = None ->
  dump_urb debug_output u = None.
Proof.
  intros Hd Hc Hs. unfold dump_urb.
  destruct (Z.eqb_spec debug_output 0) as [E|_]; [contradiction|].
  unfold usb_pipecontrol in Hc. apply Z.eqb_eq in Hc.
  unfold usb_pipeint, usb_pipeisoc, usb_pipecontrol. rewrite Hc, Hs.
  reflexivity.
Qed.

(** The dump on some urbs: a bulk urb is dumped safely at every level, a
    control IN urb without buffer as long as nothing was transferred, a
    control urb without setup packet at no level above 0. *)
Lemma dump_urb_examples :
  dump_urb 1 (bulk_out_urb 7) = Some tt /\
  dump_urb 3 (bulk_out_4 7) = Some tt /\
  dump_urb 2 (control_in_urb_no_buffer 8) = Some tt /\
  dump_urb 0 (control_urb_no_setup 5) = Some tt /\
  dump_urb 1 (control_urb_no_setup 5) = None.
Proof. repeat split. Qed.

(** X7.  With debug output off ([debug_output] is 0, as it is when the
    module is loaded) no call dereferences a NULL [setup_packet] or
    [transfer_buffer].  Give-back and data-fetch read the two pointers
    unchecked, but they only reach urbs that work-fetch has handed out, and
    work-fetch hands out no urb whose pointers do not fit its transfer; the
    dump of an urb at its give-back returns before it looks at the urb.
    From a state in which the three queues behind the inbox hold only urbs
    that pass those checks (a freshly started controller holds none), every
    sequence of calls runs to the end, the queues are as before, and no
    give-back has faulted in its dump.  With debug output on this fails:
    the dump reads the setup packet of a control urb before testing the
    pointer, so from any state, submitting a control urb without setup
    packet (which submission accepts) and cancelling it while it is pending
    gives it back through a dump that dereferences NULL. *)
Theorem no_null_dereference (h : usb_hcd) :
  (forall cs : list call,
   checked_queues (hcd_priv h) ->
   exists h',
     run_calls cs h = Some h' /\ checked_queues (hcd_priv h') /\
     dumps_safe 0 (trace h')) /\
  (forall (debug_output : Z) (u : urb) (status : Z),
   debug_output <> 0 ->
   usb_pipecontrol (pipe u) = true -> setup_packet u = None ->
   is_null (transfer_buffer u) && nz (transfer_buffer_length u) = false ->
   absent (urb_handle u) (urbp_list_inbox (hcd_priv h)) ->
   exists h',
     run_calls [call_urb_enqueue u true 0;
                call_urb_dequeue (urb_handle u) status 0] h = Some h' /\
     trace h' =
       trace h ++ [wake_up_interruptible; usb_hcd_giveback_urb u 0] /\
     dump_urb debug_output u = None /\
     ~ dumps_safe debug_output (trace h')).
Proof.
  split.
  - intros cs. revert h.
    induction cs as [|c cs IH]; intros h Hc; cbn [run_calls].
    + exists h. split; [reflexivity|]. split; [exact Hc|apply dumps_safe_off].
    + destruct (run_safe c h Hc) as (h1 & -> & Hc1). apply IH, Hc1.
  - intros d u status Hd Hp Hs Hb Ha.
    pose proof (dump_urb_no_setup d u Hd Hp Hs) as Hdump.
    destruct (find_urbp_split (urb_handle u) _ [] (mk_urbp u 0) Ha eq_refl)
      as [Hf _].
    cbn [run_calls run]. rewrite (enqueue_accepted h u Hb). cbn [snd].
    unfold vhci_urb_dequeue, hcd_to_vhci.
    cbn [nz Z.eqb negb hcd_priv set_list urbp_list_inbox].
    rewrite Hf. cbn [snd].
    unfold vhci_urb_giveback, emit, with_vhci.
    cbn [trace urbp_urb urbp_status].
    eexists. split; [reflexivity|]. cbn [trace]. rewrite <- app_assoc.
    split; [reflexivity|]. split; [exact Hdump|].
    intros Hsafe. unfold dumps_safe in Hsafe.
    rewrite List.Forall_forall in Hsafe.
    apply (Hsafe (usb_hcd_giveback_urb u 0)); [|exact Hdump].
    apply in_or_app. right. right. left. reflexivity.
Qed.

Lemma no_null_dereference_witness :
  (exists h',
     run_calls malformed_session hcd_in_service = Some h' /\
     checked_queues (hcd_priv h') /\ dumps_safe 0 (trace h')) /\
  (exists h',
     run_calls [call_urb_enqueue (control_urb_no_setup 5) true 0;
                call_urb_dequeue 5 (- ECANCELED) 0] hcd_in_service
       = Some h' /\
     trace h' =
       trace hcd_in_service ++
       [wake_up_interruptible;
        usb_hcd_giveback_urb (control_urb_no_setup 5) 0] /\
     dump_urb 1 (control_urb_no_setup 5) = None /\
     ~ dumps_safe 1 (trace h')).
Proof.
  split.
  - apply (proj1 (no_null_dereference hcd_in_service) malformed_session).
    intros q Hq. destruct q; [contradiction|vm_compute..].
    + apply List.Forall_cons; [discriminate|apply List.Forall_nil].
    + apply List.Forall_nil.
    + apply List.Forall_nil.
  - apply (proj2 (no_null_dereference hcd_in_service) 1
             (control_urb_no_setup 5) (- ECANCELED)).
    + discriminate.
    + reflexivity.
    + reflexivity.
    + reflexivity.
    + apply List.Forall_nil.
Defined.

(** What the session of the example does: the urb without setup packet and
    the cancelled urb without buffer are given back from the inbox, the
    bulk urb by the worker. *)
Lemma malformed_session_given_back :
  option_map (fun h => given_back (trace h))
    (run_calls malformed_session hcd_in_service) = Some [5; 8; 7].
Proof. vm_compute. reflexivity. Qed.

(** ** The state of a port *)

Lemma has_flag_bit (x k : Z) :
  0 <= k -> has_flag x (2 ^ k) = Z.testbit x k.
Proof. apply nz_land_pow2. Qed.

(** [port_ok] in terms of the bits of the two registers. *)
Lemma port_ok_bits (p : vhci_port) :
  port_ok p =
    let s := Z.testbit (port_status p) in
    implb (s 0) (s 8) && implb (s 1) (s 0) && implb (s 2) (s 1) &&
    implb (s 4) (s 0 && negb (s 1)) && implb (s 9) (s 0 && negb (s 10)) &&
    implb (s 10) (s 0) && implb (Z.testbit (port_flags p) 0) (s 2).
Proof.
  unfold port_ok.
  change USB_PORT_STAT_CONNECTION with (2 ^ 0).
  change USB_PORT_STAT_ENABLE with (2 ^ 1).
  change USB_PORT_STAT_SUSPEND with (2 ^ 2).
  change USB_PORT_STAT_RESET with (2 ^ 4).
  change USB_PORT_STAT_POWER with (2 ^ 8).
  change USB_PORT_STAT_LOW_SPEED with (2 ^ 9).
  change USB_PORT_STAT_HIGH_SPEED with (2 ^ 10).
  change USB_VHCI_PORT_STAT_FLAG_RESUMING with (2 ^ 0).
  rewrite !has_flag_bit by lia. reflexivity.
Qed.

(** Rewrites the tests of single flags into bit tests. *)
Ltac flag_tests :=
  change USB_PORT_STAT_CONNECTION with (2 ^ 0) in *;
  change USB_PORT_STAT_ENABLE with (2 ^ 1) in *;
  change USB_PORT_STAT_SUSPEND with (2 ^ 2) in *;
  change USB_PORT_STAT_OVERCURRENT with (2 ^ 3) in *;
  change USB_PORT_STAT_RESET with (2 ^ 4) in *;
  change USB_PORT_STAT_POWER with (2 ^ 8) in *;
  change USB_PORT_STAT_LOW_SPEED with (2 ^ 9) in *;
  change USB_PORT_STAT_HIGH_SPEED with (2 ^ 10) in *;
  change USB_VHCI_PORT_STAT_FLAG_RESUMING with (2 ^ 0) in *;
  rewrite ?nz_land_pow2 in * by lia.

(** Evaluates the bit tests of closed numbers. *)
Ltac eval_testbit :=
  repeat match goal with
         | |- context [Z.testbit ?a ?k] =>
             let r := eval vm_compute in (Z.testbit a k) in
             match r with true => idtac | false => idtac end;
             change (Z.testbit a k) with r
         end.

Ltac bit_blast :=
  repeat (rewrite ?testbit_u16, ?testbit_u8, ?Z.lor_spec, ?Z.land_spec,
            ?Z.lnot_spec by lia);
  eval_testbit;
  repeat match goal with
         | |- context [?a <? ?b] =>
             let r := eval vm_compute in (a <? b) in
             match r with true => idtac | false => idtac end;
             change (a <? b) with r
         end.

Ltac bit_atoms :=
  repeat match goal with
         | H : context [Z.testbit ?x ?k] |- _ => destruct (Z.testbit x k)
         | |- context [Z.testbit ?x ?k] => destruct (Z.testbit x k)
         end;
  cbn in *; try discriminate; try reflexivity.

Lemma suspend_port_ok (p : vhci_port) :
  nz (Z.land (port_status p) USB_PORT_STAT_ENABLE) = true ->
  port_ok p = true -> port_ok (suspend_port p) = true.
Proof.
  rewrite !port_ok_bits. unfold suspend_port. cbn [port_status port_flags].
  cbv zeta. flag_tests. intros He Hok. bit_blast. bit_atoms.
Qed.

Ltac split_ifs_eq :=
  repeat match goal with
         | H : context [if ?b then _ else _] |- _ => destruct b eqn:?
         end.

Ltac port_case :=
  simplify_eq; rewrite ?port_ok_bits; cbn [port_status port_flags];
  cbv zeta; try assumption; bit_blast;
  repeat match goal with
         | E : Z.testbit ?x ?k = _ |- _ => rewrite E in *; clear E
         end;
  bit_atoms.

Lemma clear_port_feature_ok (v : Z) (p p' : vhci_port) (b : bool) :
  clear_port_feature v p = Some (p', b) ->
  port_ok p = true -> port_ok p' = true.
Proof.
  unfold clear_port_feature. flag_tests. intros H Hok.
  rewrite port_ok_bits in Hok. cbv zeta in Hok. revert H.
  feature_cases v; intros H; split_ifs_eq; port_case.
Qed.

Lemma set_port_feature_ok (v : Z) (p p' : vhci_port) (b : bool) :
  set_port_feature v p = Some (p', b) ->
  port_ok p = true -> port_ok p' = true.
Proof.
  unfold set_port_feature. flag_tests. intros H Hok.
  rewrite port_ok_bits in Hok. cbv zeta in Hok. revert H.
  feature_cases v; intros H; split_ifs_eq; port_case.
Qed.

Lemma port_stat_switch_ok (status change : Z) (p p' : vhci_port) :
  nz (Z.land (port_status p) USB_PORT_STAT_POWER) = true ->
  port_stat_switch status change p = Some p' ->
  port_ok p = true -> port_ok p' = true.
Proof.
  unfold port_stat_switch. flag_tests. intros Hp H Hok.
  rewrite port_ok_bits in Hok. cbv zeta in H, Hok. split_ifs_eq; port_case.
Qed.

Lemma port_op_ok (p p' : vhci_port) :
  port_op p p' -> port_ok p = true -> port_ok p' = true.
Proof.
  intros [v p1 b H|v p1 b H|s c p1 Hp H|He Hs].
  - eapply clear_port_feature_ok, H.
  - eapply set_port_feature_ok, H.
  - eapply port_stat_switch_ok; eassumption.
  - apply suspend_port_ok, He.
Qed.

(** ** Every call as a sequence of port steps *)

Lemma testbit_true_nonneg (x m : Z) : Z.testbit x m = true -> 0 <= m.
Proof.
  intros H. destruct (Z.neg_nonneg_cases m) as [Hm|Hm]; [|exact Hm].
  rewrite Z.testbit_neg_r in H by exact Hm. discriminate.
Qed.

Lemma port_steps_one (v v' : vhci) : port_step v v' -> port_steps v v'.
Proof. intros H. eapply psteps_cons; [exact H|apply psteps_nil]. Qed.

Lemma port_steps_trans (v1 v2 v3 : vhci) :
  port_steps v1 v2 -> port_steps v2 v3 -> port_steps v1 v3.
Proof.
  induction 1 as [|v1 v2 v2' Hs _ IH]; intros H3; [exact H3|].
  eapply psteps_cons; [exact Hs|apply IH, H3].
Qed.

Lemma port_steps_same (v v' : vhci) :
  port_side v' = port_side v -> port_steps v v'.
Proof.
  unfold port_side. intros H. simplify_eq.
  apply port_steps_one, pstep_frame; try assumption.
  intros m Hm. congruence.
Qed.

Lemma port_side_set_list (q : urbp_list) (l : list vhci_urb_priv) (v : vhci) :
  port_side (set_list q l v) = port_side v.
Proof. destruct q; reflexivity. Qed.

Lemma port_side_list_del (q : urbp_list) (e : vhci_urb_priv) (v : vhci) :
  port_side (list_del q e v) = port_side v.
Proof. apply port_side_set_list. Qed.

Lemma port_side_list_add_tail (q : urbp_list) (e : vhci_urb_priv) (v : vhci) :
  port_side (list_add_tail q e v) = port_side v.
Proof. apply port_side_set_list. Qed.

Lemma port_side_list_move_tail (q q' : urbp_list) (e : vhci_urb_priv)
    (v : vhci) :
  port_side (list_move_tail q q' e v) = port_side v.
Proof.
  unfold list_move_tail. rewrite port_side_list_add_tail.
  apply port_side_list_del.
Qed.

Lemma port_side_giveback (q : urbp_list) (e : vhci_urb_priv) (h : usb_hcd) :
  port_side (hcd_priv (vhci_urb_giveback q e h)) = port_side (hcd_priv h).
Proof. apply port_side_list_del. Qed.

Lemma port_side_enqueue (h : usb_hcd) (u : urb) (k : bool) (r : Z) :
  port_side (hcd_priv (snd (vhci_urb_enqueue h u k r))) = port_side (hcd_priv h).
Proof.
  unfold vhci_urb_enqueue.
  repeat match goal with
         | |- context [if ?b then _ else _] => destruct b
         end; reflexivity.
Qed.

Lemma port_side_dequeue (h : usb_hcd) (u status r : Z) :
  port_side (hcd_priv (snd (vhci_urb_dequeue h u status r))) =
    port_side (hcd_priv h).
Proof.
  unfold vhci_urb_dequeue.
  destruct (nz r); [reflexivity|].
  destruct (find_urbp u _); cbn [snd]; [apply port_side_giveback|].
  destruct (find_urbp u _); cbn [snd]; [|reflexivity].
  apply port_side_list_move_tail.
Qed.

Lemma port_side_fetch_work_repeat (pending : list vhci_urb_priv) :
  forall h : usb_hcd,
  port_side (hcd_priv (snd (fetch_work_repeat pending h))) =
    port_side (hcd_priv h).
Proof.
  induction pending as [|e l IH]; intros h; cbn [fetch_work_repeat];
    [reflexivity|].
  destruct (process_urb_work _); cbn [snd].
  - apply port_side_list_move_tail.
  - rewrite IH. apply port_side_giveback.
Qed.

Lemma port_side_giveback_common (h h' : usb_hcd) (handle status act iso_count
    err_count r : Z) (buf : option (list Z)) (iso : option (list (Z * Z)))
    (ok : bool) :
  ioc_giveback_common h handle status act iso_count err_count buf iso ok =
    Some (r, h') ->
  port_side (hcd_priv h') = port_side (hcd_priv h).
Proof.
  unfold ioc_giveback_common.
  destruct (giveback_lookup _ _) as [[[q e] r0]|];
    [|intros H; simplify_eq; reflexivity].
  destruct (giveback_checks _ _ _ _ _ _ _); intros H; simplify_eq;
    apply port_side_giveback.
Qed.

Lemma port_side_fetch_data (h : usb_hcd) (handle : Z) (bn : bool) (ul : Z)
    (isn : bool) (ic : Z) (ok cok : bool) (r : fetch_data_result) :
  ioc_fetch_data_common h handle bn ul isn ic ok cok = Some r ->
  port_side (hcd_priv (fd_hcd r)) = port_side (hcd_priv h).
Proof.
  unfold ioc_fetch_data_common.
  destruct (urbp_from_handle _ _).
  - intros H.
    repeat match type of H with
           | (if ?b then _ else _) = _ => destruct b
           | match ?x with _ => _ end = _ => destruct x
           end; try discriminate; simplify_eq; reflexivity.
  - destruct (urbp_from_handle_in_cancel _ _).
    { intros H. simplify_eq. apply port_side_giveback. }
    destruct (urbp_from_handle_in_canceling _ _); intros H; simplify_eq;
      [apply port_side_giveback|reflexivity].
Qed.

Lemma fetch_work_locked_port_steps (h : usb_hcd) :
  port_steps (hcd_priv h) (hcd_priv (snd (fetch_work_locked h))).
Proof.
  unfold fetch_work_locked, hcd_to_vhci.
  destruct (urbp_list_cancel (hcd_priv h)) as [|e l]; cbn [snd].
  2: { apply port_steps_same, port_side_list_move_tail. }
  destruct (nz (port_update (hcd_priv h)));
    [|apply port_steps_same, port_side_fetch_work_repeat].
  set (h1 := if _ <=? _ then _ else h).
  assert (H1 : port_side (hcd_priv h1) = port_side (hcd_priv h)).
  { subst h1. destruct (_ <=? _); reflexivity. }
  destruct (port_scan _ _ _) as [port|]; cbn [snd].
  - apply port_steps_one, pstep_frame.
    + unfold port_side in H1. cbn. congruence.
    + unfold port_side in H1. cbn. congruence.
    + intros m Hm. pose proof (testbit_true_nonneg _ _ Hm) as Hm0.
      unfold with_vhci in Hm. cbn [hcd_priv port_update set_port_update
        set_port_sched_offset] in Hm.
      rewrite testbit_u32, Z.land_spec in Hm by exact Hm0.
      apply andb_prop in Hm as [Hm _]. apply andb_prop in Hm as [Hm _].
      unfold port_side in H1. congruence.
  - apply port_steps_same. rewrite port_side_fetch_work_repeat. exact H1.
Qed.

Lemma fetch_work_port_steps (h : usb_hcd) (timeout wret : Z) :
  port_steps (hcd_priv h) (hcd_priv (snd (ioc_fetch_work h timeout wret))).
Proof.
  unfold ioc_fetch_work.
  repeat match goal with
         | |- context [if ?b then _ else _] => destruct b
         end; cbn [snd];
    try apply psteps_nil; apply fetch_work_locked_port_steps.
Qed.

Lemma port_update_bits (pu i m : Z) :
  0 <= i <= 255 ->
  Z.testbit (u32 (Z.lor pu (Z.shiftl 1 (u8 i)))) m = true ->
  Z.testbit pu m = true \/ m = i.
Proof.
  intros Hi Hm. pose proof (testbit_true_nonneg _ _ Hm) as Hm0.
  rewrite u8_small in Hm by lia.
  rewrite testbit_u32, Z.lor_spec, testbit_bit in Hm by lia.
  apply andb_prop in Hm as [Hm _]. apply orb_prop in Hm as [Hm|Hm].
  - left. exact Hm.
  - right. apply Z.eqb_eq, Hm.
Qed.

Lemma port_feature_request_port_steps
    (sw : Z -> vhci_port -> option (vhci_port * bool)) (v i : Z)
    (h h' : usb_hcd) :
  (forall p p' b, sw v p = Some (p', b) -> port_op p p') ->
  1 <= i <= port_count (hcd_priv h) -> i <= 255 ->
  port_feature_request sw v i h = Some h' ->
  port_steps (hcd_priv h) (hcd_priv h').
Proof.
  intros Hsw Hi Hi' H. unfold port_feature_request, hcd_to_vhci in H.
  destruct (sw v _) as [[p' b]|] eqn:E; [|discriminate]. simplify_eq.
  apply Hsw in E. apply port_steps_one.
  apply (pstep_port _ _ i p' Hi E); destruct b; try reflexivity.
  - intros m Hm. apply (port_update_bits _ i m) in Hm; [exact Hm|lia].
  - intros m Hm. left. exact Hm.
Qed.

Lemma hub_control_switch_port_steps (t v i l : Z) (h h' : usb_hcd)
    (buf : list Z) :
  0 <= i -> port_count (hcd_priv h) <= 255 ->
  hub_control_switch t v i l h = Some (buf, h') ->
  port_steps (hcd_priv h) (hcd_priv h').
Proof.
  intros Hi Hpc. unfold hub_control_switch, hcd_to_vhci. intros H.
  repeat match type of H with
         | (if ?b then _ else _) = _ => destruct b eqn:?
         end;
    try discriminate; simplify_eq; try apply psteps_nil.
  all: match type of H with
       | option_map _ ?r = _ => destruct r eqn:E; [|discriminate]
       end; cbn [option_map] in H; simplify_eq;
       repeat match goal with
              | Hc : _ || _ = false |- _ =>
                  apply orb_false_elim in Hc as [? ?]
              end;
       match goal with
       | Hz : negb (nz ?j) = false, Hl : (_ <? ?j) = false |- _ =>
           apply negb_false_iff, nz_true in Hz; apply Z.ltb_ge in Hl
       end.
  - eapply (port_feature_request_port_steps clear_port_feature);
      [intros ? ? ?; apply op_clear_feature| | |exact E]; lia.
  - eapply (port_feature_request_port_steps set_port_feature);
      [intros ? ? ?; apply op_set_feature| | |exact E]; lia.
Qed.

Lemma hub_control_port_steps (h : usb_hcd) (t v i l : Z) :
  0 <= i -> port_count (hcd_priv h) <= 255 ->
  port_steps (hcd_priv h) (hcd_priv (snd (vhci_hub_control h t v i l))).
Proof.
  intros Hi Hpc. unfold vhci_hub_control.
  destruct (negb _); [apply psteps_nil|].
  destruct (hub_control_switch t v i l h) as [[buf h1]|] eqn:E; cbn [snd];
    rewrite hcd_priv_poll; [|apply psteps_nil].
  eapply hub_control_switch_port_steps; eassumption.
Qed.

Lemma port_stat_port_steps (h : usb_hcd) (index status change : Z) :
  0 <= index <= 255 ->
  port_steps (hcd_priv h) (hcd_priv (snd (ioc_port_stat h index status change))).
Proof.
  intros Hi. unfold ioc_port_stat, hcd_to_vhci.
  destruct (_ || _) eqn:Er; [apply psteps_nil|].
  destruct (negb (change_mask_ok change)); [apply psteps_nil|].
  destruct (negb (nz (Z.land _ _))) eqn:Ep; [apply psteps_nil|].
  destruct (port_stat_switch _ _ _) as [p'|] eqn:Es; [|apply psteps_nil].
  cbn [snd]. apply orb_false_elim in Er as [Hz Hl].
  apply negb_false_iff, nz_true in Hz. apply Z.ltb_ge in Hl.
  apply negb_false_iff in Ep.
  apply port_steps_one.
  apply (pstep_port _ _ index p'); try reflexivity.
  - lia.
  - eapply op_event; eassumption.
  - intros m Hm. apply (port_update_bits _ index m) in Hm; [exact Hm|lia].
Qed.

Lemma alter_default (f : vhci_port -> vhci_port) (d : vhci_port)
    (l : list vhci_port) :
  forall k : nat,
  alter f k l = alter (fun _ => f (default d (l !! k))) k l.
Proof.
  induction l as [|x l IH]; intros [|k]; cbn; try reflexivity.
  f_equal. apply IH.
Qed.

Lemma bus_suspend_loop_port_steps (n : nat) :
  forall (port : Z) (h : usb_hcd),
  0 <= port ->
  port + Z.of_nat n <= port_count (hcd_priv h) ->
  port_count (hcd_priv h) <= 255 ->
  port_steps (hcd_priv h) (hcd_priv (bus_suspend_loop n port h)) /\
  port_count (hcd_priv (bus_suspend_loop n port h)) = port_count (hcd_priv h).
Proof.
  induction n as [|n IH]; intros port h Hp Hn Hpc; cbn [bus_suspend_loop].
  - split; [apply psteps_nil|reflexivity].
  - match goal with
    | |- context [bus_suspend_loop n (port + 1) ?x] => set (h1 := x)
    end.
    assert (H1 : port_steps (hcd_priv h) (hcd_priv h1) /\
                 port_count (hcd_priv h1) = port_count (hcd_priv h)).
    { subst h1. unfold hcd_to_vhci.
      destruct (nz (Z.land _ USB_PORT_STAT_ENABLE)) eqn:Ee;
        [|split; [apply psteps_nil|reflexivity]].
      destruct (nz (Z.land _ USB_PORT_STAT_SUSPEND)) eqn:Es;
        [split; [apply psteps_nil|reflexivity]|].
      cbn [andb negb]. split; [|reflexivity].
      apply port_steps_one.
      apply (pstep_port _ _ (port + 1)
               (suspend_port (port_at (hcd_priv h) port))).
      - lia.
      - replace (port + 1 - 1) with port by lia. apply op_suspend; assumption.
      - reflexivity.
      - replace (port + 1 - 1) with port by lia.
        unfold userspace_needs_port_update, trigger_work_event, emit,
          with_vhci, update_port, port_at.
        cbn [hcd_priv ports set_port_update set_ports].
        apply (alter_default suspend_port).
      - intros m Hm.
        apply (port_update_bits _ (port + 1) m) in Hm; [exact Hm|lia]. }
    destruct H1 as [Hs1 Hc1].
    destruct (IH (port + 1) h1) as [Hs2 Hc2]; [lia|lia|lia|].
    split; [eapply port_steps_trans; eassumption|congruence].
Qed.

Lemma bus_suspend_port_steps (h : usb_hcd) :
  0 <= port_count (hcd_priv h) <= 255 ->
  port_steps (hcd_priv h) (hcd_priv (snd (vhci_bus_suspend h))).
Proof.
  intros Hpc. unfold vhci_bus_suspend, hcd_to_vhci. cbn [snd].
  destruct (bus_suspend_loop_port_steps
              (Z.to_nat (port_count (hcd_priv h))) 0 h) as [Hs _];
    [lia|lia|lia|].
  eapply port_steps_trans; [exact Hs|].
  apply port_steps_same. reflexivity.
Qed.

Lemma run_port_steps (c : call) (h h' : usb_hcd) :
  0 <= port_count (hcd_priv h) <= 255 ->
  run c h = Some h' -> port_steps (hcd_priv h) (hcd_priv h').
Proof.
  intros Hpc. destruct c; cbn [run]; intros H; simplify_eq.
  - apply port_steps_same, port_side_enqueue.
  - apply port_steps_same, port_side_dequeue.
  - apply hub_control_port_steps; [|lia].
    unfold u16. rewrite Z.land_ones by lia. apply Z.mod_pos_bound. lia.
  - apply bus_suspend_port_steps, Hpc.
  - apply port_steps_same. unfold vhci_bus_resume.
    destruct (negb _); reflexivity.
  - apply port_steps_same. unfold vhci_hcd_suspend.
    destruct (rh_state _); reflexivity.
  - apply port_steps_same. reflexivity.
  - apply port_stat_port_steps.
    unfold u8. rewrite Z.land_ones by lia.
    pose proof (Z.mod_pos_bound index (2 ^ 8) ltac:(lia)) as Hb.
    change (2 ^ 8) with 256 in *. lia.
  - apply fetch_work_port_steps.
  - destruct (ioc_giveback_common _ _ _ _ _ _ _ _ _) as [[r h1]|] eqn:E;
      [|discriminate].
    cbn in H. simplify_eq. apply port_steps_same.
    eapply port_side_giveback_common, E.
  - destruct (ioc_fetch_data_common _ _ _ _ _ _ _ _) as [r|] eqn:E;
      [|discriminate].
    cbn in H. simplify_eq. apply port_steps_same.
    eapply port_side_fetch_data, E.
Qed.

Lemma port_steps_count (v v' : vhci) :
  port_steps v v' ->
  port_count v' = port_count v /\ length (ports v') = length (ports v).
Proof.
  induction 1 as [v|v1 v2 v3 Hs _ [IH1 IH2]]; [split; reflexivity|].
  destruct Hs as [v2 Hc Hp _|v2 i p' _ _ Hc Hp _].
  - rewrite Hp in IH2. split; congruence.
  - rewrite Hp, length_alter in IH2. split; congruence.
Qed.

Lemma run_calls_port_steps (cs : list call) :
  forall h h' : usb_hcd,
  0 <= port_count (hcd_priv h) <= 255 ->
  run_calls cs h = Some h' -> port_steps (hcd_priv h) (hcd_priv h').
Proof.
  induction cs as [|c cs IH]; intros h h' Hpc H; cbn [run_calls] in H.
  - simplify_eq. apply psteps_nil.
  - destruct (run c h) as [h1|] eqn:E; [|discriminate].
    pose proof (run_port_steps c h h1 Hpc E) as Hs.
    eapply port_steps_trans; [exact Hs|]. apply IH; [|exact H].
    destruct (port_steps_count _ _ Hs) as [-> _]. exact Hpc.
Qed.

(** ** Ports stay in legal states *)

Lemma port_step_ok (v v' : vhci) :
  port_step v v' ->
  Forall (fun p => port_ok p = true) (ports v) ->
  Forall (fun p => port_ok p = true) (ports v').
Proof.
  intros [v1 _ Hp _|v1 i p' _ Hop _ Hp _] Hok.
  - rewrite Hp. exact Hok.
  - rewrite Hp. apply Forall_alter; [exact Hok|].
    intros p Hl Hpok. cbv beta.
    unfold port_at in Hop. rewrite Hl in Hop. cbn [default] in Hop.
    eapply port_op_ok; eassumption.
Qed.

Lemma port_steps_ok (v v' : vhci) :
  port_steps v v' ->
  Forall (fun p => port_ok p = true) (ports v) ->
  Forall (fun p => port_ok p = true) (ports v').
Proof.
  induction 1 as [v|v1 v2 v3 Hs _ IH]; intros Hok; [exact Hok|].
  apply IH. eapply port_step_ok; eassumption.
Qed.

(** X8.  Ports stay in legal states.  If every port is in a state of the
    USB 2.0 hub state machine (connected only when powered, enabled only
    when connected, suspended only when enabled, in reset only when
    connected and not enabled, a speed only when connected and never both
    speeds, resuming only when suspended), then so is every port after any
    sequence of calls: no hub request, port event of the worker or bus
    suspend leads out of these states. *)
Theorem port_state_legal (cs : list call) (h h' : usb_hcd) :
  0 <= port_count (hcd_priv h) <= 255 ->
  Forall (fun p => port_ok p = true) (ports (hcd_priv h)) ->
  run_calls cs h = Some h' ->
  Forall (fun p => port_ok p = true) (ports (hcd_priv h')).
Proof.
  intros Hpc Hok Hr. eapply port_steps_ok; [|exact Hok].
  eapply run_calls_port_steps; eassumption.
Qed.

Lemma port_state_legal_witness :
  exists h',
    run_calls port_session (started 2) = Some h' /\
    Forall (fun p => port_ok p = true) (ports (hcd_priv h')).
Proof.
  eexists. split; [vm_compute; reflexivity|].
  apply (port_state_legal port_session (started 2)).
  - vm_compute. split; discriminate.
  - repeat constructor.
  - vm_compute. reflexivity.
Defined.

(** ** A pending port update is always served *)

Lemma port_step_update_ok (v v' : vhci) :
  port_step v v' -> port_update_ok v -> port_update_ok v'.
Proof.
  intros [v1 Hc _ Hu|v1 i p' Hi _ Hc _ Hu] Hok m Hm; rewrite Hc.
  - apply Hok, Hu, Hm.
  - destruct (Hu m Hm) as [H | ->]; [apply Hok, H|exact Hi].
Qed.

Lemma port_steps_update_ok (v v' : vhci) :
  port_steps v v' -> port_update_ok v -> port_update_ok v'.
Proof.
  induction 1 as [v|v1 v2 v3 Hs _ IH]; intros Hok; [exact Hok|].
  apply IH. eapply port_step_update_ok; eassumption.
Qed.

Lemma nonzero_bit (x : Z) : x <> 0 -> exists m, Z.testbit x m = true.
Proof.
  intros Hx. destruct (Z.lt_trichotomy x 0) as [Hneg|[H0|Hpos]];
    [|contradiction|].
  - exists (Z.log2 (Z.abs x) + 1). apply Z.bits_iff_neg; lia.
  - exists (Z.log2 x). apply Z.bit_log2, Hpos.
Qed.

(** X9.  A pending port update is always served.  The update mask only
    ever holds bits of existing ports, so the scan of work-fetch cannot miss
    a set bit: in any state reached from one whose mask is of that kind (a
    freshly started controller's is zero), if no cancellation is waiting and
    the mask is non-zero, a work-fetch that does not wait returns 0 with the
    status, change and flags of a port whose bit is set. *)
Theorem pending_update_served (cs : list call) (h h' : usb_hcd) (wret : Z) :
  0 <= port_count (hcd_priv h) <= 31 ->
  port_update_ok (hcd_priv h) ->
  run_calls cs h = Some h' ->
  urbp_list_cancel (hcd_priv h') = [] ->
  port_update (hcd_priv h') <> 0 ->
  exists i h'',
    1 <= i <= port_count (hcd_priv h') /\
    Z.testbit (port_update (hcd_priv h')) i = true /\
    ioc_fetch_work h' 0 wret =
      (0,
       Some (USB_VHCI_WORK_TYPE_PORT_STAT i
               (port_status (port_at (hcd_priv h') (i - 1)))
               (port_change (port_at (hcd_priv h') (i - 1)))
               (port_flags (port_at (hcd_priv h') (i - 1)))),
       h'').
Proof.
  intros Hpc Hok Hr Hcancel Hnz.
  assert (Hs : port_steps (hcd_priv h) (hcd_priv h')).
  { eapply run_calls_port_steps; [lia|exact Hr]. }
  pose proof (port_steps_update_ok _ _ Hs Hok) as Hok'.
  destruct (port_steps_count _ _ Hs) as [Hc' _].
  destruct (nonzero_bit _ Hnz) as (m & Hm).
  pose proof (Hok' m Hm) as Hrange.
  unfold ioc_fetch_work, has_work, hcd_to_vhci.
  change (nz 0) with false. cbv iota.
  rewrite (proj2 (nz_true _) Hnz). cbn [orb negb].
  unfold fetch_work_locked, hcd_to_vhci. rewrite Hcancel.
  rewrite (proj2 (nz_true _) Hnz).
  set (h1 := if _ <=? _ then _ else h').
  assert (H1 : port_side (hcd_priv h1) = port_side (hcd_priv h')).
  { subst h1. destruct (_ <=? _); reflexivity. }
  injection H1 as Ec Ep Eu Ef.
  assert (Hscan : port_scan (hcd_priv h1)
                    (Z.to_nat (port_count (hcd_priv h1))) 0 <> None).
  { apply (port_scan_complete _ (m - 1)); [lia|].
    replace (m - 1 + 1) with m by lia. congruence. }
  destruct (port_scan _ _ _) as [port|] eqn:Escan; [|contradiction].
  apply port_scan_Some in Escan as (k & Hk & Hport & Hbit & _); [|lia].
  assert (Hpr : 0 <= port < port_count (hcd_priv h1)).
  { rewrite Hport. apply Z.mod_pos_bound. lia. }
  exists (port + 1). eexists. split; [lia|].
  split; [rewrite <- Eu; exact Hbit|].
  replace (port + 1 - 1) with port by lia.
  unfold port_at. rewrite Ep. reflexivity.
Qed.

Lemma pending_update_served_witness :
  exists h',
    run_calls [call_hub_control SetPortFeature USB_PORT_FEAT_POWER 2 0]
              (started 2) = Some h' /\
    exists i h'',
      1 <= i <= port_count (hcd_priv h') /\
      Z.testbit (port_update (hcd_priv h')) i = true /\
      ioc_fetch_work h' 0 0 =
        (0,
         Some (USB_VHCI_WORK_TYPE_PORT_STAT i
                 (port_status (port_at (hcd_priv h') (i - 1)))
                 (port_change (port_at (hcd_priv h') (i - 1)))
                 (port_flags (port_at (hcd_priv h') (i - 1)))),
         h'').
Proof.
  eexists. split; [vm_compute; reflexivity|].
  apply (pending_update_served
           [call_hub_control SetPortFeature USB_PORT_FEAT_POWER 2 0]
           (started 2)).
  - vm_compute. split; discriminate.
  - intros m Hm. change (Z.testbit 0 m = true) in Hm.
    rewrite Z.bits_0 in Hm. discriminate.
  - vm_compute. reflexivity.
  - reflexivity.
  - vm_compute. discriminate.
Defined.

(** ** Bus suspend *)

Lemma port_at_update_eq (i : Z) (f : vhci_port -> vhci_port) (v : vhci)
    (x : vhci_port) :
  ports v !! Z.to_nat i = Some x -> port_at (update_port i f v) i = f x.
Proof.
  intros H. unfold port_at, update_port, set_ports. cbn [ports].
  rewrite list_lookup_alter_eq, H. reflexivity.
Qed.

Lemma port_at_update_ne (i j : Z) (f : vhci_port -> vhci_port) (v : vhci) :
  Z.to_nat i <> Z.to_nat j -> port_at (update_port i f v) j = port_at v j.
Proof.
  intros H. unfold port_at, update_port, set_ports. cbn [ports].
  rewrite list_lookup_alter_ne by exact H. reflexivity.
Qed.

Lemma suspendable_in_range (v : vhci) (i : Z) :
  suspendable (port_at v i) = true ->
  ports v !! Z.to_nat i = Some (port_at v i).
Proof.
  unfold port_at. destruct (ports v !! Z.to_nat i); [reflexivity|].
  cbn. discriminate.
Qed.

Lemma testbit_set_bit (pu k m : Z) :
  0 <= k -> 0 <= m < 32 ->
  Z.testbit (u32 (Z.lor pu (Z.shiftl 1 k))) m = Z.testbit pu m || (m =? k).
Proof.
  intros Hk Hm. rewrite testbit_u32, Z.lor_spec, testbit_bit by lia.
  replace (m <? 32) with true by (symmetry; apply Z.ltb_lt; lia).
  apply andb_true_r.
Qed.

Lemma bus_suspend_loop_spec (n : nat) :
  forall (s : Z) (h : usb_hcd),
  0 <= s -> s + Z.of_nat n <= 255 ->
  let h' := bus_suspend_loop n s h in
  (forall p, 0 <= p ->
     port_at (hcd_priv h') p =
       if (s <=? p) && (p <? s + Z.of_nat n) && suspendable (port_at (hcd_priv h) p)
       then suspend_port (port_at (hcd_priv h) p)
       else port_at (hcd_priv h) p) /\
  (forall m, 0 <= m < 32 ->
     Z.testbit (port_update (hcd_priv h')) m =
       Z.testbit (port_update (hcd_priv h)) m ||
       ((s + 1 <=? m) && (m <=? s + Z.of_nat n) &&
        suspendable (port_at (hcd_priv h) (m - 1)))) /\
  rh_state (hcd_priv h') = rh_state (hcd_priv h) /\
  port_count (hcd_priv h') = port_count (hcd_priv h) /\
  hw_accessible h' = hw_accessible h.
Proof.
  induction n as [|n IH]; intros s h Hs Hn; cbn [bus_suspend_loop]; cbv zeta.
  - repeat split.
    + intros p Hp.
      replace (p <? s + Z.of_nat 0) with (p <? s) by (f_equal; lia).
      destruct (Z.leb_spec s p), (Z.ltb_spec p s); try lia; reflexivity.
    + intros m Hm.
      destruct (Z.leb_spec (s + 1) m), (Z.leb_spec m (s + Z.of_nat 0));
        try lia; cbn [andb]; rewrite orb_false_r; reflexivity.
  - match goal with
    | |- context [bus_suspend_loop n (s + 1) ?x] => set (h1 := x)
    end.
    destruct (IH (s + 1) h1 ltac:(lia) ltac:(lia)) as (Hp' & Hu' & Hr' & Hc' & Hw').
    fold (suspendable (port_at (hcd_to_vhci h) s)) in h1.
    unfold hcd_to_vhci in h1.
    assert (Hp1 : forall p, 0 <= p ->
              port_at (hcd_priv h1) p =
                if (p =? s) && suspendable (port_at (hcd_priv h) p)
                then suspend_port (port_at (hcd_priv h) p)
                else port_at (hcd_priv h) p).
    { intros p Hp. subst h1.
      destruct (Z.eqb_spec p s) as [->|Hne]; cbn [andb].
      - destruct (suspendable (port_at (hcd_priv h) s)) eqn:Es; [|reflexivity].
        apply suspendable_in_range in Es.
        apply (port_at_update_eq s suspend_port _ _ Es).
      - destruct (suspendable (port_at (hcd_priv h) s)); [|reflexivity].
        apply (port_at_update_ne s p). lia. }
    assert (Hu1 : forall m, 0 <= m < 32 ->
              Z.testbit (port_update (hcd_priv h1)) m =
                Z.testbit (port_update (hcd_priv h)) m ||
                ((m =? s + 1) && suspendable (port_at (hcd_priv h) s))).
    { intros m Hm. subst h1.
      destruct (suspendable (port_at (hcd_priv h) s));
        [|rewrite andb_false_r, orb_false_r; reflexivity].
      rewrite andb_true_r.
      unfold userspace_needs_port_update, trigger_work_event, emit, with_vhci.
      cbn [hcd_priv port_update set_port_update].
      rewrite u8_small by lia. apply testbit_set_bit; lia. }
    assert (H1 : rh_state (hcd_priv h1) = rh_state (hcd_priv h) /\
                 port_count (hcd_priv h1) = port_count (hcd_priv h) /\
                 hw_accessible h1 = hw_accessible h).
    { subst h1. destruct (suspendable _); repeat split. }
    destruct H1 as (Hr1 & Hc1 & Hw1).
    repeat split; try congruence.
    + intros p Hp. rewrite (Hp' p Hp), (Hp1 p Hp).
      replace (p <? s + 1 + Z.of_nat n) with (p <? s + Z.of_nat (S n))
        by (f_equal; lia).
      destruct (Z.eqb_spec p s) as [->|Hne]; cbn [andb].
      * replace (s + 1 <=? s) with false by (symmetry; apply Z.leb_gt; lia).
        rewrite Z.leb_refl.
        replace (s <? s + Z.of_nat (S n)) with true
          by (symmetry; apply Z.ltb_lt; lia).
        cbn [andb]. reflexivity.
      * replace (s + 1 <=? p) with (s <=? p); [reflexivity|].
        destruct (Z.leb_spec s p), (Z.leb_spec (s + 1) p); try lia;
          reflexivity.
    + intros m Hm. rewrite (Hu' m Hm), (Hu1 m Hm), <- orb_assoc. f_equal.
      replace (m <=? s + 1 + Z.of_nat n) with (m <=? s + Z.of_nat (S n))
        by (f_equal; lia).
      destruct (Z.eqb_spec m (s + 1)) as [->|Hne].
      * replace (s + 1 + 1 <=? s + 1) with false
          by (symmetry; apply Z.leb_gt; lia).
        rewrite Z.leb_refl.
        replace (s + 1 <=? s + Z.of_nat (S n)) with true
          by (symmetry; apply Z.leb_le; lia).
        replace (s + 1 - 1) with s by lia.
        cbn [andb]. rewrite orb_false_r. reflexivity.
      * cbn [andb orb].
        destruct (Z.leb_spec (s + 1 + 1) m), (Z.leb_spec (s + 1) m);
          try (exfalso; lia); cbn [andb]; try reflexivity.
        destruct (m <=? _); [|reflexivity]. cbn [andb].
        rewrite (Hp1 (m - 1)) by lia.
        replace (m - 1 =? s) with false by (symmetry; apply Z.eqb_neq; lia).
        reflexivity.
Qed.

Lemma suspend_port_suspended (p : vhci_port) :
  suspendable (suspend_port p) = false.
Proof.
  unfold suspendable, suspend_port. cbn [port_status]. flag_tests.
  bit_blast. rewrite orb_true_r. cbn [andb negb]. apply andb_false_r.
Qed.

(** X10.  Bus suspend.  Every port that is enabled and not yet suspended
    gets its suspend bit set and its resuming flag cleared, and the worker
    is told of it through the port's update bit; every other port, and its
    update bit, is left as it was.  Afterwards the root hub is marked
    suspended, no port is left enabled without being suspended (so a second
    suspend finds nothing to do), and no urb has been touched. *)
Theorem bus_suspend_effect (h : usb_hcd) :
  0 <= port_count (hcd_priv h) <= 31 ->
  let h' := snd (vhci_bus_suspend h) in
  fst (vhci_bus_suspend h) = 0 /\
  rh_state (hcd_priv h') = VHCI_RH_SUSPENDED /\
  (forall p, 0 <= p < port_count (hcd_priv h) ->
     let old := port_at (hcd_priv h) p in
     if suspendable old
     then port_at (hcd_priv h') p = suspend_port old /\
          Z.testbit (port_update (hcd_priv h')) (p + 1) = true
     else port_at (hcd_priv h') p = old /\
          Z.testbit (port_update (hcd_priv h')) (p + 1) =
            Z.testbit (port_update (hcd_priv h)) (p + 1)) /\
  (forall p, 0 <= p < port_count (hcd_priv h) ->
     suspendable (port_at (hcd_priv h') p) = false) /\
  urbs_untouched h h'.
Proof.
  intros Hpc h'.
  destruct (bus_suspend_loop_spec (Z.to_nat (port_count (hcd_priv h))) 0 h)
    as (Hp & Hu & _); [lia|lia|].
  assert (Hports : forall p, 0 <= p < port_count (hcd_priv h) ->
            port_at (hcd_priv h') p =
              if suspendable (port_at (hcd_priv h) p)
              then suspend_port (port_at (hcd_priv h) p)
              else port_at (hcd_priv h) p).
  { intros p Hr. subst h'. unfold vhci_bus_suspend, hcd_to_vhci. cbn [snd].
    change (port_at (hcd_priv (with_vhci (set_rh_state VHCI_RH_SUSPENDED) ?x)) p)
      with (port_at (hcd_priv x) p).
    rewrite (Hp p) by lia.
    replace (0 <=? p) with true by (symmetry; apply Z.leb_le; lia).
    replace (p <? 0 + Z.of_nat (Z.to_nat (port_count (hcd_priv h))))
      with true by (symmetry; apply Z.ltb_lt; lia).
    reflexivity. }
  assert (Hbits : forall p, 0 <= p < port_count (hcd_priv h) ->
            Z.testbit (port_update (hcd_priv h')) (p + 1) =
              Z.testbit (port_update (hcd_priv h)) (p + 1) ||
              suspendable (port_at (hcd_priv h) p)).
  { intros p Hr. subst h'. unfold vhci_bus_suspend, hcd_to_vhci. cbn [snd].
    change (port_update (hcd_priv (with_vhci (set_rh_state VHCI_RH_SUSPENDED) ?x)))
      with (port_update (hcd_priv x)).
    rewrite (Hu (p + 1)) by lia.
    replace (0 + 1 <=? p + 1) with true by (symmetry; apply Z.leb_le; lia).
    replace (p + 1 <=? 0 + Z.of_nat (Z.to_nat (port_count (hcd_priv h))))
      with true by (symmetry; apply Z.leb_le; lia).
    replace (p + 1 - 1) with p by lia. reflexivity. }
  split; [reflexivity|]. split; [reflexivity|]. split; [|split].
  - intros p Hr old. subst old.
    rewrite (Hbits p Hr), (Hports p Hr).
    destruct (suspendable (port_at (hcd_priv h) p)).
    + split; [reflexivity|apply orb_true_r].
    + split; [reflexivity|apply orb_false_r].
  - intros p Hr. rewrite (Hports p Hr).
    destruct (suspendable (port_at (hcd_priv h) p)) eqn:E;
      [apply suspend_port_suspended|exact E].
  - apply bus_suspend_untouched.
Qed.

Lemma bus_suspend_effect_witness :
  exists h,
    run_calls (firstn 4 port_session) (started 2) = Some h /\
    suspendable (port_at (hcd_priv h) 0) = true /\
    port_at (hcd_priv (snd (vhci_bus_suspend h))) 0 =
      suspend_port (port_at (hcd_priv h) 0) /\
    Z.testbit (port_update (hcd_priv (snd (vhci_bus_suspend h)))) 1 = true.
Proof.
  eexists. split; [vm_compute; reflexivity|]. split; [reflexivity|].
  match goal with
  | |- context [vhci_bus_suspend ?h] =>
      pose proof (bus_suspend_effect h) as H
  end.
  destruct H as (_ & _ & H & _); [vm_compute; split; discriminate|].
  specialize (H 0). cbv zeta in H. apply H. vm_compute. split; [discriminate|reflexivity].
Defined.

(** ** Power management *)

(** X11.  The order of suspend and resume.  The platform device can be
    suspended only after the root hub: while the root hub is running the
    call fails with -EBUSY and changes nothing.  After a bus suspend it
    succeeds; from then on every hub request times out with -ETIMEDOUT, the
    status poll reports no change and a bus resume fails with -ENODEV, all
    three leaving the state alone.  Resuming the device and then the bus
    leads back to a running root hub with the ports as the bus suspend left
    them. *)
Theorem suspend_resume_order (h : usb_hcd) :
  let h1 := snd (vhci_bus_suspend h) in
  let h2 := snd (vhci_hcd_suspend h1) in
  let h3 := snd (vhci_hcd_resume h2) in
  let h4 := snd (vhci_bus_resume h3) in
  (rh_state (hcd_priv h) = VHCI_RH_RUNNING ->
   vhci_hcd_suspend h = (- EBUSY, h)) /\
  fst (vhci_hcd_suspend h1) = 0 /\
  hw_accessible h2 = false /\
  (forall t v i l, vhci_hub_control h2 t v i l = (- ETIMEDOUT, [], h2)) /\
  fst (fst (vhci_hub_status h2)) = 0 /\
  vhci_bus_resume h2 = (- ENODEV, h2) /\
  fst (vhci_hcd_resume h2) = 0 /\
  fst (vhci_bus_resume h3) = 0 /\
  hw_accessible h4 = true /\
  rh_state (hcd_priv h4) = VHCI_RH_RUNNING /\
  port_side (hcd_priv h4) = port_side (hcd_priv h1) /\
  trace h4 = trace h1 ++ [usb_hcd_poll_rh_status].
Proof.
  cbv zeta. split.
  { intros Hr. unfold vhci_hcd_suspend, hcd_to_vhci. rewrite Hr. reflexivity. }
  unfold vhci_bus_suspend. cbn [snd].
  set (hl := bus_suspend_loop _ _ _).
  unfold vhci_hcd_suspend, hcd_to_vhci, with_vhci, set_rh_state.
  cbn [hcd_priv rh_state fst snd hw_accessible trace].
  repeat split.
Qed.

(** ** Start *)

Lemma port_at_replicate (v : vhci) (n : nat) (p : vhci_port) (i : Z) :
  ports v = replicate n (mk_port 0 0 0) -> port_at v i = mk_port 0 0 0.
Proof.
  intros H. unfold port_at. rewrite H.
  destruct (replicate n _ !! Z.to_nat i) as [x|] eqn:E; [|reflexivity].
  apply lookup_replicate in E as [-> _]. reflexivity.
Qed.

(** X12.  What a start leaves behind.  If the port array cannot be
    allocated the call fails with -ENOMEM and changes nothing; if one of
    the four attribute files cannot be created, the code of the first
    failure is returned and the port array is released again.  Otherwise
    the controller has the configured number of ports, all of them off,
    empty queues and a zero update mask: there is no work (a work-fetch
    that does not wait times out), each port in range reports four zero
    bytes once the controller is accessible, and the state satisfies what
    the theorems on call sequences ask of their starting state. *)
Theorem start_state (h : usb_hcd) (n : Z) (kzalloc_ok : bool) (r1 r2 r3 r4 : Z) :
  let ret := fst (vhci_start h n kzalloc_ok r1 r2 r3 r4) in
  let h' := snd (vhci_start h n kzalloc_ok r1 r2 r3 r4) in
  let v' := hcd_priv h' in
  (kzalloc_ok = false -> ret = - ENOMEM /\ h' = h) /\
  (kzalloc_ok = true ->
   (ret = if nz r1 then r1 else if nz r2 then r2 else if nz r3 then r3 else r4) /\
   (ret <> 0 -> port_count v' = 0 /\ ports v' = []) /\
   (ret = 0 ->
    port_count v' = n /\ length (ports v') = Z.to_nat n /\
    rh_state v' = VHCI_RH_RUNNING /\
    has_work v' = false /\
    (forall w, ioc_fetch_work h' 0 w = (- ETIMEDOUT, None, h')) /\
    (forall i, 1 <= i <= n -> hw_accessible h = true ->
       vhci_hub_control h' GetPortStatus 0 i 4 = (0, [0; 0; 0; 0], h')) /\
    accounted h' = given_back (trace h) /\
    zero_status v' /\ checked_queues v' /\ port_update_ok v' /\
    Forall (fun p => port_ok p = true) (ports v'))).
Proof.
  cbv zeta. unfold vhci_start. split.
  { intros ->. cbn [negb fst snd]. split; reflexivity. }
  intros ->. cbn [negb].
  set (r := if nz r1 then r1 else if nz r2 then r2 else if nz r3 then r3 else r4).
  destruct (nz r) eqn:Er.
  - cbn [fst snd hcd_priv port_count ports]. apply nz_true in Er.
    split; [reflexivity|]. split; [intros _; split; reflexivity|].
    intros H. contradiction.
  - cbn [fst snd hcd_priv]. apply nz_false in Er.
    split; [symmetry; exact Er|]. split; [intros H; contradiction|].
    intros _. cbn [port_count ports rh_state].
    split; [reflexivity|]. split; [apply length_replicate|].
    split; [reflexivity|]. split; [reflexivity|]. split; [reflexivity|].
    split; [|split; [reflexivity|]].
    + intros i Hi Hw. unfold vhci_hub_control. cbn [hw_accessible].
      rewrite Hw. cbn [negb].
      unfold hub_control_switch, hcd_to_vhci. cbn [hcd_priv port_count].
      change (GetPortStatus =? ClearHubFeature) with false.
      change (GetPortStatus =? SetHubFeature) with false.
      change (GetPortStatus =? ClearPortFeature) with false.
      change (GetPortStatus =? GetHubDescriptor) with false.
      change (GetPortStatus =? GetHubStatus) with false.
      change (GetPortStatus =? GetPortStatus) with true.
      cbn [orb]. cbv iota.
      change (nz 0) with false. change (4 =? 4) with true.
      rewrite (proj2 (nz_true i)) by lia.
      replace (n <? i) with false by (symmetry; apply Z.ltb_ge; lia).
      cbn [orb negb]. cbv iota.
      rewrite (port_at_replicate _ (Z.to_nat n) (mk_port 0 0 0)) by reflexivity.
      cbn [port_status port_change].
      change (u8 0) with 0. change (u8 (Z.shiftr 0 8)) with 0.
      unfold has_changes. cbn [hcd_priv port_count ports].
      replace (existsb _ _) with false; [reflexivity|].
      symmetry. apply not_true_is_false. intros Hex.
      apply existsb_exists in Hex as (x & Hin & Hx).
      apply list_elem_of_In, elem_of_take in Hin as (k & Hk & _).
      apply lookup_replicate in Hk as [-> _]. discriminate.
    + split; [intros q; destruct q; apply List.Forall_nil|].
      split; [intros q _; destruct q; apply List.Forall_nil|].
      split.
      * intros m Hm. cbn [port_update] in Hm.
        rewrite Z.bits_0 in Hm. discriminate.
      * apply Forall_forall. intros x Hx.
        apply elem_of_replicate in Hx as [-> _]. reflexivity.
Qed.

Lemma start_state_witness :
  fst (vhci_start hcd_idle 2 true 0 0 0 0) = 0 /\
  has_work (hcd_priv (started 2)) = false /\
  port_update_ok (hcd_priv (started 2)).
Proof.
  destruct (start_state hcd_idle 2 true 0 0 0 0) as [_ H].
  destruct (H eq_refl) as (_ & _ & H0).
  destruct (H0 eq_refl) as (_ & _ & _ & Hw & _ & _ & _ & _ & _ & Hu & _).
  split; [reflexivity|]. split; [reflexivity|].
  exact Hu.
Defined.

(** ** Asking for the data of a cancelled urb *)

Lemma find_urbp_None_iff (handle : Z) (l : list vhci_urb_priv) :
  find_urbp handle l = None <-> ~ In handle (map handle_of l).
Proof.
  induction l as [|e l IH]; cbn [find_urbp map In].
  - split; [intros _ []|reflexivity].
  - destruct (Z.eqb_spec (handle_of e) handle) as [E|E].
    + split; [discriminate|]. intros H. exfalso. apply H. left. exact E.
    + rewrite IH. split.
      * intros H [H1|H1]; [contradiction|]. apply H, H1.
      * intros H H1. apply H. right. exact H1.
Qed.

Lemma find_urbp_not_queued (v : vhci) (q : urbp_list) (handle : Z) :
  ~ In handle (queued v) -> find_urbp handle (get_list q v) = None.
Proof.
  intros H. apply find_urbp_None_iff. intros Hin. apply H.
  apply list_elem_of_In. rewrite (queued_split q v).
  apply list_elem_of_In, in_or_app. left. exact Hin.
Qed.

Lemma giveback_not_queued (q : urbp_list) (e : vhci_urb_priv) (h : usb_hcd) :
  List.NoDup (queued (hcd_priv h)) ->
  find_urbp (handle_of e) (get_list q (hcd_priv h)) = Some e ->
  ~ In (handle_of e) (queued (hcd_priv (vhci_urb_giveback q e h))).
Proof.
  intros Hnd Hf.
  pose proof (queued_list_del q e e (hcd_priv h) Hf) as Hperm.
  apply NoDup_ListNoDup in Hnd. rewrite <- Hperm in Hnd.
  apply NoDup_cons in Hnd as [Hnin _].
  intros Hin. apply Hnin, list_elem_of_In. exact Hin.
Qed.

Lemma giveback_unknown (h : usb_hcd) (handle status act iso_count err_count : Z)
    (buf : option (list Z)) (iso : option (list (Z * Z))) (ok : bool) :
  ~ In handle (queued (hcd_priv h)) ->
  ioc_giveback_common h handle status act iso_count err_count buf iso ok =
    Some (- ENOENT, h).
Proof.
  intros H. unfold ioc_giveback_common, giveback_lookup, urbp_from_handle,
    urbp_from_handle_in_canceling, urbp_from_handle_in_cancel, hcd_to_vhci.
  rewrite (find_urbp_not_queued _ Fetched _ H : find_urbp _ (urbp_list_fetched _) = None).
  rewrite (find_urbp_not_queued _ Canceling _ H : find_urbp _ (urbp_list_canceling _) = None).
  rewrite (find_urbp_not_queued _ Cancel _ H : find_urbp _ (urbp_list_cancel _) = None).
  reflexivity.
Qed.

(** X13.  Asking for the data of a cancelled urb completes it.  With
    every queued urb queued once, a data fetch for an urb that sits in the
    cancel or the canceling queue returns -ECANCELED without data, and gives
    the urb back on the spot with its status field as it stands; the handle
    is then gone from the queues, so a give-back of the worker for it
    afterwards finds nothing and returns -ENOENT without any effect. *)
Theorem fetch_data_cancelled (h : usb_hcd) (handle : Z) (user_buf_null : bool)
    (user_len : Z) (iso_null : bool) (iso_count : Z)
    (iso_access_ok copy_ok : bool) :
  let v := hcd_priv h in
  List.NoDup (queued v) ->
  In handle (map handle_of (urbp_list_cancel v ++ urbp_list_canceling v)) ->
  exists r e,
    ioc_fetch_data_common h handle user_buf_null user_len iso_null iso_count
      iso_access_ok copy_ok = Some r /\
    fd_retval r = - ECANCELED /\ fd_data r = None /\
    In e (urbp_list_cancel v ++ urbp_list_canceling v) /\
    handle_of e = handle /\
    trace (fd_hcd r) =
      trace h ++ [usb_hcd_giveback_urb (urbp_urb e) (urbp_status e)] /\
    ~ In handle (queued (hcd_priv (fd_hcd r))) /\
    forall status act iso_count' err_count buf iso ok,
      ioc_giveback_common (fd_hcd r) handle status act iso_count' err_count
        buf iso ok = Some (- ENOENT, fd_hcd r).
Proof.
  intros v Hnd Hin. subst v.
  assert (Hfetched : find_urbp handle (urbp_list_fetched (hcd_priv h)) = None).
  { apply find_urbp_None_iff. intros Hf.
    pose proof Hnd as Hnd'.
    unfold queued in Hnd'. rewrite !map_app in Hnd'.
    apply List.NoDup_app_remove_l in Hnd'.
    rewrite map_app in Hin.
    apply NoDup_ListNoDup in Hnd'.
    apply NoDup_app in Hnd' as (_ & Hdis & _).
    apply (Hdis handle); apply list_elem_of_In; assumption. }
  unfold ioc_fetch_data_common, urbp_from_handle, urbp_from_handle_in_cancel,
    urbp_from_handle_in_canceling, hcd_to_vhci.
  rewrite Hfetched.
  destruct (find_urbp handle (urbp_list_cancel (hcd_priv h))) as [e|] eqn:Ec.
  - pose proof (find_urbp_Some _ _ _ Ec) as (_ & _ & _ & _ & He).
    assert (Hf : find_urbp (handle_of e) (get_list Cancel (hcd_priv h)) = Some e)
      by (rewrite He; exact Ec).
    pose proof (giveback_not_queued Cancel e h Hnd Hf) as Hgone.
    rewrite He in Hgone.
    eexists. exists e. cbn [fd_retval fd_data fd_hcd].
    repeat split; try reflexivity; try exact He; try exact Hgone.
    + apply in_or_app. left. eapply find_urbp_In, Ec.
    + intros. apply giveback_unknown, Hgone.
  - destruct (find_urbp handle (urbp_list_canceling (hcd_priv h)))
      as [e|] eqn:Eg.
    + pose proof (find_urbp_Some _ _ _ Eg) as (_ & _ & _ & _ & He).
      assert (Hf : find_urbp (handle_of e) (get_list Canceling (hcd_priv h))
                   = Some e) by (rewrite He; exact Eg).
      pose proof (giveback_not_queued Canceling e h Hnd Hf) as Hgone.
      rewrite He in Hgone.
      eexists. exists e. cbn [fd_retval fd_data fd_hcd].
      repeat split; try reflexivity; try exact He; try exact Hgone.
      * apply in_or_app. right. eapply find_urbp_In, Eg.
      * intros. apply giveback_unknown, Hgone.
    + exfalso. rewrite map_app in Hin. apply in_app_or in Hin as [Hi|Hi].
      * apply find_urbp_None_iff in Ec. contradiction.
      * apply find_urbp_None_iff in Eg. contradiction.
Qed.

Lemma fetch_data_cancelled_witness :
  exists h,
    run_calls (firstn 4 life_cycle) (started 2) = Some h /\
    exists r e,
      ioc_fetch_data_common h 7 true 0 true 0 true true = Some r /\
      fd_retval r = - ECANCELED /\ fd_data r = None /\
      In e (urbp_list_cancel (hcd_priv h) ++ urbp_list_canceling (hcd_priv h)) /\
      handle_of e = 7 /\
      trace (fd_hcd r) =
        trace h ++ [usb_hcd_giveback_urb (urbp_urb e) (urbp_status e)] /\
      ~ In 7 (queued (hcd_priv (fd_hcd r))) /\
      forall status act iso_count' err_count buf iso ok,
        ioc_giveback_common (fd_hcd r) 7 status act iso_count' err_count
          buf iso ok = Some (- ENOENT, fd_hcd r).
Proof.
  eexists. split; [vm_compute; reflexivity|].
  apply (fetch_data_cancelled _ 7 true 0 true 0 true true).
  - vm_compute. repeat (constructor; [cbn; lia|]). constructor.
  - vm_compute. left. reflexivity.
Defined.

Lemma suspend_resume_order_witness :
  vhci_hcd_suspend (started 2) = (- EBUSY, started 2).
Proof.
  apply (proj1 (suspend_resume_order (started 2))). reflexivity.
Defined.

(** ** Port events of the worker *)

Lemma powered_in_range (v : vhci) (i : Z) :
  nz (Z.land (port_status (port_at v i)) USB_PORT_STAT_POWER) = true ->
  ports v !! Z.to_nat i = Some (port_at v i).
Proof.
  unfold port_at. destruct (ports v !! Z.to_nat i); [reflexivity|].
  cbn. discriminate.
Qed.

Lemma change_mask_cases (change : Z) :
  change_mask_ok change = true ->
  change = USB_PORT_STAT_C_CONNECTION \/ change = USB_PORT_STAT_C_ENABLE \/
  change = USB_PORT_STAT_C_SUSPEND \/ change = USB_PORT_STAT_C_OVERCURRENT \/
  change = USB_PORT_STAT_C_RESET \/
  change = Z.lor USB_PORT_STAT_C_RESET USB_PORT_STAT_C_ENABLE.
Proof.
  unfold change_mask_ok. intros H.
  repeat (apply orb_prop in H as [H | H]); apply Z.eqb_eq in H; tauto.
Qed.

Lemma port_stat_switch_change (status change : Z) (p p' : vhci_port) :
  change_mask_ok change = true ->
  port_stat_switch status change p = Some p' ->
  (forall n, 0 <= n < 16 ->
     Z.testbit (port_change p') n =
       Z.testbit (port_change p) n || Z.testbit change n) /\
  (Z.testbit (port_status p) 8 = true -> Z.testbit (port_status p') 8 = true).
Proof.
  intros Hmask H. apply change_mask_cases in Hmask.
  unfold port_stat_switch in H. cbv zeta in H.
  assert (Hlt : forall n, 0 <= n < 16 -> (n <? 16) = true)
    by (intros; apply Z.ltb_lt; lia).
  destruct Hmask as [-> | [-> | [-> | [-> | [-> | ->]]]]];
    revert H; eval_eqb;
    try change (nz (Z.land USB_PORT_STAT_C_RESET USB_PORT_STAT_C_ENABLE))
      with false;
    try change (nz (Z.land (Z.lor USB_PORT_STAT_C_RESET USB_PORT_STAT_C_ENABLE)
                           USB_PORT_STAT_C_ENABLE)) with true;
    intros H; split_ifs; simplify_eq;
    cbn [port_change port_status]; (split; [intros n Hn|intros Hp]).
  all: try (rewrite ?testbit_u16, ?Z.lor_spec, ?(Hlt n Hn), ?andb_true_r by lia;
            rewrite ?orb_assoc; reflexivity).
  all: try (flag_tests; bit_blast; rewrite ?Hp; reflexivity).
  all: try (repeat (rewrite ?testbit_u16, ?Z.lor_spec, ?(Hlt n Hn),
                      ?andb_true_r by lia);
            destruct (Z.testbit (port_change p) n),
              (Z.testbit USB_PORT_STAT_C_RESET n),
              (Z.testbit USB_PORT_STAT_C_ENABLE n); reflexivity).
Qed.

(** X14.  What an accepted port event does.  A port event that returns 0
    was addressed to an existing, powered port with one of the six change
    masks.  It latches exactly the bits of the mask into the port's change
    register on top of those already set, leaves the port powered and every
    other port as it was, sets the update bit of the port and no other,
    wakes the worker and asks for a root-hub poll, and touches no urb. *)
Theorem port_event_effect (h h' : usb_hcd) (index status change : Z) :
  0 <= index <= 31 ->
  ioc_port_stat h index status change = (0, h') ->
  let v := hcd_priv h in
  let v' := hcd_priv h' in
  1 <= index <= port_count v /\
  change_mask_ok change = true /\
  Z.testbit (port_status (port_at v (index - 1))) 8 = true /\
  Z.testbit (port_status (port_at v' (index - 1))) 8 = true /\
  (forall n, 0 <= n < 16 ->
     Z.testbit (port_change (port_at v' (index - 1))) n =
       Z.testbit (port_change (port_at v (index - 1))) n ||
       Z.testbit change n) /\
  (forall j, 0 <= j -> j <> index - 1 -> port_at v' j = port_at v j) /\
  (forall m, 0 <= m < 32 ->
     Z.testbit (port_update v') m =
       Z.testbit (port_update v) m || (m =? index)) /\
  trace h' = trace h ++ [wake_up_interruptible; usb_hcd_poll_rh_status] /\
  (forall q, get_list q v' = get_list q v).
Proof.
  intros Hi. unfold ioc_port_stat, hcd_to_vhci.
  destruct (_ || _) eqn:Er; [discriminate|].
  destruct (change_mask_ok change) eqn:Em; [|discriminate]. cbn [negb].
  destruct (nz (Z.land _ USB_PORT_STAT_POWER)) eqn:Ep; [|discriminate].
  cbn [negb].
  destruct (port_stat_switch _ _ _) as [p'|] eqn:Es; [|discriminate].
  intros H. injection H as <-. cbv zeta.
  apply orb_false_elim in Er as [Hz Hl].
  apply negb_false_iff, nz_true in Hz. apply Z.ltb_ge in Hl.
  pose proof (powered_in_range _ _ Ep) as Hin.
  destruct (port_stat_switch_change _ _ _ _ Em Es) as [Hc Hpow].
  change USB_PORT_STAT_POWER with (2 ^ 8) in Ep.
  rewrite nz_land_pow2 in Ep by lia.
  unfold userspace_needs_port_update, trigger_work_event, emit, with_vhci.
  cbn [hcd_priv trace hw_accessible].
  assert (Hat : port_at
                  (set_port_update
                     (u32 (Z.lor (port_update
                                    (update_port (index - 1) (fun _ => p')
                                       (hcd_priv h)))
                                 (Z.shiftl 1 (u8 index))))
                     (update_port (index - 1) (fun _ => p') (hcd_priv h)))
                  (index - 1) = p').
  { change (port_at (set_port_update ?u ?w) ?i) with (port_at w i).
    apply (port_at_update_eq _ (fun _ => p') _ _ Hin). }
  rewrite Hat.
  split; [lia|]. split; [reflexivity|]. split; [exact Ep|].
  split; [apply Hpow, Ep|]. split; [exact Hc|]. split; [|split; [|split]].
  - intros j Hj Hne.
    change (port_at (set_port_update ?u ?w) ?i) with (port_at w i).
    apply port_at_update_ne. lia.
  - intros m Hm. cbn [port_update set_port_update update_port set_ports].
    rewrite u8_small by lia. apply testbit_set_bit; lia.
  - rewrite <- app_assoc. reflexivity.
  - intros q. destruct q; reflexivity.
Qed.

Lemma port_event_effect_witness :
  exists h h',
    run_calls (firstn 1 port_session) (started 2) = Some h /\
    ioc_port_stat h 1 USB_PORT_STAT_CONNECTION USB_PORT_STAT_C_CONNECTION =
      (0, h') /\
    Z.testbit (port_change (port_at (hcd_priv h') 0)) 0 = true /\
    Z.testbit (port_update (hcd_priv h')) 1 = true.
Proof.
  eexists. eexists. split; [vm_compute; reflexivity|].
  split; [vm_compute; reflexivity|].
  match goal with
  | |- context [port_change (port_at (hcd_priv ?x) 0)] =>
      pose proof (fun h => port_event_effect h x 1 USB_PORT_STAT_CONNECTION
                             USB_PORT_STAT_C_CONNECTION ltac:(lia)) as H
  end.
  match type of H with
  | forall h, ioc_port_stat h _ _ _ = _ -> _ =>
      specialize (H (default (started 2)
                       (run_calls (firstn 1 port_session) (started 2))))
  end.
  destruct (H ltac:(vm_compute; reflexivity))
    as (_ & _ & _ & _ & Hc & _ & Hu & _).
  split.
  - etransitivity; [exact (Hc 0 ltac:(lia))|reflexivity].
  - etransitivity; [exact (Hu 1 ltac:(lia))|reflexivity].
Defined.

(** ** Reading a port *)

Lemma le16_bytes (x : Z) : u8 x + 256 * u8 (Z.shiftr x 8) = u16 x.
Proof.
  unfold u8, u16. rewrite !Z.land_ones, Z.shiftr_div_pow2 by lia.
  change (2 ^ 16) with (2 ^ 8 * 2 ^ 8).
  rewrite Z.rem_mul_r by lia. reflexivity.
Qed.

Lemma u8_range (x : Z) : 0 <= u8 x < 256.
Proof.
  unfold u8. rewrite Z.land_ones by lia. apply Z.mod_pos_bound. lia.
Qed.

(** X15.  Reading a port.  On an accessible controller GetPortStatus for
    a port in range, with wValue 0 and wLength 4, returns 0 and four bytes:
    the port's status register and then its change register, each as a
    little-endian 16-bit number, so that the pair is recovered from the
    bytes.  The request changes nothing but for the root-hub poll it asks
    for when some change register is non-zero. *)
Theorem get_port_status_bytes (h : usb_hcd) (i : Z) :
  hw_accessible h = true ->
  1 <= i <= port_count (hcd_priv h) ->
  let p := port_at (hcd_priv h) (i - 1) in
  exists b0 b1 b2 b3 h',
    vhci_hub_control h GetPortStatus 0 i 4 = (0, [b0; b1; b2; b3], h') /\
    Forall (fun b => 0 <= b < 256) [b0; b1; b2; b3] /\
    b0 + 256 * b1 = u16 (port_status p) /\
    b2 + 256 * b3 = u16 (port_change p) /\
    hcd_priv h' = hcd_priv h /\
    hw_accessible h' = hw_accessible h /\
    trace h' =
      trace h ++ (if has_changes (hcd_priv h) then [usb_hcd_poll_rh_status]
                  else []).
Proof.
  intros Hw Hi p. subst p. unfold vhci_hub_control. rewrite Hw. cbn [negb].
  unfold hub_control_switch, hcd_to_vhci.
  change (GetPortStatus =? ClearHubFeature) with false.
  change (GetPortStatus =? SetHubFeature) with false.
  change (GetPortStatus =? ClearPortFeature) with false.
  change (GetPortStatus =? GetHubDescriptor) with false.
  change (GetPortStatus =? GetHubStatus) with false.
  change (GetPortStatus =? GetPortStatus) with true.
  cbn [orb]. cbv iota.
  change (nz 0) with false. change (4 =? 4) with true.
  rewrite (proj2 (nz_true i)) by lia.
  replace (port_count (hcd_priv h) <? i) with false
    by (symmetry; apply Z.ltb_ge; lia).
  cbn [orb negb]. cbv iota.
  do 4 eexists. exists (if has_changes (hcd_priv h)
                        then emit usb_hcd_poll_rh_status h else h).
  split; [reflexivity|].
  split; [repeat constructor; apply u8_range|].
  split; [apply le16_bytes|]. split; [apply le16_bytes|].
  destruct (has_changes (hcd_priv h)); cbn [emit hcd_priv hw_accessible trace];
    rewrite ?app_nil_r; repeat split; exact Hw.
Qed.

Lemma get_port_status_bytes_witness :
  exists h,
    run_calls (firstn 4 port_session) (started 2) = Some h /\
    exists b0 b1 b2 b3 h',
      vhci_hub_control h GetPortStatus 0 1 4 = (0, [b0; b1; b2; b3], h') /\
      b0 + 256 * b1 = 259 /\ b2 + 256 * b3 = 17.
Proof.
  eexists. split; [vm_compute; reflexivity|].
  match goal with
  | |- context [vhci_hub_control ?x] =>
      destruct (get_port_status_bytes x 1 eq_refl)
        as (b0 & b1 & b2 & b3 & h' & H & _ & Hs & Hc & _);
        [vm_compute; split; discriminate|]
  end.
  exists b0, b1, b2, b3, h'. split; [exact H|]. split; [exact Hs|exact Hc].
Defined.

(** ** The data of a fetched urb *)

Lemma process_urb_work_length (u : urb) (w : usb_vhci_ioc_work_urb) :
  process_urb_work u = Some w ->
  (if usb_pipecontrol (pipe u) then option_map wLength (setup_packet u)
   else Some (transfer_buffer_length u)) = Some (work_buffer_length w).
Proof.
  unfold process_urb_work. intros H.
  destruct (usb_pipecontrol (pipe u)).
  - destruct (setup_packet u) as [cmd|]; [|discriminate]. cbn [option_map].
    repeat match type of H with
           | (if ?b then _ else _) = _ => destruct b
           end; try discriminate; simplify_eq; reflexivity.
  - repeat match type of H with
           | (if ?b then _ else _) = _ => destruct b
           end; try discriminate; simplify_eq; reflexivity.
Qed.

Ltac fd_fin :=
  cbn [fd_hcd fd_iso fd_retval fd_data];
  repeat match goal with
         | |- _ /\ _ => split
         | |- _ -> _ => intro
         | H : _ \/ _ |- _ => destruct H
         end;
  try reflexivity; try discriminate; try congruence; try lia;
  try contradiction.

(** X16.  The data fetch agrees with the announcement.  For an urb in
    the fetched queue that is not isochronous, with [w] the unit that
    work-fetch made of it: the call never changes the state; it returns
    -ENODATA when the transfer goes towards the host or the announced
    length is zero; otherwise it asks for a user buffer of at least the
    announced length (-EINVAL), fails with -EFAULT when the copy does, and
    else returns 0 with exactly the announced number of bytes from the start
    of the urb's transfer buffer. *)
Theorem fetch_data_agrees (h : usb_hcd) (handle : Z) (user_buf_null : bool)
    (user_len : Z) (iso_null : bool) (iso_count : Z)
    (iso_access_ok copy_ok : bool) (e : vhci_urb_priv)
    (w : usb_vhci_ioc_work_urb) :
  urbp_from_handle (hcd_priv h) handle = Some e ->
  process_urb_work (urbp_urb e) = Some w ->
  usb_pipeisoc (pipe (urbp_urb e)) = false ->
  exists r d,
    ioc_fetch_data_common h handle user_buf_null user_len iso_null iso_count
      iso_access_ok copy_ok = Some r /\
    is_urb_dir_in (urbp_urb e) = Some d /\
    fd_hcd r = h /\ fd_iso r = [] /\
    (nz d = true \/ work_buffer_length w = 0 ->
     fd_retval r = - ENODATA /\ fd_data r = None) /\
    (nz d = false -> work_buffer_length w <> 0 ->
     (user_buf_null = true \/ user_len < work_buffer_length w ->
      fd_retval r = - EINVAL /\ fd_data r = None) /\
     (user_buf_null = false -> work_buffer_length w <= user_len ->
      if copy_ok
      then fd_retval r = 0 /\
           exists bytes,
             transfer_buffer (urbp_urb e) = Some bytes /\
             fd_data r = Some (take (Z.to_nat (work_buffer_length w)) bytes)
      else fd_retval r = - EFAULT /\ fd_data r = None)).
Proof.
  intros He Hw Hiso.
  assert (Hsome : process_urb_work (urbp_urb e) <> None) by (rewrite Hw; discriminate).
  destruct (process_urb_work_pointers _ Hsome) as (d & tb & Hd & Ht & _ & Hbuf).
  pose proof (process_urb_work_length _ _ Hw) as Ht'.
  assert (tb = work_buffer_length w) as -> by congruence. clear Ht'.
  unfold ioc_fetch_data_common, hcd_to_vhci. rewrite He, Ht, Hd, Hiso.
  destruct (nz d) eqn:Ed; cbn [orb negb andb].
  { eexists. exists d. fd_fin. }
  destruct (nz (work_buffer_length w)) eqn:El; cbn [orb negb andb].
  2: { apply nz_false in El. eexists. exists d. fd_fin. }
  apply nz_true in El. specialize (Hbuf eq_refl).
  destruct (transfer_buffer (urbp_urb e)) as [bytes|]; [|discriminate].
  cbn [is_null]. cbv iota.
  destruct user_buf_null; cbn [orb].
  { eexists. exists d. fd_fin. }
  destruct (Z.ltb_spec user_len (work_buffer_length w)) as [Hlt|Hge].
  { eexists. exists d. fd_fin. }
  destruct copy_ok; cbn [negb]; eexists; exists d; fd_fin.
  exists bytes. split; reflexivity.
Qed.

Lemma fetch_data_agrees_witness :
  exists h r,
    run_calls (firstn 3 life_cycle) (started 2) = Some h /\
    ioc_fetch_data_common h 7 false 4 true 0 true true = Some r /\
    fd_retval r = 0 /\ fd_data r = Some [1; 2; 3; 4].
Proof.
  eexists. 
  match goal with
  | |- exists r, ?R = Some ?h /\ _ =>
      let v := eval vm_compute in R in
      match v with
      | Some ?x => unify h x
      end
  end.
  match goal with
  | |- exists r, _ /\ ioc_fetch_data_common ?h _ _ _ _ _ _ _ = _ /\ _ =>
      destruct (fetch_data_agrees h 7 false 4 true 0 true true
                  (mk_urbp (bulk_out_4 7) 0)
                  (mk_work_urb 0 0 USB_VHCI_URB_TYPE_BULK
                     (mk_urb_flags false false false) 4 None 0 0)
                  eq_refl eq_refl eq_refl)
        as (r & d & Hr & Hd & _ & _ & _ & Hcopy)
  end.
  exists r. split; [vm_compute; reflexivity|]. split; [exact Hr|].
  assert (d = 0) as -> by (vm_compute in Hd; congruence).
  destruct (Hcopy eq_refl ltac:(discriminate)) as [_ Hc].
  destruct (Hc eq_refl ltac:(cbn; lia)) as (H0 & bytes & Hb & Hdata).
  split; [exact H0|]. rewrite Hdata.
  assert (bytes = [1; 2; 3; 4]) as -> by (vm_compute in Hb; congruence).
  reflexivity.
Defined.

(** ** The error returns of a work-fetch that does not wait *)

Lemma fetch_work_locked_port (h : usb_hcd) :
  port_update_ok (hcd_priv h) ->
  urbp_list_cancel (hcd_priv h) = [] ->
  port_update (hcd_priv h) <> 0 ->
  fst (fst (fetch_work_locked h)) = 0.
Proof.
  intros Hok Hcancel Hnz.
  destruct (nonzero_bit _ Hnz) as (m & Hm).
  pose proof (Hok m Hm) as Hrange.
  unfold fetch_work_locked, hcd_to_vhci. rewrite Hcancel.
  rewrite (proj2 (nz_true _) Hnz).
  set (h1 := if _ <=? _ then _ else h).
  assert (H1 : port_side (hcd_priv h1) = port_side (hcd_priv h)).
  { subst h1. destruct (_ <=? _); reflexivity. }
  injection H1 as Ec Ep Eu Ef.
  assert (Hscan : port_scan (hcd_priv h1)
                    (Z.to_nat (port_count (hcd_priv h1))) 0 <> None).
  { apply (port_scan_complete _ (m - 1)); [lia|].
    replace (m - 1 + 1) with m by lia. congruence. }
  destruct (port_scan _ _ _); [reflexivity|contradiction].
Qed.

Ltac fw_fin :=
  repeat match goal with
         | |- _ /\ _ => split
         | |- _ <-> _ => split
         | |- _ -> _ => intro
         | H : _ /\ _ |- _ => destruct H
         end;
  try (left; reflexivity); try (right; left; reflexivity);
  try (right; right; reflexivity); try reflexivity; try discriminate;
  try congruence; try assumption.

(** X17.  The error returns of a work-fetch that does not wait.  With an
    update mask that only holds bits of existing ports, a work-fetch with
    timeout 0 returns 0, -ETIMEDOUT or -ENODATA.  It returns -ETIMEDOUT
    exactly when there is no work (no cancellation waiting, a zero update
    mask and an empty inbox), and then changes nothing.  It returns
    -ENODATA exactly when the only work was a non-empty inbox of urbs that
    all fail the checks; these have then all been given back, in order, and
    the inbox is empty. *)
Theorem fetch_work_errors (h : usb_hcd) (wret : Z) :
  port_update_ok (hcd_priv h) ->
  let v := hcd_priv h in
  let ret := fst (fst (ioc_fetch_work h 0 wret)) in
  let h' := snd (ioc_fetch_work h 0 wret) in
  (ret = 0 \/ ret = - ETIMEDOUT \/ ret = - ENODATA) /\
  (ret = - ETIMEDOUT <->
   urbp_list_cancel v = [] /\ port_update v = 0 /\ urbp_list_inbox v = []) /\
  (ret = - ETIMEDOUT -> h' = h) /\
  (ret = - ENODATA <->
   urbp_list_cancel v = [] /\ port_update v = 0 /\
   urbp_list_inbox v <> [] /\ Forall rejected (urbp_list_inbox v)) /\
  (ret = - ENODATA ->
   h' = mk_hcd (hw_accessible h) (set_list Inbox [] v)
               (trace h ++ rejected_events (urbp_list_inbox v))).
Proof.
  intros Hok. cbv zeta. unfold ioc_fetch_work, has_work, hcd_to_vhci.
  change (nz 0) with false. cbv iota.
  destruct (urbp_list_cancel (hcd_priv h)) as [|c cs] eqn:Ec.
  2: { rewrite orb_true_r. cbn [orb negb].
       unfold fetch_work_locked, hcd_to_vhci. rewrite Ec. cbn [fst snd].
       fw_fin. }
  cbn [negb orb].
  destruct (Z.eq_dec (port_update (hcd_priv h)) 0) as [Hz|Hnz].
  2: { rewrite (proj2 (nz_true _) Hnz). cbn [orb negb].
       pose proof (fetch_work_locked_port h Hok Ec Hnz) as Hr.
       rewrite Hr. fw_fin. }
  rewrite (proj2 (nz_false _) Hz). cbn [orb].
  destruct (urbp_list_inbox (hcd_priv h)) as [|e l] eqn:Ei.
  { cbn [negb fst snd]. fw_fin. }
  cbn [negb].
  unfold fetch_work_locked, hcd_to_vhci. rewrite Ec.
  rewrite (proj2 (nz_false _) Hz). rewrite Ei.
  destruct (inbox_split (e :: l)) as [Hall|(bad & g & d & rest & Hl & Hbad & Hg)].
  - rewrite (fetch_work_repeat_exhausts (e :: l) h Hall Ei). cbn [fst snd].
    fw_fin.
  - rewrite Hl.
    rewrite (fetch_work_repeat_accepts bad rest g d h Hbad Hg)
      by (rewrite Ei; exact Hl).
    cbn [fst snd]. fw_fin. exfalso.
    match goal with
    | H : Forall rejected (bad ++ g :: rest) |- _ =>
        apply Forall_app in H as [_ H]; apply Forall_cons in H as [H _];
        unfold rejected in H; congruence
    end.
Qed.

Lemma fetch_work_errors_witness :
  fst (fst (ioc_fetch_work
              (snd (vhci_urb_enqueue (started 2) (control_urb_no_setup 7)
                      true 0)) 0 0)) = - ENODATA.
Proof.
  destruct (fetch_work_errors
              (snd (vhci_urb_enqueue (started 2) (control_urb_no_setup 7)
                      true 0)) 0) as (_ & _ & _ & Hiff & _).
  - intros m Hm. change (Z.testbit 0 m = true) in Hm.
    rewrite Z.bits_0 in Hm. discriminate.
  - apply Hiff. split; [reflexivity|]. split; [reflexivity|].
    split; [discriminate|].
    apply List.Forall_cons; [reflexivity|apply List.Forall_nil].
Defined.

(** ** A transfer from submission to completion *)

Lemma idle_inbox (h : usb_hcd) :
  (forall q, get_list q (hcd_priv h) = []) ->
  hcd_priv h =
    mk_vhci (rh_state (hcd_priv h)) (ports (hcd_priv h))
      (port_count (hcd_priv h)) (port_sched_offset (hcd_priv h))
      (port_update (hcd_priv h)) (frame_num (hcd_priv h)) [] [] [] [].
Proof.
  intros Hq. pose proof (Hq Inbox) as H1. pose proof (Hq Fetched) as H2.
  pose proof (Hq Cancel) as H3. pose proof (Hq Canceling) as H4.
  cbn [get_list] in *. destruct (hcd_priv h). cbn in *. congruence.
Qed.

(** X18.  A transfer from submission to completion.  On a controller
    with empty queues and a zero update mask, an urb that is accepted and
    passes the checks of work-fetch is handed to the next work-fetch as a
    process unit carrying its handle; the worker's give-back for that
    handle, when its own checks pass, returns 0, gives the urb back once
    with the worker's results and leaves the queues empty again.  The
    status passed with the give-back is 0 whatever status the worker
    supplied. *)
Theorem transfer_completes (h h1 : usb_hcd) (u u' : urb)
    (w : usb_vhci_ioc_work_urb) (kzalloc_ok : bool) (link_retval wret : Z)
    (status act iso_count err_count : Z) (buf : option (list Z))
    (iso : option (list (Z * Z))) (iso_access_ok : bool) :
  (forall q, get_list q (hcd_priv h) = []) ->
  port_update (hcd_priv h) = 0 ->
  vhci_urb_enqueue h u kzalloc_ok link_retval = (0, h1) ->
  process_urb_work u = Some w ->
  giveback_checks u act iso_count err_count buf iso iso_access_ok = done_ok u' ->
  exists h2 h3,
    ioc_fetch_work h1 0 wret =
      (0, Some (USB_VHCI_WORK_TYPE_PROCESS_URB (urb_handle u) w), h2) /\
    urbp_list_fetched (hcd_priv h2) = [mk_urbp u 0] /\
    ioc_giveback_common h2 (urb_handle u) status act iso_count err_count buf
      iso iso_access_ok = Some (0, h3) /\
    (forall q, get_list q (hcd_priv h3) = []) /\
    trace h3 =
      trace h ++ [wake_up_interruptible; usb_hcd_giveback_urb u' 0].
Proof.
  intros Hidle Hpu He Hw Hc.
  unfold vhci_urb_enqueue in He.
  destruct (_ && _); [discriminate|].
  destruct (negb kzalloc_ok); [discriminate|].
  destruct (nz link_retval) eqn:El; [apply nz_true in El; congruence|].
  injection He as <-.
  pose proof (idle_inbox h Hidle) as Hv.
  destruct h as [hw v tr]. cbn [hcd_priv] in *. rewrite Hv. clear Hv Hidle.
  cbn [port_update] in Hpu.
  unfold ioc_fetch_work, has_work, fetch_work_locked, trigger_work_event,
    emit, with_vhci, list_add_tail, hcd_to_vhci.
  cbn [hcd_priv trace hw_accessible get_list set_list urbp_list_inbox
       urbp_list_cancel port_update app].
  change (nz 0) with false. rewrite Hpu. change (nz 0) with false.
  cbn [orb negb fetch_work_repeat urbp_urb]. rewrite Hw.
  unfold list_move_tail, list_add_tail, list_del, with_vhci, handle_of.
  cbn [hcd_priv trace hw_accessible get_list set_list urbp_list_inbox
       urbp_list_fetched urbp_urb del_urbp app].
  rewrite Z.eqb_refl.
  do 2 eexists. split; [reflexivity|]. split; [reflexivity|].
  unfold ioc_giveback_common, giveback_lookup, urbp_from_handle, hcd_to_vhci.
  cbn [hcd_priv urbp_list_fetched find_urbp]. unfold handle_of at 1.
  cbn [urbp_urb]. rewrite Z.eqb_refl. cbn [urbp_urb]. rewrite Hc.
  split; [reflexivity|].
  pose proof (giveback_checks_handle _ _ _ _ _ _ _ _ Hc) as Hh.
  unfold vhci_urb_giveback, emit, with_vhci, list_del, maybe_set_status,
    handle_of.
  cbn [hcd_priv trace hw_accessible get_list set_list urbp_list_fetched
       urbp_urb urbp_status del_urbp].
  change (0 =? - EINPROGRESS) with false. cbv iota.
  cbn [urbp_urb urbp_status]. rewrite Hh, Z.eqb_refl.
  split; [intros q; destruct q; reflexivity|].
  rewrite <- app_assoc. reflexivity.
Qed.

Lemma transfer_completes_witness :
  exists h2 h3,
    ioc_fetch_work (snd (vhci_urb_enqueue (started 2) (bulk_out_4 7) true 0))
      0 0 =
      (0,
       Some (USB_VHCI_WORK_TYPE_PROCESS_URB 7
               (mk_work_urb 0 0 USB_VHCI_URB_TYPE_BULK
                  (mk_urb_flags false false false) 4 None 0 0)),
       h2) /\
    urbp_list_fetched (hcd_priv h2) = [mk_urbp (bulk_out_4 7) 0] /\
    ioc_giveback_common h2 7 (- EPROTO) 4 0 0 None None true = Some (0, h3) /\
    (forall q, get_list q (hcd_priv h3) = []) /\
    trace h3 =
      trace (started 2) ++
      [wake_up_interruptible;
       usb_hcd_giveback_urb
         (set_urb_results (bulk_out_4 7) (Some [1; 2; 3; 4]) [] 4 0) 0].
Proof.
  apply (transfer_completes (started 2) _ (bulk_out_4 7) _ _ true 0 0
           (- EPROTO) 4 0 0 None None true).
  - intros q. destruct q; reflexivity.
  - reflexivity.
  - reflexivity.
  - reflexivity.
  - reflexivity.
Defined.

(** ** A cancellation from request to completion *)

(** X19.  A cancellation from request to completion.  With one urb in
    the hands of the worker and nothing else queued, a cancel request for it
    returns 0 and wakes the worker; the next work-fetch yields the cancel
    unit for its handle, whatever port updates are pending; and the worker's
    give-back for the handle, when its checks pass, returns -ECANCELED,
    gives the urb back once and leaves all queues empty.  The status passed
    with the give-back is the entry's status field after the compare-and-set
    of the worker's status; the cancel request and -ECANCELED leave no trace
    in it. *)
Theorem cancel_completes (h : usb_hcd) (e : vhci_urb_priv) (u' : urb)
    (unlink_status wret status act iso_count err_count : Z)
    (buf : option (list Z)) (iso : option (list (Z * Z)))
    (iso_access_ok : bool) :
  urbp_list_inbox (hcd_priv h) = [] ->
  urbp_list_fetched (hcd_priv h) = [e] ->
  urbp_list_cancel (hcd_priv h) = [] ->
  urbp_list_canceling (hcd_priv h) = [] ->
  giveback_checks (urbp_urb e) act iso_count err_count buf iso iso_access_ok =
    done_ok u' ->
  exists h1 h2 h3,
    vhci_urb_dequeue h (handle_of e) unlink_status 0 = (0, h1) /\
    urbp_list_cancel (hcd_priv h1) = [e] /\
    ioc_fetch_work h1 0 wret =
      (0, Some (USB_VHCI_WORK_TYPE_CANCEL_URB (handle_of e)), h2) /\
    urbp_list_canceling (hcd_priv h2) = [e] /\
    ioc_giveback_common h2 (handle_of e) status act iso_count err_count buf
      iso iso_access_ok = Some (- ECANCELED, h3) /\
    (forall q, get_list q (hcd_priv h3) = []) /\
    trace h3 =
      trace h ++
      [wake_up_interruptible;
       usb_hcd_giveback_urb u' (urbp_status (maybe_set_status e status))].
Proof.
  intros Hi Hf Hc Hg Hck.
  destruct h as [hw v tr]. destruct v as [rh ps pc off pu fr inb fet can cing].
  cbn [hcd_priv urbp_list_inbox urbp_list_fetched urbp_list_cancel
       urbp_list_canceling] in *. subst inb fet can cing.
  unfold vhci_urb_dequeue, hcd_to_vhci.
  change (nz 0) with false. cbv iota.
  cbn [hcd_priv urbp_list_inbox urbp_list_fetched find_urbp].
  rewrite Z.eqb_refl.
  unfold trigger_work_event, emit, with_vhci, list_move_tail, list_add_tail,
    list_del.
  cbn [hcd_priv trace hw_accessible get_list set_list urbp_list_fetched
       urbp_list_cancel del_urbp app rh_state ports port_count
       port_sched_offset port_update frame_num urbp_list_inbox
       urbp_list_canceling].
  rewrite Z.eqb_refl.
  do 3 eexists. split; [reflexivity|]. split; [reflexivity|].
  unfold ioc_fetch_work, has_work, fetch_work_locked, hcd_to_vhci.
  change (nz 0) with false. cbv iota.
  cbn [hcd_priv urbp_list_cancel]. rewrite orb_true_r. cbn [orb negb].
  unfold with_vhci, list_move_tail, list_add_tail, list_del.
  cbn [hcd_priv trace hw_accessible get_list set_list urbp_list_cancel
       urbp_list_canceling del_urbp app rh_state ports port_count
       port_sched_offset port_update frame_num urbp_list_inbox
       urbp_list_fetched].
  rewrite Z.eqb_refl.
  split; [reflexivity|]. split; [reflexivity|].
  unfold ioc_giveback_common, giveback_lookup, urbp_from_handle,
    urbp_from_handle_in_canceling, hcd_to_vhci.
  cbn [hcd_priv urbp_list_fetched urbp_list_canceling find_urbp].
  rewrite Z.eqb_refl. rewrite Hck.
  split; [reflexivity|].
  pose proof (giveback_checks_handle _ _ _ _ _ _ _ _ Hck) as Hh.
  unfold vhci_urb_giveback, emit, with_vhci, list_del.
  cbn [hcd_priv trace hw_accessible get_list set_list urbp_list_canceling].
  rewrite maybe_set_status_handle. unfold handle_of at 1. cbn [urbp_urb].
  rewrite Hh. fold (handle_of e). cbn [del_urbp]. rewrite Z.eqb_refl.
  split; [intros q; destruct q; reflexivity|].
  rewrite <- app_assoc. cbn [app].
  unfold maybe_set_status. cbn [urbp_status urbp_urb].
  destruct (_ =? _); reflexivity.
Qed.

Lemma cancel_completes_witness :
  exists h1 h2 h3,
    vhci_urb_dequeue hcd_in_service 7 (- ECANCELED) 0 = (0, h1) /\
    urbp_list_cancel (hcd_priv h1) = [mk_urbp (bulk_out_4 7) 0] /\
    ioc_fetch_work h1 0 0 = (0, Some (USB_VHCI_WORK_TYPE_CANCEL_URB 7), h2) /\
    urbp_list_canceling (hcd_priv h2) = [mk_urbp (bulk_out_4 7) 0] /\
    ioc_giveback_common h2 7 (- ECANCELED) 0 0 0 None None true =
      Some (- ECANCELED, h3) /\
    (forall q, get_list q (hcd_priv h3) = []) /\
    trace h3 =
      trace hcd_in_service ++
      [wake_up_interruptible;
       usb_hcd_giveback_urb
         (set_urb_results (bulk_out_4 7) (Some [1; 2; 3; 4]) [] 0 0) 0].
Proof.
  apply (cancel_completes hcd_in_service (mk_urbp (bulk_out_4 7) 0) _
           (- ECANCELED) 0 (- ECANCELED) 0 0 0 None None true);
    reflexivity.
Defined.

(** ** A give-back stays within the transfer buffer *)




(** ** An urb is in one place at a time *)

(** X28.  An urb is in one place at a time.  If the handles accounted
    for at the outset and the handles of the submissions accepted on the way
    are all different (the USB core never submits an urb that is still in
    flight), then after any sequence of calls no handle occurs twice in the
    four queues, in one queue or across them, and no urb that has been given
    back is still queued. *)
Theorem queues_disjoint (cs : list call) (h h' : usb_hcd) :
  List.NoDup (accounted h ++ submitted_all cs h) ->
  run_calls cs h = Some h' ->
  List.NoDup (queued (hcd_priv h')) /\
  forall handle,
    In handle (given_back (trace h')) -> ~ In handle (queued (hcd_priv h')).
Proof.
  intros Hnd Hr.
  pose proof (urb_steps_accounted _ _ _ (run_calls_steps _ _ _ Hr)) as Hperm.
  apply NoDup_ListNoDup in Hnd. rewrite <- Hperm in Hnd.
  unfold accounted in Hnd. apply NoDup_app in Hnd as (Hq & Hdis & _).
  split; [apply NoDup_ListNoDup; exact Hq|].
  intros handle Hg Hin. apply (Hdis handle); apply list_elem_of_In; assumption.
Qed.

Lemma queues_disjoint_witness :
  exists h',
    run_calls life_cycle (started 2) = Some h' /\
    List.NoDup (queued (hcd_priv h')) /\
    forall handle,
      In handle (given_back (trace h')) -> ~ In handle (queued (hcd_priv h')).
Proof.
  eexists. split; [vm_compute; reflexivity|].
  apply (queues_disjoint life_cycle (started 2)).
  - vm_compute. repeat (constructor; [cbn; lia|]). constructor.
  - vm_compute. reflexivity.
Defined.

(** ** A work-fetch that waits without limit *)

(** X29.  A work-fetch that waits without limit never delivers work.
    With a negative timeout the call waits with [wait_event_interruptible],
    which returns 0 once there is work and -ERESTARTSYS on a signal.  Both
    results end the call before the queues are looked at: -EINTR for the
    signal and, when work has arrived, -ETIMEDOUT; no unit is stored and the
    state is left as it was. *)
Theorem fetch_work_unbounded_wait (h : usb_hcd) (timeout wret : Z) :
  timeout < 0 ->
  wret = 0 \/ wret = - ERESTARTSYS ->
  ioc_fetch_work h timeout wret =
    (if wret =? 0 then - ETIMEDOUT else - EINTR, None, h).
Proof.
  intros Ht Hw. unfold ioc_fetch_work.
  rewrite (proj2 (nz_true timeout)) by lia.
  destruct Hw as [-> | ->]; reflexivity.
Qed.

Lemma fetch_work_unbounded_wait_witness :
  ioc_fetch_work hcd_in_service (- 1) 0 = (- ETIMEDOUT, None, hcd_in_service) /\
  has_work (hcd_priv (snd (vhci_urb_enqueue hcd_in_service (bulk_out_4 9)
                             true 0))) = true /\
  fst (fst (ioc_fetch_work
              (snd (vhci_urb_enqueue hcd_in_service (bulk_out_4 9) true 0))
              (- 1) 0)) = - ETIMEDOUT.
Proof.
  split; [|split; [reflexivity|]].
  - apply (fetch_work_unbounded_wait hcd_in_service (- 1) 0); [lia|].
    left. reflexivity.
  - rewrite (fetch_work_unbounded_wait _ (- 1) 0); [reflexivity|lia|].
    left. reflexivity.
Defined.

(** ** The frame number *)


Lemma frame_num_port_update (port : Z) (h : usb_hcd) :
  frame_num (hcd_priv (userspace_needs_port_update port h)) =
    frame_num (hcd_priv h).
Proof. reflexivity. Qed.









